(** * Voice receive path and voice control channel

    A shallow embedding of the packet receiver (class [VoiceReceiver]) and of
    the control-channel state machine (class [VoiceWebSocket]), with the
    properties their specification states about them.

    Conventions of the embedding:
    - a Node [Buffer] is a list of bytes, each an integer in [0, 256);
    - a JavaScript [Map] is an association list in insertion order;
    - objects created with [new] (streams, sockets) are references drawn
      from a counter kept in the state; the decoders come from a pool that
      is not part of the sources, and are the references the pool gives
      out;
    - every call into a collaborator (stream, decoder, socket, emitter,
      console) is recorded, in program order, in a list of events;
    - a [throw] that leaves a method is a [Throw] completion; the mutations
      made before it are kept, as in JavaScript. *)

From Stdlib Require Import ZArith List String Bool Lia.
Import ListNotations.
Open Scope Z_scope.

(** ** Node buffers *)

Module Buffer.

Definition t := list Z.

Definition length (b : t) : Z := Z.of_nat (List.length b).

(** [Buffer.alloc(n)] followed by [fill(0)]. *)
Definition alloc (n : Z) : t := repeat 0 (Z.to_nat n).

(** [b[i]]: [None] stands for [undefined], the value of an index out of
    range. *)
Definition index (b : t) (i : Z) : option Z :=
  if i <? 0 then None else nth_error b (Z.to_nat i).

(** [b.readUInt8(o)], [b.readUInt16BE(o)], [b.readUInt32BE(o)]: [None] is the
    [RangeError] of a read that leaves the buffer. *)
Definition readUInt8 (b : t) (o : Z) : option Z := index b o.

Definition readUInt16BE (b : t) (o : Z) : option Z :=
  match index b o, index b (o + 1) with
  | Some b0, Some b1 => Some (Z.lor (Z.shiftl b0 8) b1)
  | _, _ => None
  end.

Definition readUInt32BE (b : t) (o : Z) : option Z :=
  match index b o, index b (o + 1), index b (o + 2), index b (o + 3) with
  | Some b0, Some b1, Some b2, Some b3 =>
      Some (Z.lor (Z.shiftl b0 24)
             (Z.lor (Z.shiftl b1 16) (Z.lor (Z.shiftl b2 8) b3)))
  | _, _, _, _ => None
  end.

(** The index arithmetic of [slice]: a negative index counts from the end,
    and the result is clamped to the buffer. *)
Definition clamp (len i : Z) : Z :=
  if i <? 0 then Z.max 0 (len + i) else Z.min i len.

(** [b.slice(start, end)]; [end = None] is an omitted ([undefined]) end. *)
Definition slice (b : t) (start : Z) (end_ : option Z) : t :=
  let len := length b in
  let s := clamp len start in
  let e := match end_ with Some e => clamp len e | None => len end in
  firstn (Z.to_nat (e - s)) (skipn (Z.to_nat s) b).

(** [src.copy(target, targetStart, sourceStart, sourceEnd)], returning the
    target after the copy; [None] is the [RangeError] of a negative index or
    of a source start beyond the source.  The bytes copied are those of
    [src] in [sourceStart, sourceEnd), cut to what fits in the target; the
    rest of the target is left as it was. *)
Definition copy (src target : t) (targetStart sourceStart : Z)
    (sourceEnd : option Z) : option t :=
  let sourceEnd := match sourceEnd with Some e => e | None => length src end in
  if (targetStart <? 0) || (sourceStart <? 0) || (sourceEnd <? 0) then None
  else if (length target <=? targetStart) || (sourceEnd <=? sourceStart)
  then Some target
  else if length src <? sourceStart then None
  else
    let room := length target - targetStart in
    let nb := Z.min (Z.min (sourceEnd - sourceStart) room)
                    (length src - sourceStart) in
    let bytes := firstn (Z.to_nat nb) (skipn (Z.to_nat sourceStart) src) in
    Some (firstn (Z.to_nat targetStart) target ++ bytes
          ++ skipn (Z.to_nat (targetStart + nb)) target).

End Buffer.

(** ** JavaScript [Map] *)

Module JsMap.

Definition t (K V : Type) := list (K * V).

Section Def.
Context {K V : Type} (eqb : K -> K -> bool).

(** [m.get(k)]; [None] is [undefined]. *)
Fixpoint get (m : t K V) (k : K) : option V :=
  match m with
  | [] => None
  | (k', v) :: r => if eqb k k' then Some v else get r k
  end.

(** [m.set(k, v)]: an existing key keeps its place in the order. *)
Fixpoint set (m : t K V) (k : K) (v : V) : t K V :=
  match m with
  | [] => [(k, v)]
  | (k', v') :: r => if eqb k k' then (k', v) :: r else (k', v') :: set r k v
  end.

(** [m.delete(k)]. *)
Fixpoint delete (m : t K V) (k : K) : t K V :=
  match m with
  | [] => []
  | (k', v) :: r => if eqb k k' then delete r k else (k', v) :: delete r k
  end.

(** [m.size]. *)
Definition size (m : t K V) : Z := Z.of_nat (List.length m).

Definition keys (m : t K V) : list K := map fst m.
End Def.
End JsMap.

(** ** The packet receiver *)

Module VoiceReceiver.

Definition UserId := string.
Definition StreamRef := nat.
Definition EncoderRef := nat.

Inductive completion :=
| Normal
| Throw (error : string).

(** What the receiver emits on itself. *)
Inductive emitted :=
| Warn (reason message : string)
| Opus (user : UserId) (buffer : Buffer.t)
| Pcm (user : UserId) (buffer : Buffer.t)
| Error (message : string).

(** The calls the receiver makes on its collaborators. *)
Inductive event :=
| OnSpeaking (user_id : UserId) (ssrc : Z) (speaking : bool)
| StreamPush (s : StreamRef) (chunk : option Buffer.t)
| Stream_push (s : StreamRef) (chunk : option Buffer.t)
| StreamSetOpen (s : StreamRef) (open : bool)
| EncoderFetch (e : EncoderRef)
| EncoderDecode (e : EncoderRef) (frame : Buffer.t)
| EncoderDestroy (e : EncoderRef)
| SecretboxOpen (ciphertext nonce key : Buffer.t)
| Emit (what : emitted)
| SocketOn
| SocketRemoveListener
| Console (message : string).

(** A Node [Timeout]: armed for [delay] milliseconds, it runs its callback
    once when [deadline] is reached; [refresh] arms it again, also after it
    has run. *)
Record Timeout := {
  delay : Z;
  deadline : Z;
  active : bool
}.

Definition setTimeout (now d : Z) : Timeout :=
  {| delay := d; deadline := now + d; active := true |}.

Definition refresh (now : Z) (t : Timeout) : Timeout :=
  {| delay := delay t; deadline := now + delay t; active := true |}.

Definition clearTimeout (t : Timeout) : Timeout :=
  {| delay := delay t; deadline := deadline t; active := false |}.

Definition due (now : Z) (t : Timeout) : bool :=
  active t && (deadline t <=? now).

(** A speaking timeout with the [userStat.userID] its callback closes
    over. *)
Record SpeakingTimeout := {
  timer : Timeout;
  user_id : UserId
}.

(** The session context read from [this.voiceConnection]: the negotiated
    mode and key, the source-identifier map (giving [userStat.userID]), and
    whether a call of [onSpeaking] throws. *)
Record VoiceConnection := {
  encryptionMode : string;
  secretKey : Buffer.t;
  ssrcMap : Z -> option UserId;
  onSpeakingThrows : UserId -> Z -> bool -> bool
}.

(** The primitives the receiver is given: authenticated decryption
    ([secretbox.methods.open], [None] on a failed verification), the decoder
    ([encoder.decode], a frame or the error thrown), the resolver of users
    ([resolveUser], [None] when it gives nothing) and the codec-engine pool
    ([engine]: the decoder it gives out at a call of [fetch()], by the
    number of the call; the pool may give out a decoder it gave out
    before). *)
Record Primitives := {
  secretbox_open : Buffer.t -> Buffer.t -> Buffer.t -> option Buffer.t;
  decode : EncoderRef -> Buffer.t -> Buffer.t + string;
  resolveUser : string -> option UserId;
  engine : nat -> EncoderRef
}.

(** The receiver: the fields set by the constructor, the module-level
    [nonce] buffer it shares with every other receiver, the number of ['pcm']
    listeners its emitter holds, how often [_listener] is registered on the
    UDP socket, and the counter that numbers the streams created and the
    calls of the codec-engine pool. *)
Record state := {
  nonce : Buffer.t;
  queues : JsMap.t Z (list Buffer.t);
  pcmStreams : JsMap.t UserId StreamRef;
  opusStreams : JsMap.t UserId StreamRef;
  opusEncoders : JsMap.t UserId EncoderRef;
  speakingTimeouts : JsMap.t Z SpeakingTimeout;
  destroyed : bool;
  disconnectTimer : option Timeout;
  pcmListenerCount : Z;
  socketListeners : nat;
  nextRef : nat
}.

Definition with_nonce (n : Buffer.t) (st : state) : state :=
  {| nonce := n; queues := queues st; pcmStreams := pcmStreams st;
     opusStreams := opusStreams st; opusEncoders := opusEncoders st;
     speakingTimeouts := speakingTimeouts st; destroyed := destroyed st;
     disconnectTimer := disconnectTimer st;
     pcmListenerCount := pcmListenerCount st;
     socketListeners := socketListeners st; nextRef := nextRef st |}.

Definition with_pcmStreams (m : JsMap.t UserId StreamRef) (st : state) : state :=
  {| nonce := nonce st; queues := queues st; pcmStreams := m;
     opusStreams := opusStreams st; opusEncoders := opusEncoders st;
     speakingTimeouts := speakingTimeouts st; destroyed := destroyed st;
     disconnectTimer := disconnectTimer st;
     pcmListenerCount := pcmListenerCount st;
     socketListeners := socketListeners st; nextRef := nextRef st |}.

Definition with_opusStreams (m : JsMap.t UserId StreamRef) (st : state) : state :=
  {| nonce := nonce st; queues := queues st; pcmStreams := pcmStreams st;
     opusStreams := m; opusEncoders := opusEncoders st;
     speakingTimeouts := speakingTimeouts st; destroyed := destroyed st;
     disconnectTimer := disconnectTimer st;
     pcmListenerCount := pcmListenerCount st;
     socketListeners := socketListeners st; nextRef := nextRef st |}.

Definition with_opusEncoders (m : JsMap.t UserId EncoderRef) (st : state) : state :=
  {| nonce := nonce st; queues := queues st; pcmStreams := pcmStreams st;
     opusStreams := opusStreams st; opusEncoders := m;
     speakingTimeouts := speakingTimeouts st; destroyed := destroyed st;
     disconnectTimer := disconnectTimer st;
     pcmListenerCount := pcmListenerCount st;
     socketListeners := socketListeners st; nextRef := nextRef st |}.

Definition with_speakingTimeouts (m : JsMap.t Z SpeakingTimeout) (st : state) : state :=
  {| nonce := nonce st; queues := queues st; pcmStreams := pcmStreams st;
     opusStreams := opusStreams st; opusEncoders := opusEncoders st;
     speakingTimeouts := m; destroyed := destroyed st;
     disconnectTimer := disconnectTimer st;
     pcmListenerCount := pcmListenerCount st;
     socketListeners := socketListeners st; nextRef := nextRef st |}.

Definition with_destroyed (b : bool) (st : state) : state :=
  {| nonce := nonce st; queues := queues st; pcmStreams := pcmStreams st;
     opusStreams := opusStreams st; opusEncoders := opusEncoders st;
     speakingTimeouts := speakingTimeouts st; destroyed := b;
     disconnectTimer := disconnectTimer st;
     pcmListenerCount := pcmListenerCount st;
     socketListeners := socketListeners st; nextRef := nextRef st |}.

Definition with_disconnectTimer (t : option Timeout) (st : state) : state :=
  {| nonce := nonce st; queues := queues st; pcmStreams := pcmStreams st;
     opusStreams := opusStreams st; opusEncoders := opusEncoders st;
     speakingTimeouts := speakingTimeouts st; destroyed := destroyed st;
     disconnectTimer := t;
     pcmListenerCount := pcmListenerCount st;
     socketListeners := socketListeners st; nextRef := nextRef st |}.

Definition with_socketListeners (n : nat) (st : state) : state :=
  {| nonce := nonce st; queues := queues st; pcmStreams := pcmStreams st;
     opusStreams := opusStreams st; opusEncoders := opusEncoders st;
     speakingTimeouts := speakingTimeouts st; destroyed := destroyed st;
     disconnectTimer := disconnectTimer st;
     pcmListenerCount := pcmListenerCount st;
     socketListeners := n; nextRef := nextRef st |}.

Definition with_nextRef (n : nat) (st : state) : state :=
  {| nonce := nonce st; queues := queues st; pcmStreams := pcmStreams st;
     opusStreams := opusStreams st; opusEncoders := opusEncoders st;
     speakingTimeouts := speakingTimeouts st; destroyed := destroyed st;
     disconnectTimer := disconnectTimer st;
     pcmListenerCount := pcmListenerCount st;
     socketListeners := socketListeners st; nextRef := n |}.

(** The receiver as the constructor leaves it, given the module's nonce
    buffer: empty tables, not destroyed, no liveness timer, [_listener]
    registered once. *)
Definition constructor (moduleNonce : Buffer.t) : state * list event :=
  ({| nonce := moduleNonce; queues := []; pcmStreams := []; opusStreams := [];
      opusEncoders := []; speakingTimeouts := []; destroyed := false;
      disconnectTimer := None; pcmListenerCount := 0;
      socketListeners := 1; nextRef := 0 |},
   [SocketOn]).

(** The module-level [nonce], as the module leaves it when it is loaded. *)
Definition moduleNonce : Buffer.t := Buffer.alloc 24.

Definition users_get {V} (m : JsMap.t UserId V) (k : UserId) : option V :=
  JsMap.get String.eqb m k.
Definition users_set {V} (m : JsMap.t UserId V) (k : UserId) (v : V) :=
  JsMap.set String.eqb m k v.
Definition users_delete {V} (m : JsMap.t UserId V) (k : UserId) :=
  JsMap.delete String.eqb m k.
Definition ssrc_get {V} (m : JsMap.t Z V) (k : Z) : option V :=
  JsMap.get Z.eqb m k.
Definition ssrc_set {V} (m : JsMap.t Z V) (k : Z) (v : V) :=
  JsMap.set Z.eqb m k v.
Definition ssrc_delete {V} (m : JsMap.t Z V) (k : Z) :=
  JsMap.delete Z.eqb m k.

(** *** [handlePacket] *)

(** The nonce and the end of the ciphertext, by encryption mode.  The copy
    writes into the shared [nonce] buffer; [None] is the [RangeError] of
    [msg.copy].  An end of [None] is the [end] left [undefined]. *)
Definition chooseNonce (mode : string) (nonce msg : Buffer.t)
  : option (Buffer.t * option Z) :=
  if String.eqb mode "xsalsa20_poly1305_lite" then
    match Buffer.copy msg nonce 0 (Buffer.length msg - 4) None with
    | Some n => Some (n, Some (Buffer.length msg - 4))
    | None => None
    end
  else if String.eqb mode "xsalsa20_poly1305_suffix" then
    match Buffer.copy msg nonce 0 (Buffer.length msg - 24) None with
    | Some n => Some (n, Some (Buffer.length msg - 24))
    | None => None
    end
  else
    match Buffer.copy msg nonce 0 0 (Some 12) with
    | Some n => Some (n, None)
    | None => None
    end.

(** [byte === 0], for a byte that may be [undefined]. *)
Definition isZeroByte (byte : option Z) : bool :=
  match byte with
  | Some b => b =? 0
  | None => false
  end.

(** [0b1111 & (byte >> 4)]; [undefined >> 4] is [0]. *)
Definition elementSkip (byte : option Z) : Z :=
  match byte with
  | Some b => Z.land 15 (Z.shiftr b 4)
  | None => 0
  end.

(** The loop over the header-extension elements: the offset after [count]
    iterations started at [offset]. *)
Fixpoint skipElements (data : Buffer.t) (count : nat) (offset : Z) : Z :=
  match count with
  | O => offset
  | S count' =>
      let byte := Buffer.index data offset in
      let offset := offset + 1 in
      if isZeroByte byte then skipElements data count' offset
      else skipElements data count' (offset + (1 + elementSkip byte))
  end.

Definition hasExtensionMarker (data : Buffer.t) : bool :=
  match Buffer.index data 0, Buffer.index data 1 with
  | Some b0, Some b1 => (b0 =? 0xBE) && (b1 =? 0xDE) && (4 <? Buffer.length data)
  | _, _ => false
  end.

(** Strip RTP header extensions (one-byte only); [None] is the [RangeError]
    of [readUInt16BE]. *)
Definition stripExtensions (data : Buffer.t) : option Buffer.t :=
  if hasExtensionMarker data then
    match Buffer.readUInt16BE data 2 with
    | Some headerExtensionLength =>
        let offset := skipElements data (Z.to_nat headerExtensionLength) 4 in
        let offset := offset + 1 in
        Some (Buffer.slice data offset None)
    | None => None
    end
  else Some data.

(** [if (table.get(user.id)) table.get(user.id)._push(chunk)]. *)
Definition pushIfOpen (table : JsMap.t UserId StreamRef) (user : UserId)
    (chunk : Buffer.t) : list event :=
  match users_get table user with
  | Some s => [Stream_push s (Some chunk)]
  | None => []
  end.

(** Modelled from the spec: the push-driven stream ([VoiceReadable], which
    is not part of these sources); [new Readable()] is a new reference, and
    what the receiver then does with a stream ([push], [_push], the write of
    [open]) is recorded as events. *)
Definition newReadable (st : state) : StreamRef * state :=
  (nextRef st, with_nextRef (S (nextRef st)) st).

Section WithPrimitives.
Variable prim : Primitives.

(** [OpusEncoders.fetch()]: the codec-engine pool ([OpusEngineList]) is not
    part of these sources; which decoder a call gives out is the pool's
    choice, and nothing says that it is one the receiver does not hold.
    The counter numbers the calls.  What the receiver then does with a
    decoder ([decode], [destroy]) is recorded as events. *)
Definition OpusEncoders_fetch (st : state) : EncoderRef * state :=
  (engine prim (nextRef st), with_nextRef (S (nextRef st)) st).

(** [if (!this.opusEncoders.get(user.id)) this.opusEncoders.set(user.id,
    OpusEncoders.fetch())], with the encoder then read from the table. *)
Definition fetchEncoder (user : UserId) (st : state)
  : EncoderRef * state * list event :=
  match users_get (opusEncoders st) user with
  | Some e => (e, st, [])
  | None =>
      let '(e, st) := OpusEncoders_fetch st in
      (e, with_opusEncoders (users_set (opusEncoders st) user e) st,
       [EncoderFetch e])
  end.

(** The part of [handlePacket] after the header extensions are stripped:
    the raw frame goes to the user's opus stream and to the ['opus']
    listeners, and is decoded when the gate is open. *)
Definition fanOut (data : Buffer.t) (user : UserId) (st : state)
  : completion * state * list event :=
  let ev := pushIfOpen (opusStreams st) user data ++ [Emit (Opus user data)] in
  if (0 <? pcmListenerCount st) || (0 <? JsMap.size (pcmStreams st)) then
    let '(e, st, evf) := fetchEncoder user st in
    match decode prim e data with
    | inr error =>
        (Normal, st,
         ev ++ evf ++ [EncoderDecode e data;
                       Emit (Warn "decode"
                         ("Failed to decode packet voice to PCM because: " ++ error))])
    | inl pcm =>
        (Normal, st,
         ev ++ evf ++ [EncoderDecode e data]
            ++ pushIfOpen (pcmStreams st) user pcm ++ [Emit (Pcm user pcm)])
    end
  else (Normal, st, ev).

Definition handlePacket (conn : VoiceConnection) (msg : Buffer.t)
    (user : UserId) (st : state) : completion * state * list event :=
  let mode := encryptionMode conn in
  let secret_key := secretKey conn in
  match chooseNonce mode (nonce st) msg with
  | None => (Throw "RangeError", st, [])
  | Some (nonce', end_) =>
      let st := with_nonce nonce' st in
      let ciphertext := Buffer.slice msg 12 end_ in
      let opened := SecretboxOpen ciphertext nonce' secret_key in
      match secretbox_open prim ciphertext nonce' secret_key with
      | None =>
          (Normal, st,
           [opened; Emit (Warn "decrypt" "Failed to decrypt voice packet")])
      | Some data =>
          match stripExtensions data with
          | None => (Throw "RangeError", st, [opened])
          | Some data =>
              let '(c, st, ev) := fanOut data user st in
              (c, st, opened :: ev)
          end
      end
  end.

(** *** The datagram listener *)

(** The liveness timer: armed for 3000 ms by the first datagram, refreshed
    by the later ones. *)
Definition touchDisconnectTimer (now : Z) (st : state) : state :=
  match disconnectTimer st with
  | None => with_disconnectTimer (Some (setTimeout now 3000)) st
  | Some t => with_disconnectTimer (Some (refresh now t)) st
  end.

Definition _listener (conn : VoiceConnection) (now : Z) (msg : Buffer.t)
    (st : state) : completion * state * list event :=
  let st := touchDisconnectTimer now st in
  match Buffer.readUInt8 msg 0 with
  | None => (Throw "RangeError", st, [])
  | Some packageType =>
  match Buffer.readUInt32BE msg 8 with
  | None => (Throw "RangeError", st, [])
  | Some ssrc =>
  let userStat := ssrcMap conn ssrc in
  let ev0 :=
    match userStat with
    | None =>
        if packageType =? 144
        then [Console "[discord.js] ssrc not found in a speaking package:"]
        else []
    | Some _ => []
    end in
  match userStat with
  | None => (Normal, st, ev0)
  | Some userID =>
      match ssrc_get (speakingTimeouts st) ssrc with
      | None =>
          if onSpeakingThrows conn userID ssrc true
          then (Throw "onSpeaking", st, ev0 ++ [OnSpeaking userID ssrc true])
          else
            let speakingTimeout :=
              {| timer := setTimeout now 70; user_id := userID |} in
            let st := with_speakingTimeouts
                        (ssrc_set (speakingTimeouts st) ssrc speakingTimeout) st in
            let '(c, st, ev) := handlePacket conn msg userID st in
            (c, st, ev0 ++ OnSpeaking userID ssrc true :: ev)
      | Some speakingTimeout =>
          let speakingTimeout :=
            {| timer := refresh now (timer speakingTimeout);
               user_id := user_id speakingTimeout |} in
          let st := with_speakingTimeouts
                      (ssrc_set (speakingTimeouts st) ssrc speakingTimeout) st in
          let '(c, st, ev) := handlePacket conn msg userID st in
          (c, st, ev0 ++ ev)
      end
  end
  end
  end.

(** *** Timer callbacks *)

(** The callback of the speaking timeout of [ssrc], run by the timer when
    it is due: the timer has then run (it is no longer armed); the stop
    notification is tried, and the entry is deleted unless the
    notification throws. *)
Definition speakingTimeoutFired (conn : VoiceConnection) (ssrc : Z)
    (st : state) : state * list event :=
  match ssrc_get (speakingTimeouts st) ssrc with
  | None => (st, [])
  | Some speakingTimeout =>
      let userID := user_id speakingTimeout in
      let ran := {| timer := clearTimeout (timer speakingTimeout);
                    user_id := userID |} in
      if onSpeakingThrows conn userID ssrc false
      then (with_speakingTimeouts (ssrc_set (speakingTimeouts st) ssrc ran) st,
            [OnSpeaking userID ssrc false;
             Console "Connection already closed, skip onSpeaking event!"])
      else (with_speakingTimeouts (ssrc_delete (speakingTimeouts st) ssrc) st,
            [OnSpeaking userID ssrc false])
  end.

(** The callback of the liveness timer. *)
Definition disconnectTimerFired (st : state) : state * list event :=
  let st' := with_disconnectTimer None st in
  if negb (destroyed st)
  then (st',
        [Console "[discord.js] UDP Voice Socket hasn't received a voice package in 3 seconds, likely disconnected!";
         Emit (Error "reconnect_required")])
  else (st', []).

(** *** [recreate], [destroy], [stoppedSpeaking] *)

Definition recreate (st : state) : state * list event :=
  if negb (destroyed st) then (st, [])
  else (with_destroyed false (with_socketListeners (S (socketListeners st)) st),
        [SocketOn]).

(** [for (const [id, stream] of table) { stream._push(null);
    table.delete(id); }], over the entries still to visit. *)
Fixpoint endStreams (entries table : JsMap.t UserId StreamRef)
  : JsMap.t UserId StreamRef * list event :=
  match entries with
  | [] => (table, [])
  | (id, stream) :: rest =>
      let '(table', ev) := endStreams rest (users_delete table id) in
      (table', Stream_push stream None :: ev)
  end.

(** [for (const [id, encoder] of table) { encoder.destroy();
    table.delete(id); }]. *)
Fixpoint destroyEncoders (entries table : JsMap.t UserId EncoderRef)
  : JsMap.t UserId EncoderRef * list event :=
  match entries with
  | [] => (table, [])
  | (id, encoder) :: rest =>
      let '(table', ev) := destroyEncoders rest (users_delete table id) in
      (table', EncoderDestroy encoder :: ev)
  end.

Definition destroy (st : state) : state * list event :=
  let st := with_socketListeners (Nat.pred (socketListeners st)) st in
  let '(pcm, ev1) := endStreams (pcmStreams st) (pcmStreams st) in
  let st := with_pcmStreams pcm st in
  let '(opus, ev2) := endStreams (opusStreams st) (opusStreams st) in
  let st := with_opusStreams opus st in
  let '(enc, ev3) := destroyEncoders (opusEncoders st) (opusEncoders st) in
  let st := with_opusEncoders enc st in
  (with_destroyed true st, SocketRemoveListener :: ev1 ++ ev2 ++ ev3).

Definition stoppedSpeaking (user : UserId) (st : state) : state * list event :=
  let opusStream := users_get (opusStreams st) user in
  let pcmStream := users_get (pcmStreams st) user in
  let opusEncoder := users_get (opusEncoders st) user in
  let '(st, ev1) :=
    match opusStream with
    | Some s => (with_opusStreams (users_delete (opusStreams st) user) st,
                 [StreamPush s None; StreamSetOpen s false])
    | None => (st, [])
    end in
  let '(st, ev2) :=
    match pcmStream with
    | Some s => (with_pcmStreams (users_delete (pcmStreams st) user) st,
                 [StreamPush s None; StreamSetOpen s false])
    | None => (st, [])
    end in
  let ev3 :=
    match opusEncoder with
    | Some e => [EncoderDestroy e]
    | None => []
    end in
  (st, ev1 ++ ev2 ++ ev3).

(** *** [createOpusStream], [createPCMStream] *)

Definition createOpusStream (user : string) (st : state)
  : (string + StreamRef) * state :=
  match resolveUser prim user with
  | None => (inl "Couldn't resolve the user to create Opus stream."%string, st)
  | Some id =>
      match users_get (opusStreams st) id with
      | Some _ => (inl "There is already an existing stream for that user."%string, st)
      | None =>
          let '(stream, st) := newReadable st in
          (inr stream, with_opusStreams (users_set (opusStreams st) id stream) st)
      end
  end.

Definition createPCMStream (user : string) (st : state)
  : (string + StreamRef) * state :=
  match resolveUser prim user with
  | None => (inl "Couldn't resolve the user to create PCM stream."%string, st)
  | Some id =>
      match users_get (pcmStreams st) id with
      | Some _ => (inl "There is already an existing stream for that user."%string, st)
      | None =>
          let '(stream, st) := newReadable st in
          (inr stream, with_pcmStreams (users_set (pcmStreams st) id stream) st)
      end
  end.

(** *** Running the receiver against the clock *)

(** The callback of [ssrc]'s speaking timeout runs when the timeout is
    armed and its deadline is reached. *)
Definition fireIfDue (conn : VoiceConnection) (now : Z) (st : state) (ssrc : Z)
  : state * list event :=
  match ssrc_get (speakingTimeouts st) ssrc with
  | Some speakingTimeout =>
      if due now (timer speakingTimeout)
      then speakingTimeoutFired conn ssrc st
      else (st, [])
  | None => (st, [])
  end.

(** The timers of the receiver: the speaking timeouts, by source, and the
    liveness timer. *)
Inductive TimerId :=
| SpeakingTimer (ssrc : Z)
| DisconnectTimer.

Definition timerIds (st : state) : list TimerId :=
  map SpeakingTimer (JsMap.keys (speakingTimeouts st))
  ++ match disconnectTimer st with
     | Some _ => [DisconnectTimer]
     | None => []
     end.

Definition deadlineOf (st : state) (id : TimerId) : Z :=
  match id with
  | SpeakingTimer ssrc =>
      match ssrc_get (speakingTimeouts st) ssrc with
      | Some speakingTimeout => deadline (timer speakingTimeout)
      | None => 0
      end
  | DisconnectTimer =>
      match disconnectTimer st with
      | Some t => deadline t
      | None => 0
      end
  end.

(** The timers in the order of their deadlines; timers of one deadline stay
    in the order they are given in. *)
Fixpoint insertByDeadline (st : state) (id : TimerId) (ids : list TimerId)
  : list TimerId :=
  match ids with
  | [] => [id]
  | other :: rest =>
      if deadlineOf st id <=? deadlineOf st other then id :: ids
      else other :: insertByDeadline st id rest
  end.

Definition byDeadline (st : state) (ids : list TimerId) : list TimerId :=
  fold_right (insertByDeadline st) [] ids.

(** The callback of a timer runs when the timer is armed and its deadline
    is reached. *)
Definition fireTimer (conn : VoiceConnection) (now : Z) (st : state)
    (id : TimerId) : state * list event :=
  match id with
  | SpeakingTimer ssrc => fireIfDue conn now st ssrc
  | DisconnectTimer =>
      match disconnectTimer st with
      | Some t => if due now t then disconnectTimerFired st else (st, [])
      | None => (st, [])
      end
  end.

Fixpoint fireTimers (conn : VoiceConnection) (now : Z) (ids : list TimerId)
    (st : state) : state * list event :=
  match ids with
  | [] => (st, [])
  | id :: rest =>
      let '(st, ev) := fireTimer conn now st id in
      let '(st, ev') := fireTimers conn now rest st in
      (st, ev ++ ev')
  end.

(** The timers that are due at [now] run before anything that happens at
    [now], in the order of their deadlines: Node runs the timer that was
    due first before the one that was due later. *)
Definition advance (conn : VoiceConnection) (now : Z) (st : state)
  : state * list event :=
  fireTimers conn now (byDeadline st (timerIds st)) st.

(** The UDP socket emits ['message']: every registration of [_listener]
    runs, until one throws. *)
Fixpoint emitMessage (registrations : nat) (conn : VoiceConnection) (now : Z)
    (msg : Buffer.t) (st : state) : completion * state * list event :=
  match registrations with
  | O => (Normal, st, [])
  | S n =>
      match _listener conn now msg st with
      | (Normal, st, ev) =>
          let '(c, st, ev') := emitMessage n conn now msg st in
          (c, st, ev ++ ev')
      | thrown => thrown
      end
  end.

(** Datagrams arriving at the given times, each after the timers due by
    then; an exception that leaves a listener is the host's to handle and
    does not stop the later datagrams. *)
Fixpoint run (conn : VoiceConnection) (datagrams : list (Z * Buffer.t))
    (st : state) : state * list event :=
  match datagrams with
  | [] => (st, [])
  | (now, msg) :: rest =>
      let '(st, ev1) := advance conn now st in
      let '(_, st, ev2) := emitMessage (socketListeners st) conn now msg st in
      let '(st, ev3) := run conn rest st in
      (st, ev1 ++ ev2 ++ ev3)
  end.

End WithPrimitives.

(** *** Reading a list of events *)

(** The speaking notifications sent for [ssrc], in order, each with the
    identity it names: [true] is a start, [false] a stop. *)
Fixpoint notifications (ssrc : Z) (evs : list event) : list (UserId * bool) :=
  match evs with
  | [] => []
  | OnSpeaking user_id s speaking :: rest =>
      if s =? ssrc then (user_id, speaking) :: notifications ssrc rest
      else notifications ssrc rest
  | _ :: rest => notifications ssrc rest
  end.

(** The decoders fetched from the codec engine. *)
Fixpoint fetched (evs : list event) : list EncoderRef :=
  match evs with
  | [] => []
  | EncoderFetch e :: rest => e :: fetched rest
  | _ :: rest => fetched rest
  end.

(** The decoders asked to decode. *)
Fixpoint decoded (evs : list event) : list (EncoderRef * Buffer.t) :=
  match evs with
  | [] => []
  | EncoderDecode e frame :: rest => (e, frame) :: decoded rest
  | _ :: rest => decoded rest
  end.

(** How often end-of-stream was pushed on stream [s], with [_push(null)] or
    with [push(null)]. *)
Fixpoint endsPushed (s : StreamRef) (evs : list event) : nat :=
  match evs with
  | [] => O
  | Stream_push s' None :: rest
  | StreamPush s' None :: rest =>
      if Nat.eqb s' s then S (endsPushed s rest) else endsPushed s rest
  | _ :: rest => endsPushed s rest
  end.

(** How often decoder [e] was destroyed. *)
Fixpoint timesDestroyed (e : EncoderRef) (evs : list event) : nat :=
  match evs with
  | [] => O
  | EncoderDestroy e' :: rest =>
      if Nat.eqb e' e then S (timesDestroyed e rest) else timesDestroyed e rest
  | _ :: rest => timesDestroyed e rest
  end.

End VoiceReceiver.

(** ** The control channel *)

Module VoiceWebSocket.

Definition WsRef := nat.

(** [WebSocket.CONNECTING], [OPEN], [CLOSING], [CLOSED]. *)
Inductive readyState := CONNECTING | OPEN | CLOSING | CLOSED.

Definition readyState_eqb (a b : readyState) : bool :=
  match a, b with
  | CONNECTING, CONNECTING | OPEN, OPEN | CLOSING, CLOSING | CLOSED, CLOSED => true
  | _, _ => false
  end.

(** [Constants.VoiceOPCodes]: the table is not part of these sources, so the
    codes are taken as given. *)
Record VoiceOPCodes := {
  IDENTIFY : Z;
  HEARTBEAT : Z;
  INFO : Z;
  READY : Z;
  SESSION_DESCRIPTION : Z;
  SPEAKING : Z;
  PONG : Z
}.

(** The [d] of a control packet, with the properties this class reads or
    writes; an absent property is [None]. *)
Record payloadObject := {
  heartbeat_interval : option Z;
  v : option Z;
  mode : option string;
  secret_key : option Buffer.t;
  server_id : option string;
  user_id : option string;
  token : option string;
  session_id : option string
}.

Inductive payload :=
| Undefined
| Number (n : Z)
| Object (o : payloadObject).

Record Packet := {
  op : Z;
  d : payload
}.

(** [JSON.stringify] and [JSON.parse] on packets: the text, or the message
    of the error thrown. *)
Record Json := {
  JSON_stringify : Packet -> string + string;
  JSON_parse : string -> Packet + string
}.

(** What [this.voiceConnection] and [this.client] provide for the identify
    packet and the endpoint. *)
Record VoiceConnection := {
  endpoint : string;
  guild_id : string;
  client_user_id : string;
  authentication_token : string;
  sessionID : string
}.

Inductive emitted :=
| Debug (message : string) (attempts : Z)
| Error (message : string)
| Warn (message : string)
| Ready (d : payload)
| SessionDescription (mode : option string) (secret_key : option Buffer.t)
| StartSpeaking (d : payload)
| UnknownPacket (packet : Packet).

Inductive event :=
| WsNew (w : WsRef) (endpoint : string) (version : Z)
| WsClose (w : WsRef)
| WsSend (w : WsRef) (data : string)
| Emit (what : emitted)
| SetInterval (ms : Z)
| ClearInterval
| ConsoleError (message : string)
| ConsoleLog (message : string).

(** The promise [send] returns: rejected at once, or pending on the callback
    of [ws.send], which rejects it with the error it is given and resolves
    it with the data otherwise. *)
Inductive promise :=
| Rejected (error : string)
| Pending (w : WsRef) (data : string).

Inductive completion :=
| Normal
| Throw (error : string).

(** The state machine, and the sockets it has created with their ready
    states, by reference. *)
Record state := {
  attempts : Z;
  apiVersion : Z;
  lastPongPacket : payload;
  dead : bool;
  ws : option WsRef;
  heartbeatInterval : option Z;
  sockets : list readyState
}.

Definition with_attempts (n : Z) (st : state) : state :=
  {| attempts := n; apiVersion := apiVersion st;
     lastPongPacket := lastPongPacket st; dead := dead st; ws := ws st;
     heartbeatInterval := heartbeatInterval st; sockets := sockets st |}.

Definition with_lastPongPacket (p : payload) (st : state) : state :=
  {| attempts := attempts st; apiVersion := apiVersion st;
     lastPongPacket := p; dead := dead st; ws := ws st;
     heartbeatInterval := heartbeatInterval st; sockets := sockets st |}.

Definition with_dead (b : bool) (st : state) : state :=
  {| attempts := attempts st; apiVersion := apiVersion st;
     lastPongPacket := lastPongPacket st; dead := b; ws := ws st;
     heartbeatInterval := heartbeatInterval st; sockets := sockets st |}.

Definition with_ws (w : option WsRef) (st : state) : state :=
  {| attempts := attempts st; apiVersion := apiVersion st;
     lastPongPacket := lastPongPacket st; dead := dead st; ws := w;
     heartbeatInterval := heartbeatInterval st; sockets := sockets st |}.

Definition with_heartbeatInterval (h : option Z) (st : state) : state :=
  {| attempts := attempts st; apiVersion := apiVersion st;
     lastPongPacket := lastPongPacket st; dead := dead st; ws := ws st;
     heartbeatInterval := h; sockets := sockets st |}.

Definition with_sockets (s : list readyState) (st : state) : state :=
  {| attempts := attempts st; apiVersion := apiVersion st;
     lastPongPacket := lastPongPacket st; dead := dead st; ws := ws st;
     heartbeatInterval := heartbeatInterval st; sockets := s |}.

(** [w.readyState]; a reference that was never created has none. *)
Definition readyStateOf (st : state) (w : WsRef) : option readyState :=
  nth_error (sockets st) w.

Fixpoint setNth {A} (l : list A) (n : nat) (a : A) : list A :=
  match l, n with
  | [], _ => []
  | _ :: r, O => a :: r
  | x :: r, S n' => x :: setNth r n' a
  end.

Definition setReadyState (w : WsRef) (r : readyState) (st : state) : state :=
  with_sockets (setNth (sockets st) w r) st.

(** The fields as the constructor sets them before it calls [connect]. *)
Definition fresh : state :=
  {| attempts := 0; apiVersion := 4; lastPongPacket := Number 0;
     dead := false; ws := None; heartbeatInterval := None; sockets := [] |}.

(** The transport is open: a socket is held and its ready state is
    [OPEN]. *)
Definition transportOpen (st : state) : bool :=
  match ws st with
  | Some w =>
      match readyStateOf st w with
      | Some OPEN => true
      | _ => false
      end
  | None => false
  end.

Section WithCollaborators.
Variable OP : VoiceOPCodes.
Variable json : Json.
Variable conn : VoiceConnection.

Definition clearHeartbeat (st : state) : state * list event :=
  match heartbeatInterval st with
  | None =>
      (st, [Emit (Warn "Tried to clear a heartbeat interval that does not exist")])
  | Some _ => (with_heartbeatInterval None st, [ClearInterval])
  end.

(** [ws.close()]: the socket starts closing, unless it is closing or
    closed already. *)
Definition close (w : WsRef) (st : state) : state :=
  match readyStateOf st w with
  | Some CONNECTING | Some OPEN => setReadyState w CLOSING st
  | _ => st
  end.

Definition reset (st : state) : state * list event :=
  let '(st, ev) :=
    match ws st with
    | Some w =>
        let '(st, ev) :=
          match readyStateOf st w with
          | Some CLOSED => (st, [])
          | _ => (close w st, [WsClose w])
          end in
        (with_ws None st, ev)
    | None => (st, [])
    end in
  let '(st, ev') := clearHeartbeat st in
  (st, ev ++ ev').

Definition shutdown (st : state) : state * list event :=
  reset (with_dead true st).

Definition connect (st : state) : state * list event :=
  if dead st then (st, [])
  else
    let '(st, ev) :=
      match ws st with
      | Some _ => reset st
      | None => (st, [])
      end in
    if 5 <=? attempts st
    then (st, ev ++ [Emit (Debug "Too many connection attempts" (attempts st))])
    else
      let st := with_attempts (attempts st + 1) st in
      let w := List.length (sockets st) in
      (with_ws (Some w) (with_sockets (sockets st ++ [CONNECTING]) st),
       ev ++ [WsNew w (endpoint conn) (apiVersion st)]).

Definition send (data : string) (st : state) : promise * list event :=
  match ws st with
  | None => (Rejected ("Voice websocket not open to send " ++ data ++ "."), [])
  | Some w =>
      match readyStateOf st w with
      | Some OPEN => (Pending w data, [WsSend w data])
      | _ => (Rejected ("Voice websocket not open to send " ++ data ++ "."), [])
      end
  end.

Definition sendPacket (packet : Packet) (st : state) : promise * list event :=
  match JSON_stringify json packet with
  | inr error => (Rejected error, [])
  | inl text => send text st
  end.

Definition identifyPacket : Packet :=
  {| op := IDENTIFY OP;
     d := Object {| heartbeat_interval := None; v := None; mode := None;
                    secret_key := None;
                    server_id := Some (guild_id conn);
                    user_id := Some (client_user_id conn);
                    token := Some (authentication_token conn);
                    session_id := Some (sessionID conn) |} |}.

(** The handler [onOpen] attaches to the promise of the identify packet. *)
Definition identifyRejected : list event :=
  [Emit (Error "Tried to send join packet, but the WebSocket is not open.")].

Definition onOpen (st : state) : state * list event :=
  match sendPacket identifyPacket st with
  | (Rejected _, ev) => (st, ev ++ identifyRejected)
  | (Pending _ _, ev) => (st, ev)
  end.

Definition onClose (st : state) : state * list event :=
  let '(st, ev) := reset st in
  if negb (dead st)
  then (st, ev ++ [ConsoleError "[discord.js] TCP Voice Socket got closed, need a re-connect!";
                   Emit (Error "reconnect_required")])
  else (st, ev).

Definition onError (message : string) (st : state) : state * list event :=
  let ev0 := [ConsoleError "[discord.js] TCP Voice Socket error:"] in
  if negb (dead st) then
    if String.eqb message "uWs client connection error" then
      let '(st, ev) := reset st in
      (st, ev0 ++ ev ++ [Emit (Error "reconnect_required")])
    else (st, ev0 ++ [Emit (Error message)])
  else (st, ev0).

(** [!interval || isNaN(interval)], for an interval that is a number or
    absent. *)
Definition invalidInterval (interval : option Z) : bool :=
  match interval with
  | Some n => n =? 0
  | None => true
  end.

Definition setHeartbeat (interval : option Z) (st : state) : state * list event :=
  match interval with
  | Some ms =>
      if invalidInterval interval
      then onError "Tried to set voice heartbeat but no valid interval was specified." st
      else
        let ev :=
          match heartbeatInterval st with
          | Some _ => [Emit (Warn "A voice heartbeat interval is being overwritten");
                       ClearInterval]
          | None => []
          end in
        (with_heartbeatInterval (Some ms) st, ev ++ [SetInterval ms])
  | None =>
      onError "Tried to set voice heartbeat but no valid interval was specified." st
  end.

(** Modelled from the spec: the [SecretKey] wrapper of the session key is
    not part of these sources; the key of the payload is surfaced as it
    is. *)
Definition newSecretKey (key : option Buffer.t) : option Buffer.t := key.

Definition onPacket (packet : Packet) (st : state)
  : completion * state * list event :=
  if op packet =? INFO OP then
    match d packet with
    | Undefined => (Throw "TypeError", st, [])
    | Number _ =>
        let '(st, ev) := setHeartbeat None st in
        (Normal, st,
         ev ++ [ConsoleError "[discord.js] Voice API version wasn't correct."])
    | Object o =>
        let '(st, ev) := setHeartbeat (heartbeat_interval o) st in
        (Normal, st,
         ev ++ match v o with
               | Some n =>
                   if n =? apiVersion st then []
                   else [ConsoleError "[discord.js] Voice API version wasn't correct."]
               | None => [ConsoleError "[discord.js] Voice API version wasn't correct."]
               end)
    end
  else if op packet =? READY OP then
    (Normal, st, [Emit (Ready (d packet))])
  else if op packet =? SESSION_DESCRIPTION OP then
    match d packet with
    | Undefined => (Throw "TypeError", st, [])
    | Number _ => (Normal, st, [Emit (SessionDescription None (newSecretKey None))])
    | Object o =>
        (Normal, st, [Emit (SessionDescription (mode o) (newSecretKey (secret_key o)))])
    end
  else if op packet =? SPEAKING OP then
    (Normal, st, [ConsoleLog "Speaking association packet received:";
                  Emit (StartSpeaking (d packet))])
  else if op packet =? PONG OP then
    (Normal, with_lastPongPacket (d packet) st, [])
  else (Normal, st, [Emit (UnknownPacket packet)]).

Definition onMessage (data : string) (st : state) : state * list event :=
  match JSON_parse json data with
  | inr error => onError error st
  | inl packet =>
      match onPacket packet st with
      | (Normal, st, ev) => (st, ev)
      | (Throw error, st, ev) =>
          let '(st, ev') := onError error st in
          (st, ev ++ ev')
      end
  end.

(** The handler [sendHeartbeat] attaches to the promise of the heartbeat
    packet. *)
Definition heartbeatRejected (st : state) : state * list event :=
  let ev := if negb (dead st)
            then [ConsoleError "[discord.js] Heartbeat couldn't be delivered, maybe need a re-connect!?"]
            else [] in
  let '(st, ev') := clearHeartbeat st in
  (st, ev ++ Emit (Warn "Tried to send heartbeat, but connection is not open") :: ev').

Definition sendHeartbeat (now : Z) (st : state) : state * list event :=
  match sendPacket {| op := HEARTBEAT OP; d := Number now |} st with
  | (Rejected _, ev) =>
      let '(st, ev') := heartbeatRejected st in
      (st, ev ++ ev')
  | (Pending _ _, ev) => (st, ev)
  end.

(** *** The machine and its surroundings *)

(** What can happen to the machine: its owner calls [connect] or
    [shutdown]; a socket it created reports that it opened, a message, its
    closure or an error, or starts closing on its own (its peer closes, or
    the connection fails) before anything is reported; the heartbeat
    interval elapses; the callback of a pending [ws.send] reports an
    error. *)
Inductive input :=
| Connect
| Shutdown
| Opened (w : WsRef)
| Message (w : WsRef) (data : string)
| Closing (w : WsRef)
| Closed (w : WsRef)
| Errored (w : WsRef) (message : string)
| HeartbeatElapsed (now : Z)
| IdentifySendFailed
| HeartbeatSendFailed.

(** One step; [None] when the input cannot happen in the state.  The
    handlers are bound to every socket the machine creates and stay bound
    when the machine lets go of it, and none of them looks at the ready
    state or at which socket calls: a socket opens once, from
    [CONNECTING]; it delivers messages from then until its closure is
    reported, also while it is closing and also when the machine no longer
    holds it or is dead; it reports its closure once, its ready state being
    [CLOSED] from then on; the interval elapses only while the timer
    exists. *)
Definition step (st : state) (i : input) : option (state * list event) :=
  match i with
  | Connect => Some (connect st)
  | Shutdown => Some (shutdown st)
  | Opened w =>
      match readyStateOf st w with
      | Some CONNECTING => Some (onOpen (setReadyState w OPEN st))
      | _ => None
      end
  | Message w data =>
      match readyStateOf st w with
      | Some OPEN | Some CLOSING => Some (onMessage data st)
      | _ => None
      end
  | Closing w =>
      match readyStateOf st w with
      | Some CONNECTING | Some OPEN => Some (setReadyState w CLOSING st, [])
      | _ => None
      end
  | Closed w =>
      match readyStateOf st w with
      | Some CLOSED | None => None
      | Some _ => Some (onClose (setReadyState w CLOSED st))
      end
  | Errored w message =>
      match readyStateOf st w with
      | Some _ => Some (onError message st)
      | None => None
      end
  | HeartbeatElapsed now =>
      match heartbeatInterval st with
      | Some _ => Some (sendHeartbeat now st)
      | None => None
      end
  | IdentifySendFailed => Some (st, identifyRejected)
  | HeartbeatSendFailed => Some (heartbeatRejected st)
  end.

(** The states the machine can be in, from the start of its
    construction. *)
Inductive reachable : state -> Prop :=
| reachable_fresh : reachable fresh
| reachable_step st i st' ev :
    reachable st -> step st i = Some (st', ev) -> reachable st'.

(** [n] calls of [connect] in a row: the state after each call and what
    the call did. *)
Fixpoint connects (n : nat) (st : state) : list (state * list event) :=
  match n with
  | O => []
  | S n' =>
      let call := connect st in
      call :: connects n' (fst call)
  end.

End WithCollaborators.

(** The transports opened and the permanent-failure diagnostics emitted. *)
Fixpoint opened (evs : list event) : list WsRef :=
  match evs with
  | [] => []
  | WsNew w _ _ :: rest => w :: opened rest
  | _ :: rest => opened rest
  end.

Fixpoint closedByUs (evs : list event) : list WsRef :=
  match evs with
  | [] => []
  | WsClose w :: rest => w :: closedByUs rest
  | _ :: rest => closedByUs rest
  end.

Fixpoint diagnostics (evs : list event) : list Z :=
  match evs with
  | [] => []
  | Emit (Debug _ n) :: rest => n :: diagnostics rest
  | _ :: rest => diagnostics rest
  end.

Fixpoint sent (evs : list event) : list (WsRef * string) :=
  match evs with
  | [] => []
  | WsSend w data :: rest => (w, data) :: sent rest
  | _ :: rest => sent rest
  end.

End VoiceWebSocket.

(** * Descriptions to compare the code with *)

(** ** Header extensions, on the list of bytes

    The bytes that follow the four-byte extension header, read element by
    element: a zero byte is padding and is dropped alone; any other leading
    byte is dropped together with [1 + (byte / 16)] further bytes, [byte / 16]
    being its high four bits. *)
Fixpoint dropElements (count : nat) (bytes : list Z) : list Z :=
  match count with
  | O => bytes
  | S count' =>
      match bytes with
      | [] => []
      | byte :: rest =>
          if byte =? 0 then dropElements count' rest
          else dropElements count' (skipn (Z.to_nat (1 + byte / 16)) rest)
      end
  end.

(** The frame left after [count] elements and one more byte. *)
Definition frameAfterExtensions (count : Z) (bytes : list Z) : list Z :=
  skipn 1 (dropElements (Z.to_nat count) bytes).

(** The rule as the specification words it: a padding byte advances the
    cursor by one, any other leading byte by [1 + low nibble], counted either
    from the leading byte ([lead = 0]) or after it ([lead = 1]). *)
Fixpoint specifiedCursor (lead : Z) (data : Buffer.t) (count : nat) (offset : Z) : Z :=
  match count with
  | O => offset
  | S count' =>
      match Buffer.index data offset with
      | Some byte =>
          if byte =? 0 then specifiedCursor lead data count' (offset + 1)
          else specifiedCursor lead data count' (offset + lead + (1 + Z.land byte 15))
      | None => specifiedCursor lead data count' (offset + lead + 1)
      end
  end.

Definition specifiedFrame (lead : Z) (data : Buffer.t) : option Buffer.t :=
  match Buffer.readUInt16BE data 2 with
  | Some count =>
      Some (Buffer.slice data (specifiedCursor lead data (Z.to_nat count) 4 + 1) None)
  | None => None
  end.

(** ** The nonce and the ciphertext of a datagram, by mode

    The last [n] bytes of a datagram, and the rule of the three modes: the
    last four bytes followed by zeros up to 24 bytes, the last 24 bytes, or
    the twelve header bytes followed by zeros up to 24 bytes; the ciphertext
    runs from byte 12 to where the trailing nonce bytes begin. *)
Definition lastBytes (n : Z) (msg : Buffer.t) : Buffer.t :=
  skipn (Z.to_nat (Buffer.length msg - n)) msg.

Definition bytesBetween (from to : Z) (msg : Buffer.t) : Buffer.t :=
  firstn (Z.to_nat (to - from)) (skipn (Z.to_nat from) msg).

Definition specifiedNonce (mode : string) (msg : Buffer.t) : Buffer.t :=
  if String.eqb mode "xsalsa20_poly1305_lite"
  then lastBytes 4 msg ++ repeat 0 20
  else if String.eqb mode "xsalsa20_poly1305_suffix"
  then lastBytes 24 msg
  else firstn 12 msg ++ repeat 0 12.

Definition specifiedCiphertext (mode : string) (msg : Buffer.t) : Buffer.t :=
  if String.eqb mode "xsalsa20_poly1305_lite"
  then bytesBetween 12 (Buffer.length msg - 4) msg
  else if String.eqb mode "xsalsa20_poly1305_suffix"
  then bytesBetween 12 (Buffer.length msg - 24) msg
  else skipn 12 msg.

(** The shortest datagram each mode can take its nonce from. *)
Definition shortestDatagram (mode : string) : Z :=
  if String.eqb mode "xsalsa20_poly1305_lite" then 12
  else if String.eqb mode "xsalsa20_poly1305_suffix" then 24
  else 12.

(** ** Inputs used in examples *)

Definition sessionIn (mode : string) : VoiceReceiver.VoiceConnection :=
  {| VoiceReceiver.encryptionMode := mode;
     VoiceReceiver.secretKey := [7];
     VoiceReceiver.ssrcMap := fun ssrc => if ssrc =? 5 then Some "alice"%string else None;
     VoiceReceiver.onSpeakingThrows := fun _ _ _ => false |}.

(** A session like [sessionIn], of the default mode, whose connection
    throws at every start notification and accepts the stops. *)
Definition sessionThatRejectsStarts : VoiceReceiver.VoiceConnection :=
  {| VoiceReceiver.encryptionMode := "xsalsa20_poly1305";
     VoiceReceiver.secretKey := [7];
     VoiceReceiver.ssrcMap := fun ssrc => if ssrc =? 5 then Some "alice"%string else None;
     VoiceReceiver.onSpeakingThrows := fun _ _ speaking => speaking |}.

(** Primitives that decrypt to the ciphertext itself, decode to the frame
    itself and resolve every name to itself, with a pool that gives out a
    decoder of its own at every call. *)
Definition plainPrimitives : VoiceReceiver.Primitives :=
  {| VoiceReceiver.secretbox_open := fun ciphertext _ _ => Some ciphertext;
     VoiceReceiver.decode := fun _ frame => inl frame;
     VoiceReceiver.resolveUser := fun name => Some name;
     VoiceReceiver.engine := fun call => call |}.

Definition receiver0 : VoiceReceiver.state :=
  fst (VoiceReceiver.constructor VoiceReceiver.moduleNonce).

(** ** What [handlePacket] leaves alone

    Of the receiver, [handlePacket] writes the shared nonce, the decoder
    table and the allocation counter only. *)
Definition keepsStreamsAndTimers (st st' : VoiceReceiver.state) : Prop :=
  VoiceReceiver.queues st' = VoiceReceiver.queues st
  /\ VoiceReceiver.pcmStreams st' = VoiceReceiver.pcmStreams st
  /\ VoiceReceiver.opusStreams st' = VoiceReceiver.opusStreams st
  /\ VoiceReceiver.speakingTimeouts st' = VoiceReceiver.speakingTimeouts st
  /\ VoiceReceiver.destroyed st' = VoiceReceiver.destroyed st
  /\ VoiceReceiver.disconnectTimer st' = VoiceReceiver.disconnectTimer st
  /\ VoiceReceiver.pcmListenerCount st' = VoiceReceiver.pcmListenerCount st
  /\ VoiceReceiver.socketListeners st' = VoiceReceiver.socketListeners st.

(** ** Reading the decode stage in a list of events *)

(** What follows the call of the decoder. *)
Fixpoint afterDecode (evs : list VoiceReceiver.event) : list VoiceReceiver.event :=
  match evs with
  | [] => []
  | VoiceReceiver.EncoderDecode _ _ :: rest => rest
  | _ :: rest => afterDecode rest
  end.

(** The gate of the decode stage, as the code has it: a ['pcm'] listener on
    the receiver, or an entry in the table of decoded-audio streams. *)
Definition decodeWanted (st : VoiceReceiver.state) : Prop :=
  0 < VoiceReceiver.pcmListenerCount st \/ VoiceReceiver.pcmStreams st <> [].

(** A receiver on which only [bob] has a decoded-audio stream, and nobody
    listens for ['pcm']. *)
Definition receiverWithBobsStream : VoiceReceiver.state :=
  VoiceReceiver.with_nextRef 1
    (VoiceReceiver.with_pcmStreams [("bob"%string, 0%nat)] receiver0).

(** A datagram of source 5: twelve header bytes and three payload bytes. *)
Definition datagram5 : Buffer.t :=
  [144; 0; 0; 0; 0; 0; 0; 0; 0; 0; 0; 5; 1; 2; 3].

(** ** Streams, one per identity

    At most one stream per identity in a table: no identity is a key
    twice. *)
Definition onePerIdentity {V} (table : JsMap.t VoiceReceiver.UserId V) : Prop :=
  NoDup (JsMap.keys table).

(** ** Timers still armed

    The timers of the receiver that are armed: the speaking timeouts of the
    table and the liveness timer. *)
Definition armedTimers (st : VoiceReceiver.state) : list VoiceReceiver.Timeout :=
  filter VoiceReceiver.active
    (map (fun entry => VoiceReceiver.timer (snd entry))
         (VoiceReceiver.speakingTimeouts st))
  ++ match VoiceReceiver.disconnectTimer st with
     | Some t => if VoiceReceiver.active t then [t] else []
     | None => []
     end.

(** The streams and the decoders of a table. *)
Definition registered {V} (table : JsMap.t VoiceReceiver.UserId V) : list V :=
  map snd table.

(** The receiver after one datagram of source 5 at time 0. *)
Definition receiverAfterDatagram : VoiceReceiver.state :=
  fst (VoiceReceiver.run plainPrimitives (sessionIn "xsalsa20_poly1305")
         [(0, datagram5)] receiver0).

(** ** Speaking notifications, by the arrival times

    The notifications for a source whose datagrams arrive at the given
    times: a start at the first datagram; then, at each datagram that comes
    70 ms or more after the one before, a stop and a start; nothing at a
    datagram that comes sooner.  [resumed] tells whether the start follows
    the stop: it does when the stop notification was accepted. *)
Fixpoint afterGaps (resumed : bool) (previous : Z) (times : list Z) : list bool :=
  match times with
  | [] => []
  | t :: rest =>
      (if 70 <=? t - previous
       then false :: (if resumed then [true] else [])
       else [])
      ++ afterGaps resumed t rest
  end.

Definition speakingSpec (times : list Z) : list bool :=
  match times with
  | [] => []
  | t :: rest => true :: afterGaps true t rest
  end.

(** Times that do not go back, and times less than 70 ms apart. *)
Fixpoint inOrder (previous : Z) (times : list Z) : Prop :=
  match times with
  | [] => True
  | t :: rest => previous <= t /\ inOrder t rest
  end.

Fixpoint closerThan70 (previous : Z) (times : list Z) : Prop :=
  match times with
  | [] => True
  | t :: rest => t - previous < 70 /\ closerThan70 t rest
  end.

(** The entry of the speaking-timeout table after a datagram of [user] at
    [time]. *)
Definition speakingSince (time : Z) (user : VoiceReceiver.UserId)
  : VoiceReceiver.SpeakingTimeout :=
  {| VoiceReceiver.timer :=
       {| VoiceReceiver.delay := 70; VoiceReceiver.deadline := time + 70;
          VoiceReceiver.active := true |};
     VoiceReceiver.user_id := user |}.

(** The source's speaking timeout does not run at [now]: there is none, or
    it is not due. *)
Definition notDue (now : Z) (st : VoiceReceiver.state) (ssrc : Z) : Prop :=
  match VoiceReceiver.ssrc_get (VoiceReceiver.speakingTimeouts st) ssrc with
  | Some entry => VoiceReceiver.due now (VoiceReceiver.timer entry) = false
  | None => True
  end.

(** The number of datagrams that come 70 ms or more after the one
    before. *)
Fixpoint longGaps (previous : Z) (times : list Z) : nat :=
  match times with
  | [] => O
  | t :: rest =>
      if 70 <=? t - previous then S (longGaps t rest) else longGaps t rest
  end.

(** Two datagrams of source 5, 20 ms apart, and a third 100 ms later. *)
Definition threeDatagrams : list (Z * Buffer.t) :=
  [(0, datagram5); (20, datagram5); (120, datagram5)].

(** ** Inputs used in examples of the control channel *)

Definition opCodes : VoiceWebSocket.VoiceOPCodes :=
  {| VoiceWebSocket.IDENTIFY := 0; VoiceWebSocket.HEARTBEAT := 3;
     VoiceWebSocket.INFO := 8; VoiceWebSocket.READY := 2;
     VoiceWebSocket.SESSION_DESCRIPTION := 4; VoiceWebSocket.SPEAKING := 5;
     VoiceWebSocket.PONG := 6 |}.

(** A serializer that fails on packets of operation 99, and a parser that
    reads every text as an info packet with a heartbeat interval. *)
Definition exampleJson : VoiceWebSocket.Json :=
  {| VoiceWebSocket.JSON_stringify :=
       fun packet =>
         if VoiceWebSocket.op packet =? 99
         then inr "Converting circular structure to JSON"%string
         else inl "{}"%string;
     VoiceWebSocket.JSON_parse :=
       fun _ =>
         inl {| VoiceWebSocket.op := 8;
                VoiceWebSocket.d :=
                  VoiceWebSocket.Object
                    {| VoiceWebSocket.heartbeat_interval := Some 41250;
                       VoiceWebSocket.v := Some 4;
                       VoiceWebSocket.mode := None;
                       VoiceWebSocket.secret_key := None;
                       VoiceWebSocket.server_id := None;
                       VoiceWebSocket.user_id := None;
                       VoiceWebSocket.token := None;
                       VoiceWebSocket.session_id := None |} |} |}.

Definition exampleSession : VoiceWebSocket.VoiceConnection :=
  {| VoiceWebSocket.endpoint := "voice.example";
     VoiceWebSocket.guild_id := "1";
     VoiceWebSocket.client_user_id := "2";
     VoiceWebSocket.authentication_token := "t";
     VoiceWebSocket.sessionID := "s" |}.

(** The socket a teardown closes: the one held, unless it is closed
    already. *)
Definition tornDown (st : VoiceWebSocket.state) : list VoiceWebSocket.WsRef :=
  match VoiceWebSocket.ws st with
  | Some w =>
      match VoiceWebSocket.readyStateOf st w with
      | Some VoiceWebSocket.CLOSED => []
      | _ => [w]
      end
  | None => []
  end.

(** ** The heartbeat timer and the transport

    A socket is live while it is connecting or open.  The machine is
    consistent when every live socket is the one it holds, a dead machine
    holds no socket, and a heartbeat timer exists only while the transport
    is open. *)
Definition live (st : VoiceWebSocket.state) (w : VoiceWebSocket.WsRef) : Prop :=
  VoiceWebSocket.readyStateOf st w = Some VoiceWebSocket.CONNECTING
  \/ VoiceWebSocket.readyStateOf st w = Some VoiceWebSocket.OPEN.

Definition consistent (st : VoiceWebSocket.state) : Prop :=
  (forall w, live st w -> VoiceWebSocket.ws st = Some w)
  /\ (VoiceWebSocket.dead st = true -> VoiceWebSocket.ws st = None)
  /\ (VoiceWebSocket.heartbeatInterval st <> None ->
      VoiceWebSocket.transportOpen st = true).

(** The part of it that does not speak of the heartbeat timer. *)
Definition tidy (st : VoiceWebSocket.state) : Prop :=
  (forall w, live st w -> VoiceWebSocket.ws st = Some w)
  /\ (VoiceWebSocket.dead st = true -> VoiceWebSocket.ws st = None).

(** Nothing is held and nothing is live. *)
Definition quiet (st : VoiceWebSocket.state) : Prop :=
  VoiceWebSocket.ws st = None
  /\ VoiceWebSocket.heartbeatInterval st = None
  /\ forall w, ~ live st w.

(** The machine after [connect] and the opening of the transport. *)
Definition openedMachine : VoiceWebSocket.state :=
  fst (VoiceWebSocket.onOpen opCodes exampleJson exampleSession
         (VoiceWebSocket.setReadyState 0%nat VoiceWebSocket.OPEN
            (fst (VoiceWebSocket.connect exampleSession VoiceWebSocket.fresh)))).

(** The same machine after the info packet. *)
Definition beatingMachine : VoiceWebSocket.state :=
  fst (VoiceWebSocket.onMessage opCodes exampleJson "info" openedMachine).

(** ** Reading more of a list of events of the receiver *)

(** How often the receiver emitted ['error']. *)
Fixpoint errorsEmitted (evs : list VoiceReceiver.event) : nat :=
  match evs with
  | [] => O
  | VoiceReceiver.Emit (VoiceReceiver.Error _) :: rest => S (errorsEmitted rest)
  | _ :: rest => errorsEmitted rest
  end.

(** The ['opus'] events emitted. *)
Fixpoint opusEmitted (evs : list VoiceReceiver.event)
  : list (VoiceReceiver.UserId * Buffer.t) :=
  match evs with
  | [] => []
  | VoiceReceiver.Emit (VoiceReceiver.Opus user frame) :: rest =>
      (user, frame) :: opusEmitted rest
  | _ :: rest => opusEmitted rest
  end.

(** The calls of [_push] on streams. *)
Fixpoint pushed (evs : list VoiceReceiver.event)
  : list (VoiceReceiver.StreamRef * option Buffer.t) :=
  match evs with
  | [] => []
  | VoiceReceiver.Stream_push s chunk :: rest => (s, chunk) :: pushed rest
  | _ :: rest => pushed rest
  end.

(** The calls of the cipher: ciphertext, nonce and key. *)
Fixpoint ciphered (evs : list VoiceReceiver.event)
  : list (Buffer.t * Buffer.t * Buffer.t) :=
  match evs with
  | [] => []
  | VoiceReceiver.SecretboxOpen ciphertext nonce key :: rest =>
      (ciphertext, nonce, key) :: ciphered rest
  | _ :: rest => ciphered rest
  end.

(** The console lines written. *)
Fixpoint logged (evs : list VoiceReceiver.event) : list string :=
  match evs with
  | [] => []
  | VoiceReceiver.Console message :: rest => message :: logged rest
  | _ :: rest => logged rest
  end.

(** The number of datagrams that come 3000 ms or more after the one
    before. *)
Fixpoint silences (previous : Z) (times : list Z) : nat :=
  match times with
  | [] => O
  | t :: rest =>
      if 3000 <=? t - previous then S (silences t rest) else silences t rest
  end.

(** The bytes a mode takes from the end of a datagram for its nonce. *)
Definition trailingNonceBytes (mode : string) : Z :=
  if String.eqb mode "xsalsa20_poly1305_lite" then 4
  else if String.eqb mode "xsalsa20_poly1305_suffix" then 24
  else 0.

(** The shared buffer is as a session that stays in [mode] keeps it: 24
    bytes, zero beyond the bytes the mode writes. *)
Definition zeroBeyond (mode : string) (nonce : Buffer.t) : Prop :=
  Buffer.length nonce = 24
  /\ (if String.eqb mode "xsalsa20_poly1305_lite"
      then skipn 4 nonce = repeat 0 20
      else if String.eqb mode "xsalsa20_poly1305_suffix"
      then True
      else skipn 12 nonce = repeat 0 12).

(** The liveness timer after a datagram at [time]. *)
Definition listeningSince (time : Z) : VoiceReceiver.Timeout :=
  {| VoiceReceiver.delay := 3000; VoiceReceiver.deadline := time + 3000;
     VoiceReceiver.active := true |}.

(** A datagram of eleven bytes, and one of an unknown source with the
    discriminant of a speaking packet. *)
Definition shortDatagram : Buffer.t := [144; 0; 0; 0; 0; 0; 0; 0; 0; 0; 0].

Definition datagram9 : Buffer.t :=
  [144; 0; 0; 0; 0; 0; 0; 0; 0; 0; 0; 9; 1; 2; 3].

(** ** Runs of the control channel *)

(** The inputs one after the other; [None] when one of them cannot happen
    in the state it meets. *)
Fixpoint runInputs (OP : VoiceWebSocket.VoiceOPCodes) (json : VoiceWebSocket.Json)
    (conn : VoiceWebSocket.VoiceConnection) (st : VoiceWebSocket.state)
    (inputs : list VoiceWebSocket.input)
  : option (VoiceWebSocket.state * list VoiceWebSocket.event) :=
  match inputs with
  | [] => Some (st, [])
  | i :: rest =>
      match VoiceWebSocket.step OP json conn st i with
      | None => None
      | Some (st1, ev1) =>
          match runInputs OP json conn st1 rest with
          | None => None
          | Some (st2, ev2) => Some (st2, ev1 ++ ev2)
          end
      end
  end.

(** The heartbeat timers created, by interval, and how many were
    cleared. *)
Fixpoint armed (evs : list VoiceWebSocket.event) : list Z :=
  match evs with
  | [] => []
  | VoiceWebSocket.SetInterval ms :: rest => ms :: armed rest
  | _ :: rest => armed rest
  end.

Fixpoint cleared (evs : list VoiceWebSocket.event) : nat :=
  match evs with
  | [] => O
  | VoiceWebSocket.ClearInterval :: rest => S (cleared rest)
  | _ :: rest => cleared rest
  end.

(** The messages of the ['error'] events. *)
Fixpoint errors (evs : list VoiceWebSocket.event) : list string :=
  match evs with
  | [] => []
  | VoiceWebSocket.Emit (VoiceWebSocket.Error message) :: rest =>
      message :: errors rest
  | _ :: rest => errors rest
  end.

(** The number of heartbeat timers the machine holds. *)
Definition timersHeld (st : VoiceWebSocket.state) : nat :=
  match VoiceWebSocket.heartbeatInterval st with
  | Some _ => 1%nat
  | None => O
  end.

(** ** Orderly sockets

    What the sockets of the machine may be assumed to do, beyond what the
    machine itself ensures: a socket delivers its messages only while it is
    open, and does not start closing on its own, so that it leaves the open
    state only when the machine closes it or with its closure reported.
    A step is orderly when its input is of that kind, a run when all its
    steps are. *)
Definition orderly (st : VoiceWebSocket.state) (i : VoiceWebSocket.input) : bool :=
  match i with
  | VoiceWebSocket.Message w _ =>
      match VoiceWebSocket.readyStateOf st w with
      | Some VoiceWebSocket.OPEN => true
      | _ => false
      end
  | VoiceWebSocket.Closing _ => false
  | _ => true
  end.

Fixpoint orderlyRun (OP : VoiceWebSocket.VoiceOPCodes) (json : VoiceWebSocket.Json)
    (conn : VoiceWebSocket.VoiceConnection) (st : VoiceWebSocket.state)
    (inputs : list VoiceWebSocket.input) : bool :=
  match inputs with
  | [] => true
  | i :: rest =>
      orderly st i
      && match VoiceWebSocket.step OP json conn st i with
         | Some (st1, _) => orderlyRun OP json conn st1 rest
         | None => true
         end
  end.

(** The machine of [openedMachine] after [shutdown] and an info packet that
    the socket still delivers while it is closing. *)
Definition lateMessageMachine : VoiceWebSocket.state :=
  fst (VoiceWebSocket.onMessage opCodes exampleJson "info"
         (fst (VoiceWebSocket.shutdown openedMachine))).

(** * Properties *)

(** ** Buffers *)

Lemma length_nonneg (b : Buffer.t) : 0 <= Buffer.length b.
Proof. unfold Buffer.length; lia. Qed.

Lemma index_skipn (data : Buffer.t) (offset : Z) :
  0 <= offset ->
  Buffer.index data offset = hd_error (skipn (Z.to_nat offset) data).
Proof.
  intros H. unfold Buffer.index.
  destruct (offset <? 0) eqn:E; [apply Z.ltb_lt in E; lia|].
  clear E H. generalize (Z.to_nat offset) as n.
  induction data as [|x data IH]; intros [|n]; simpl; auto.
Qed.

Lemma skipn_past_end {A} (l : list A) (n : nat) :
  (List.length l <= n)%nat -> skipn n l = [].
Proof. intros H. apply skipn_all2. exact H. Qed.

Lemma slice_from (data : Buffer.t) (offset : Z) :
  0 <= offset ->
  Buffer.slice data offset None = skipn (Z.to_nat offset) data.
Proof.
  intros H. unfold Buffer.slice, Buffer.clamp.
  destruct (offset <? 0) eqn:E; [apply Z.ltb_lt in E; lia|].
  pose proof (length_nonneg data) as Hl. unfold Buffer.length in *.
  destruct (Z.le_gt_cases offset (Z.of_nat (List.length data))) as [Hle|Hgt].
  - rewrite Z.min_l by lia.
    apply firstn_all2. rewrite length_skipn. lia.
  - rewrite Z.min_r by lia.
    rewrite Z.sub_diag. simpl.
    symmetry. apply skipn_past_end. lia.
Qed.

Lemma slice_whole_from_zero (data : Buffer.t) :
  Buffer.slice data 0 None = data.
Proof. rewrite slice_from by lia. reflexivity. Qed.

(** ** Header-extension stripping *)

Lemma dropElements_nil (count : nat) : dropElements count [] = [].
Proof. destruct count; reflexivity. Qed.

Lemma high_nibble (byte : Z) :
  0 <= byte < 256 -> Z.land 15 (Z.shiftr byte 4) = byte / 16.
Proof.
  intros H. rewrite Z.shiftr_div_pow2 by lia.
  change 15 with (Z.ones 4). rewrite Z.land_comm, Z.land_ones by lia.
  change (2 ^ 4) with 16.
  apply Z.mod_small. split.
  - apply Z.div_pos; lia.
  - apply Z.div_lt_upper_bound; lia.
Qed.

Lemma skipElements_nonneg (data : Buffer.t) (count : nat) (offset : Z) :
  0 <= offset -> offset <= VoiceReceiver.skipElements data count offset.
Proof.
  revert offset. induction count as [|count IH]; intros offset H;
    cbn [VoiceReceiver.skipElements]; [lia|].
  destruct (VoiceReceiver.isZeroByte (Buffer.index data offset)).
  - specialize (IH (offset + 1) ltac:(lia)). lia.
  - assert (0 <= VoiceReceiver.elementSkip (Buffer.index data offset)).
    { unfold VoiceReceiver.elementSkip.
      destruct (Buffer.index data offset); [|lia].
      apply Z.land_nonneg. left. lia. }
    specialize (IH (offset + 1 + (1 + VoiceReceiver.elementSkip (Buffer.index data offset)))
                  ltac:(lia)).
    lia.
Qed.

(** The cursor of the loop, read on the list: what lies at and after the
    cursor when the loop ends is what [dropElements] leaves. *)
Lemma skipElements_dropElements (data : Buffer.t) (count : nat) (offset : Z) :
  Forall (fun b => 0 <= b < 256) data ->
  0 <= offset ->
  skipn (Z.to_nat (VoiceReceiver.skipElements data count offset)) data
  = dropElements count (skipn (Z.to_nat offset) data).
Proof.
  intros Hbytes. revert offset.
  induction count as [|count IH]; intros offset Hoff;
    cbn [VoiceReceiver.skipElements dropElements]; [reflexivity|].
  rewrite index_skipn by assumption.
  destruct (skipn (Z.to_nat offset) data) as [|byte rest] eqn:Hs;
    cbn [hd_error VoiceReceiver.isZeroByte VoiceReceiver.elementSkip].
  - rewrite IH by lia.
    rewrite skipn_past_end; [apply dropElements_nil|].
    assert (List.length (skipn (Z.to_nat offset) data) = 0%nat) as Hlen
      by (rewrite Hs; reflexivity).
    rewrite length_skipn in Hlen. lia.
  - assert (Hrest : forall k, 0 <= k ->
              skipn (Z.to_nat (offset + 1 + k)) data = skipn (Z.to_nat k) rest).
    { intros k Hk.
      replace (Z.to_nat (offset + 1 + k))
        with (Z.to_nat k + (1 + Z.to_nat offset))%nat by lia.
      rewrite <- skipn_skipn. f_equal.
      change (1 + Z.to_nat offset)%nat with (S (Z.to_nat offset)).
      rewrite <- (skipn_skipn 1 (Z.to_nat offset)), Hs. reflexivity. }
    assert (Hbyte : 0 <= byte < 256).
    { assert (In byte data) as Hin.
      { rewrite <- (firstn_skipn (Z.to_nat offset) data), Hs.
        apply in_or_app. right. left. reflexivity. }
      rewrite Forall_forall in Hbytes. apply Hbytes, Hin. }
    destruct (byte =? 0) eqn:Hz.
    + rewrite IH by lia.
      specialize (Hrest 0). rewrite Z.add_0_r in Hrest.
      rewrite Hrest by lia. reflexivity.
    + rewrite high_nibble by assumption.
      assert (0 <= byte / 16) by (apply Z.div_pos; lia).
      rewrite IH by lia. rewrite Hrest by lia. reflexivity.
Qed.

Lemma readUInt16BE_value (b2 b3 : Z) :
  0 <= b2 -> 0 <= b3 < 256 ->
  Z.lor (Z.shiftl b2 8) b3 = 256 * b2 + b3.
Proof.
  intros H2 H3.
  assert (Hland : Z.land (Z.shiftl b2 8) b3 = 0).
  { apply Z.bits_inj'. intros n Hn.
    rewrite Z.land_spec, Z.bits_0.
    destruct (Z.lt_ge_cases n 8) as [Hlt|Hge].
    - rewrite Z.shiftl_spec_low by assumption. reflexivity.
    - rewrite (Z.bits_above_log2 b3 n); [apply andb_false_r|lia|].
      destruct (Z.eq_dec b3 0) as [->|Hnz]; [simpl; lia|].
      apply Z.lt_le_trans with 8; [|assumption].
      apply Z.log2_lt_pow2; [lia|]. change (2 ^ 8) with 256. lia. }
  rewrite <- Z.lxor_lor by assumption.
  rewrite <- Z.add_nocarry_lxor by assumption.
  rewrite Z.shiftl_mul_pow2 by lia. change (2 ^ 8) with 256. lia.
Qed.

(** C2.  What the code does, where the claim has the low four bits: a
    payload that begins with the marker 0xBE 0xDE and is longer than four
    bytes is cut as follows: the count is the big-endian 16-bit number at
    offset 2; from offset 4, that many elements are passed, a zero byte
    alone, any other leading byte together with one plus its high four bits
    further bytes (the code shifts the byte right by four before it masks
    it, which leaves the identifier of the element, not its length); one
    more byte is passed; the frame is what follows (nothing, if the payload
    ends before).  Any other payload is the frame as it is. *)
Theorem stripExtensions_frame (data : Buffer.t) :
  Forall (fun b => 0 <= b < 256) data ->
  (forall b2 b3 rest,
      data = 0xBE :: 0xDE :: b2 :: b3 :: rest -> rest <> [] ->
      VoiceReceiver.stripExtensions data
      = Some (frameAfterExtensions (256 * b2 + b3) rest))
  /\ ((forall b2 b3 b4 rest, data <> 0xBE :: 0xDE :: b2 :: b3 :: b4 :: rest) ->
      VoiceReceiver.stripExtensions data = Some data).
Proof.
  intros Hbytes. split.
  - intros b2 b3 rest -> Hrest.
    destruct rest as [|b4 rest]; [congruence|].
    assert (H2 : 0 <= b2 < 256 /\ 0 <= b3 < 256).
    { inversion Hbytes as [|? ? _ H1]; subst.
      inversion H1 as [|? ? _ H2]; subst.
      inversion H2 as [|? ? Hb2 H3]; subst.
      inversion H3 as [|? ? Hb3 _]; subst. split; assumption. }
    unfold VoiceReceiver.stripExtensions.
    assert (Hm : VoiceReceiver.hasExtensionMarker
                   (0xBE :: 0xDE :: b2 :: b3 :: b4 :: rest) = true).
    { unfold VoiceReceiver.hasExtensionMarker, Buffer.index, Buffer.length.
      cbn [Z.ltb Z.compare Z.to_nat Pos.to_nat Pos.iter_op nth_error Nat.add
           Z.eqb Pos.eqb andb List.length].
      apply Z.ltb_lt. lia. }
    rewrite Hm.
    assert (Hr : Buffer.readUInt16BE (0xBE :: 0xDE :: b2 :: b3 :: b4 :: rest) 2
                 = Some (256 * b2 + b3)).
    { change (Buffer.readUInt16BE (0xBE :: 0xDE :: b2 :: b3 :: b4 :: rest) 2)
        with (Some (Z.lor (Z.shiftl b2 8) b3)).
      rewrite readUInt16BE_value by lia. reflexivity. }
    rewrite Hr. f_equal.
    pose proof (skipElements_nonneg (0xBE :: 0xDE :: b2 :: b3 :: b4 :: rest)
                  (Z.to_nat (256 * b2 + b3)) 4 ltac:(lia)) as Hge.
    rewrite slice_from by lia.
    unfold frameAfterExtensions.
    pose proof (skipElements_dropElements _ (Z.to_nat (256 * b2 + b3)) 4 Hbytes
                  ltac:(lia)) as Hdrop.
    set (cursor := VoiceReceiver.skipElements _ _ 4) in *.
    replace (Z.to_nat (cursor + 1)) with (1 + Z.to_nat cursor)%nat by lia.
    rewrite <- skipn_skipn, Hdrop. reflexivity.
  - intros Hshape.
    unfold VoiceReceiver.stripExtensions.
    assert (Hm : VoiceReceiver.hasExtensionMarker data = false);
      [|rewrite Hm; reflexivity].
    unfold VoiceReceiver.hasExtensionMarker.
    destruct data as [|b0 [|b1 [|b2 [|b3 [|b4 rest]]]]];
      try reflexivity;
      change (Buffer.index (b0 :: _) 0) with (Some b0);
      try change (Buffer.index (b0 :: b1 :: _) 1) with (Some b1);
      cbv beta iota; try reflexivity;
      try (destruct (b0 =? 190), (b1 =? 222); reflexivity).
    destruct (b0 =? 190) eqn:E0; [|reflexivity].
    destruct (b1 =? 222) eqn:E1; [|reflexivity].
    apply Z.eqb_eq in E0, E1. subst.
    exfalso. apply (Hshape b2 b3 b4 rest). reflexivity.
Qed.

Lemma stripExtensions_frame_witness :
  VoiceReceiver.stripExtensions [0xBE; 0xDE; 0; 2; 0; 0x10; 7; 8; 9; 10; 11]
  = Some [10; 11]
  /\ VoiceReceiver.stripExtensions [1; 2; 3] = Some [1; 2; 3].
Proof.
  split.
  - assert (Hb : Forall (fun b => 0 <= b < 256)
                   [0xBE; 0xDE; 0; 2; 0; 0x10; 7; 8; 9; 10; 11])
      by (repeat constructor; lia).
    destruct (stripExtensions_frame _ Hb) as [H _].
    rewrite (H 0 2 [0; 0x10; 7; 8; 9; 10; 11] eq_refl); [reflexivity|discriminate].
  - assert (Hb : Forall (fun b => 0 <= b < 256) [1; 2; 3])
      by (repeat constructor; lia).
    destruct (stripExtensions_frame _ Hb) as [_ H].
    apply H. intros; discriminate.
Defined.

(** C2.  The code departs from the rule of the claim: on a payload whose
    single element has the leading byte 0x10 the code passes three bytes for
    the element (high nibble 1), where the low nibble (0) gives one byte, or
    two if the leading byte is counted apart. *)
Lemma stripExtensions_low_nibble_counterexample :
  ~ (forall data, VoiceReceiver.hasExtensionMarker data = true ->
       VoiceReceiver.stripExtensions data = specifiedFrame 0 data)
  /\ ~ (forall data, VoiceReceiver.hasExtensionMarker data = true ->
       VoiceReceiver.stripExtensions data = specifiedFrame 1 data).
Proof.
  split; intros H;
    specialize (H [0xBE; 0xDE; 0; 1; 0x10; 7; 8; 9; 10; 11] eq_refl);
    vm_compute in H; discriminate.
Qed.

(** ** The nonce of a datagram *)

Lemma copy_tail (msg nonce : Buffer.t) (n : Z) :
  0 < n <= Buffer.length nonce ->
  n <= Buffer.length msg ->
  Buffer.copy msg nonce 0 (Buffer.length msg - n) None
  = Some (lastBytes n msg ++ skipn (Z.to_nat n) nonce).
Proof.
  intros Hn Hm. unfold Buffer.copy.
  pose proof (length_nonneg msg) as Hl.
  replace (0 <? 0) with false by reflexivity.
  replace (Buffer.length msg - n <? 0) with false by (symmetry; apply Z.ltb_ge; lia).
  replace (Buffer.length msg <? 0) with false by (symmetry; apply Z.ltb_ge; lia).
  replace (Buffer.length nonce <=? 0) with false by (symmetry; apply Z.leb_gt; lia).
  replace (Buffer.length msg <=? Buffer.length msg - n) with false
    by (symmetry; apply Z.leb_gt; lia).
  replace (Buffer.length msg <? Buffer.length msg - n) with false
    by (symmetry; apply Z.ltb_ge; lia).
  cbn [orb]. f_equal.
  replace (Z.min (Z.min (Buffer.length msg - (Buffer.length msg - n))
                        (Buffer.length nonce - 0))
                 (Buffer.length msg - (Buffer.length msg - n))) with n by lia.
  replace (0 + n) with n by lia.
  cbn [Z.to_nat firstn app]. f_equal. unfold lastBytes.
  apply firstn_all2. rewrite length_skipn. unfold Buffer.length in *. lia.
Qed.

Lemma copy_head (msg nonce : Buffer.t) (n : Z) :
  0 < n <= Buffer.length nonce ->
  n <= Buffer.length msg ->
  Buffer.copy msg nonce 0 0 (Some n)
  = Some (firstn (Z.to_nat n) msg ++ skipn (Z.to_nat n) nonce).
Proof.
  intros Hn Hm. unfold Buffer.copy.
  replace (0 <? 0) with false by reflexivity.
  replace (n <? 0) with false by (symmetry; apply Z.ltb_ge; lia).
  replace (Buffer.length nonce <=? 0) with false by (symmetry; apply Z.leb_gt; lia).
  replace (n <=? 0) with false by (symmetry; apply Z.leb_gt; lia).
  replace (Buffer.length msg <? 0) with false
    by (symmetry; apply Z.ltb_ge; pose proof (length_nonneg msg); lia).
  cbn [orb]. f_equal.
  replace (Z.min (Z.min (n - 0) (Buffer.length nonce - 0)) (Buffer.length msg - 0))
    with n by lia.
  replace (0 + n) with n by lia.
  reflexivity.
Qed.

Lemma slice_between (msg : Buffer.t) (from to : Z) :
  0 <= from -> 0 <= to <= Buffer.length msg ->
  Buffer.slice msg from (Some to) = bytesBetween from to msg.
Proof.
  intros Hf Ht. unfold Buffer.slice, Buffer.clamp, bytesBetween.
  replace (from <? 0) with false by (symmetry; apply Z.ltb_ge; lia).
  replace (to <? 0) with false by (symmetry; apply Z.ltb_ge; lia).
  rewrite (Z.min_l to) by lia.
  destruct (Z.le_gt_cases from (Buffer.length msg)) as [Hle|Hgt].
  - rewrite Z.min_l by lia. reflexivity.
  - rewrite Z.min_r by lia.
    replace (Z.to_nat (to - Buffer.length msg)) with 0%nat by lia.
    replace (Z.to_nat (to - from)) with 0%nat by lia. reflexivity.
Qed.

(** What [chooseNonce] leaves in the shared buffer and gives to the cipher:
    the bytes the mode takes from the datagram, followed by the bytes the
    buffer held before beyond them. *)
Lemma chooseNonce_bytes (mode : string) (nonce msg : Buffer.t) :
  Buffer.length nonce = 24 ->
  shortestDatagram mode <= Buffer.length msg ->
  exists nonce' end_,
    VoiceReceiver.chooseNonce mode nonce msg = Some (nonce', end_)
    /\ Buffer.slice msg 12 end_ = specifiedCiphertext mode msg
    /\ nonce' =
       (if String.eqb mode "xsalsa20_poly1305_lite"
        then lastBytes 4 msg ++ skipn 4 nonce
        else if String.eqb mode "xsalsa20_poly1305_suffix"
        then lastBytes 24 msg
        else firstn 12 msg ++ skipn 12 nonce).
Proof.
  intros Hn Hm.
  unfold VoiceReceiver.chooseNonce, specifiedCiphertext, shortestDatagram in *.
  destruct (String.eqb mode "xsalsa20_poly1305_lite").
  - rewrite (copy_tail msg nonce 4) by lia.
    eexists _, _. split; [reflexivity|]. split; [|reflexivity].
    apply slice_between; lia.
  - destruct (String.eqb mode "xsalsa20_poly1305_suffix").
    + rewrite (copy_tail msg nonce 24) by lia.
      eexists _, _. split; [reflexivity|]. split.
      * apply slice_between; lia.
      * rewrite (skipn_past_end nonce); [apply app_nil_r|].
        unfold Buffer.length in Hn. lia.
    + rewrite (copy_head msg nonce 12) by lia.
      eexists _, _. split; [reflexivity|]. split; [|reflexivity].
      rewrite slice_from by lia. reflexivity.
Qed.

(** On the buffer as the module creates it, the nonce is the one of the
    rule. *)
Lemma chooseNonce_on_zeroed_buffer (mode : string) (msg : Buffer.t) :
  shortestDatagram mode <= Buffer.length msg ->
  exists end_,
    VoiceReceiver.chooseNonce mode VoiceReceiver.moduleNonce msg
    = Some (specifiedNonce mode msg, end_)
    /\ Buffer.slice msg 12 end_ = specifiedCiphertext mode msg.
Proof.
  intros Hm.
  destruct (chooseNonce_bytes mode VoiceReceiver.moduleNonce msg eq_refl Hm)
    as (nonce' & end_ & Hc & Hs & Hn).
  exists end_. split; [|assumption].
  rewrite Hc. f_equal. f_equal. rewrite Hn. unfold specifiedNonce.
  destruct (String.eqb mode "xsalsa20_poly1305_lite"); [reflexivity|].
  destruct (String.eqb mode "xsalsa20_poly1305_suffix"); reflexivity.
Qed.

(** ** [handlePacket] *)

Lemma fetchEncoder_keeps (prim : VoiceReceiver.Primitives)
    (user : VoiceReceiver.UserId) (st : VoiceReceiver.state) :
  forall e st' ev,
    VoiceReceiver.fetchEncoder prim user st = (e, st', ev) ->
    keepsStreamsAndTimers st st'
    /\ VoiceReceiver.nonce st' = VoiceReceiver.nonce st.
Proof.
  intros e st' ev.
  unfold VoiceReceiver.fetchEncoder, VoiceReceiver.OpusEncoders_fetch.
  destruct (VoiceReceiver.users_get (VoiceReceiver.opusEncoders st) user);
    intros H; inversion H; subst; unfold keepsStreamsAndTimers; simpl; intuition.
Qed.

Lemma fanOut_keeps (prim : VoiceReceiver.Primitives) (data : Buffer.t)
    (user : VoiceReceiver.UserId) (st : VoiceReceiver.state) :
  forall c st' ev,
    VoiceReceiver.fanOut prim data user st = (c, st', ev) ->
    keepsStreamsAndTimers st st'
    /\ VoiceReceiver.nonce st' = VoiceReceiver.nonce st.
Proof.
  intros c st' ev. unfold VoiceReceiver.fanOut.
  destruct ((0 <? VoiceReceiver.pcmListenerCount st)
            || (0 <? JsMap.size (VoiceReceiver.pcmStreams st))).
  - destruct (VoiceReceiver.fetchEncoder prim user st) as [[e st1] evf] eqn:Hf.
    apply fetchEncoder_keeps in Hf.
    destruct (VoiceReceiver.decode prim e data);
      intros H; inversion H; subst; exact Hf.
  - intros H; inversion H; subst. unfold keepsStreamsAndTimers. intuition.
Qed.

Lemma handlePacket_keeps (prim : VoiceReceiver.Primitives)
    (conn : VoiceReceiver.VoiceConnection) (msg : Buffer.t)
    (user : VoiceReceiver.UserId) (st : VoiceReceiver.state) :
  forall c st' ev,
    VoiceReceiver.handlePacket prim conn msg user st = (c, st', ev) ->
    keepsStreamsAndTimers st st'.
Proof.
  intros c st' ev. unfold VoiceReceiver.handlePacket.
  destruct (VoiceReceiver.chooseNonce _ _ msg) as [[nonce' end_]|];
    [|intros H; inversion H; subst; unfold keepsStreamsAndTimers; intuition].
  destruct (VoiceReceiver.secretbox_open prim _ nonce' _) as [data|];
    [|intros H; inversion H; subst; unfold keepsStreamsAndTimers; simpl; intuition].
  destruct (VoiceReceiver.stripExtensions data) as [frame|];
    [|intros H; inversion H; subst; unfold keepsStreamsAndTimers; simpl; intuition].
  destruct (VoiceReceiver.fanOut prim frame user _) as [[c1 st1] ev1] eqn:Hf.
  apply fanOut_keeps in Hf. destruct Hf as [Hk _].
  intros H; inversion H; subst. exact Hk.
Qed.

(** The first thing [handlePacket] does with a datagram it can take a nonce
    from is to call the cipher, on the slice and the nonce of
    [chooseNonce]; that nonce stays in the shared buffer. *)
Lemma handlePacket_opens (prim : VoiceReceiver.Primitives)
    (conn : VoiceReceiver.VoiceConnection) (msg : Buffer.t)
    (user : VoiceReceiver.UserId) (st : VoiceReceiver.state)
    (nonce' : Buffer.t) (end_ : option Z) :
  VoiceReceiver.chooseNonce (VoiceReceiver.encryptionMode conn)
    (VoiceReceiver.nonce st) msg = Some (nonce', end_) ->
  exists c st' ev,
    VoiceReceiver.handlePacket prim conn msg user st
    = (c, st',
       VoiceReceiver.SecretboxOpen (Buffer.slice msg 12 end_) nonce'
         (VoiceReceiver.secretKey conn) :: ev)
    /\ VoiceReceiver.nonce st' = nonce'.
Proof.
  intros Hc. unfold VoiceReceiver.handlePacket. rewrite Hc.
  destruct (VoiceReceiver.secretbox_open prim _ nonce' _) as [data|];
    [|eexists _, _, _; split; reflexivity].
  destruct (VoiceReceiver.stripExtensions data) as [frame|];
    [|eexists _, _, _; split; reflexivity].
  destruct (VoiceReceiver.fanOut prim frame user _) as [[c1 st1] ev1] eqn:Hf.
  apply fanOut_keeps in Hf. destruct Hf as [_ Hn].
  eexists _, _, _. split; [reflexivity|]. rewrite Hn. reflexivity.
Qed.

(** On a receiver whose shared buffer is as the module created it, the
    cipher is called on the ciphertext and the nonce of the rule. *)
Lemma handlePacket_opens_by_rule (prim : VoiceReceiver.Primitives)
    (conn : VoiceReceiver.VoiceConnection) (msg : Buffer.t)
    (user : VoiceReceiver.UserId) (st : VoiceReceiver.state) :
  VoiceReceiver.nonce st = VoiceReceiver.moduleNonce ->
  shortestDatagram (VoiceReceiver.encryptionMode conn) <= Buffer.length msg ->
  exists c st' ev,
    VoiceReceiver.handlePacket prim conn msg user st
    = (c, st',
       VoiceReceiver.SecretboxOpen
         (specifiedCiphertext (VoiceReceiver.encryptionMode conn) msg)
         (specifiedNonce (VoiceReceiver.encryptionMode conn) msg)
         (VoiceReceiver.secretKey conn) :: ev).
Proof.
  intros Hn Hlen.
  destruct (chooseNonce_on_zeroed_buffer _ msg Hlen) as (end_ & Hc & Hs).
  rewrite <- Hn in Hc.
  destruct (handlePacket_opens prim conn msg user st _ _ Hc)
    as (c & st' & ev & H & _).
  exists c, st', ev. rewrite H, Hs. reflexivity.
Qed.

(** C1.  A datagram in suffix mode followed by one in lite mode: the nonce
    given to the cipher for the second is its last four bytes followed by
    twenty bytes of the first datagram's nonce, not by zeros. *)
Theorem handlePacket_nonce_keeps_earlier_bytes
    (prim : VoiceReceiver.Primitives) (user : VoiceReceiver.UserId) :
  let first := repeat 0 12 ++ [1; 2; 3] ++ repeat 255 24 in
  let second := repeat 0 12 ++ [4; 5; 6] ++ [0; 0; 0; 9] in
  let '(_, st1, _) :=
    VoiceReceiver.handlePacket prim (sessionIn "xsalsa20_poly1305_suffix")
      first user receiver0 in
  let '(_, _, ev) :=
    VoiceReceiver.handlePacket prim (sessionIn "xsalsa20_poly1305_lite")
      second user st1 in
  hd_error ev
  = Some (VoiceReceiver.SecretboxOpen [4; 5; 6] ([0; 0; 0; 9] ++ repeat 255 20) [7])
  /\ specifiedNonce "xsalsa20_poly1305_lite" second = [0; 0; 0; 9] ++ repeat 0 20.
Proof.
  intros first second.
  destruct (handlePacket_opens prim (sessionIn "xsalsa20_poly1305_suffix")
              first user receiver0 (repeat 255 24) (Some 15) eq_refl)
    as (c1 & st1 & ev1 & H1 & Hn1).
  rewrite H1.
  destruct (handlePacket_opens prim (sessionIn "xsalsa20_poly1305_lite")
              second user st1 ([0; 0; 0; 9] ++ repeat 255 20) (Some 15))
    as (c2 & st2 & ev2 & H2 & Hn2).
  { rewrite Hn1. reflexivity. }
  rewrite H2. split; reflexivity.
Qed.

(** ** Maps *)

Section JsMapFacts.
Context {K V : Type} (eqb : K -> K -> bool).
Hypothesis eqb_eq : forall a b, eqb a b = true <-> a = b.

Lemma eqb_refl (k : K) : eqb k k = true.
Proof. apply eqb_eq. reflexivity. Qed.

Lemma eqb_neq (a b : K) : a <> b -> eqb a b = false.
Proof.
  intros H. destruct (eqb a b) eqn:E; [|reflexivity].
  apply eqb_eq in E. contradiction.
Qed.

Lemma get_set_same (m : JsMap.t K V) (k : K) (v : V) :
  JsMap.get eqb (JsMap.set eqb m k v) k = Some v.
Proof.
  induction m as [|[k' v'] m IH]; simpl.
  - rewrite eqb_refl. reflexivity.
  - destruct (eqb k k') eqn:E; simpl; rewrite E; [reflexivity|exact IH].
Qed.

Lemma get_set_other (m : JsMap.t K V) (k k' : K) (v : V) :
  k' <> k -> JsMap.get eqb (JsMap.set eqb m k v) k' = JsMap.get eqb m k'.
Proof.
  intros Hne. induction m as [|[k0 v0] m IH]; simpl.
  - rewrite (eqb_neq k' k Hne). reflexivity.
  - destruct (eqb k k0) eqn:E; simpl.
    + apply eqb_eq in E. subst k0. rewrite (eqb_neq k' k Hne). reflexivity.
    + rewrite IH. reflexivity.
Qed.

Lemma get_delete_same (m : JsMap.t K V) (k : K) :
  JsMap.get eqb (JsMap.delete eqb m k) k = None.
Proof.
  induction m as [|[k' v'] m IH]; simpl; [reflexivity|].
  destruct (eqb k k') eqn:E; simpl; [exact IH|]. rewrite E. exact IH.
Qed.

Lemma get_delete_other (m : JsMap.t K V) (k k' : K) :
  k' <> k -> JsMap.get eqb (JsMap.delete eqb m k) k' = JsMap.get eqb m k'.
Proof.
  intros Hne. induction m as [|[k0 v0] m IH]; simpl; [reflexivity|].
  destruct (eqb k k0) eqn:E; simpl.
  - apply eqb_eq in E. subst k0. rewrite (eqb_neq k' k Hne). exact IH.
  - rewrite IH. reflexivity.
Qed.

Lemma get_Some_in_keys (m : JsMap.t K V) (k : K) (v : V) :
  JsMap.get eqb m k = Some v -> In k (JsMap.keys m).
Proof.
  induction m as [|[k' v'] m IH]; simpl; [discriminate|].
  destruct (eqb k k') eqn:E.
  - apply eqb_eq in E. auto.
  - auto.
Qed.

Lemma get_None_not_in_keys (m : JsMap.t K V) (k : K) :
  JsMap.get eqb m k = None -> ~ In k (JsMap.keys m).
Proof.
  induction m as [|[k' v'] m IH]; simpl; [tauto|].
  destruct (eqb k k') eqn:E; [discriminate|].
  intros H [Hk|Hin]; [|exact (IH H Hin)].
  subst k'. rewrite eqb_refl in E. discriminate.
Qed.

Lemma keys_delete (m : JsMap.t K V) (k k' : K) :
  In k' (JsMap.keys (JsMap.delete eqb m k)) -> In k' (JsMap.keys m) /\ k' <> k.
Proof.
  induction m as [|[k0 v0] m IH]; simpl; [tauto|].
  destruct (eqb k k0) eqn:E; simpl.
  - intros H. destruct (IH H). tauto.
  - intros [H|H].
    + subst k0. split; [auto|]. intros ->. rewrite eqb_refl in E. discriminate.
    + destruct (IH H). tauto.
Qed.

Lemma keys_set_absent (m : JsMap.t K V) (k : K) (v : V) :
  JsMap.get eqb m k = None -> JsMap.set eqb m k v = m ++ [(k, v)].
Proof.
  induction m as [|[k' v'] m IH]; simpl; [reflexivity|].
  destruct (eqb k k') eqn:E; [discriminate|].
  intros H. rewrite (IH H). reflexivity.
Qed.

Lemma keys_set_present (m : JsMap.t K V) (k : K) (v v' : V) :
  JsMap.get eqb m k = Some v' ->
  JsMap.keys (JsMap.set eqb m k v) = JsMap.keys m.
Proof.
  unfold JsMap.keys.
  induction m as [|[k0 v0] m IH]; simpl; [discriminate|].
  destruct (eqb k k0) eqn:E; simpl; [reflexivity|].
  intros H. rewrite (IH H). reflexivity.
Qed.
End JsMapFacts.

Lemma string_eqb_eq (a b : string) : String.eqb a b = true <-> a = b.
Proof. apply String.eqb_eq. Qed.

Lemma z_eqb_eq (a b : Z) : Z.eqb a b = true <-> a = b.
Proof. apply Z.eqb_eq. Qed.

(** ** The decode stage *)

Lemma decodeWanted_gate (st : VoiceReceiver.state) :
  (0 <? VoiceReceiver.pcmListenerCount st)
  || (0 <? JsMap.size (VoiceReceiver.pcmStreams st)) = true
  <-> decodeWanted st.
Proof.
  unfold decodeWanted, JsMap.size.
  rewrite orb_true_iff, !Z.ltb_lt.
  destruct (VoiceReceiver.pcmStreams st) as [|x m]; simpl.
  - split; intros [H|H]; auto; [lia|congruence].
  - split; intros [H|H]; auto; right; [discriminate|lia].
Qed.

Lemma fanOut_closed_gate (prim : VoiceReceiver.Primitives) (frame : Buffer.t)
    (user : VoiceReceiver.UserId) (st : VoiceReceiver.state) :
  ~ decodeWanted st ->
  exists ev,
    VoiceReceiver.fanOut prim frame user st = (VoiceReceiver.Normal, st, ev)
    /\ VoiceReceiver.fetched ev = [] /\ VoiceReceiver.decoded ev = [].
Proof.
  intros Hg. unfold VoiceReceiver.fanOut.
  destruct ((0 <? VoiceReceiver.pcmListenerCount st)
            || (0 <? JsMap.size (VoiceReceiver.pcmStreams st))) eqn:G.
  - apply decodeWanted_gate in G. contradiction.
  - eexists. split; [reflexivity|].
    unfold VoiceReceiver.pushIfOpen.
    destruct (VoiceReceiver.users_get (VoiceReceiver.opusStreams st) user);
      split; reflexivity.
Qed.

Lemma fanOut_open_gate (prim : VoiceReceiver.Primitives) (frame : Buffer.t)
    (user : VoiceReceiver.UserId) (st : VoiceReceiver.state) :
  decodeWanted st ->
  exists e st' ev,
    VoiceReceiver.fanOut prim frame user st = (VoiceReceiver.Normal, st', ev)
    /\ VoiceReceiver.decoded ev = [(e, frame)]
    /\ VoiceReceiver.users_get (VoiceReceiver.opusEncoders st') user = Some e
    /\ match VoiceReceiver.users_get (VoiceReceiver.opusEncoders st) user with
       | Some e0 => e = e0 /\ VoiceReceiver.fetched ev = []
                    /\ VoiceReceiver.opusEncoders st' = VoiceReceiver.opusEncoders st
       | None => VoiceReceiver.fetched ev = [e]
       end
    /\ match VoiceReceiver.decode prim e frame with
       | inr error =>
           afterDecode ev
           = [VoiceReceiver.Emit
                (VoiceReceiver.Warn "decode"
                   ("Failed to decode packet voice to PCM because: " ++ error))]
       | inl pcm =>
           afterDecode ev
           = VoiceReceiver.pushIfOpen (VoiceReceiver.pcmStreams st) user pcm
             ++ [VoiceReceiver.Emit (VoiceReceiver.Pcm user pcm)]
       end.
Proof.
  intros Hg. apply decodeWanted_gate in Hg.
  unfold VoiceReceiver.fanOut. rewrite Hg.
  unfold VoiceReceiver.fetchEncoder, VoiceReceiver.OpusEncoders_fetch,
    VoiceReceiver.pushIfOpen.
  cbv beta iota zeta.
  destruct (VoiceReceiver.users_get (VoiceReceiver.opusEncoders st) user)
    as [e0|] eqn:He.
  - exists e0.
    destruct (VoiceReceiver.decode prim e0 frame) as [pcm|error] eqn:Hd;
      eexists _, _; (split; [reflexivity|]); simpl;
      unfold VoiceReceiver.users_get in *; rewrite ?He;
      destruct (JsMap.get String.eqb (VoiceReceiver.opusStreams st) user);
      destruct (JsMap.get String.eqb (VoiceReceiver.pcmStreams st) user);
      simpl; auto 10.
  - exists (VoiceReceiver.engine prim (VoiceReceiver.nextRef st)).
    destruct (VoiceReceiver.decode prim
                (VoiceReceiver.engine prim (VoiceReceiver.nextRef st)) frame)
      as [pcm|error] eqn:Hd;
      eexists _, _; (split; [reflexivity|]); simpl;
      unfold VoiceReceiver.users_get, VoiceReceiver.users_set in *;
      rewrite (get_set_same String.eqb string_eqb_eq);
      destruct (JsMap.get String.eqb (VoiceReceiver.opusStreams st) user);
      destruct (JsMap.get String.eqb (VoiceReceiver.pcmStreams st) user);
      simpl; auto 10.
Qed.

(** C4, as amended.  For a datagram that decrypts, the frame is decoded if
    and only if the receiver has a ['pcm'] listener or its table of
    decoded-audio streams is not empty, whoever the streams belong to.  When
    neither holds no decoder is fetched and none is asked to decode.  When
    one holds, the decoder is the speaker's entry of the decoder table,
    fetched and entered if there was none; if it fails, what follows is the
    ['decode'] warning alone; if it succeeds, what follows is the push to
    the speaker's decoded-audio stream, if there is one, and the ['pcm']
    event. *)
Theorem handlePacket_decode_gate (prim : VoiceReceiver.Primitives)
    (conn : VoiceReceiver.VoiceConnection) (msg : Buffer.t)
    (user : VoiceReceiver.UserId) (st : VoiceReceiver.state)
    (nonce' : Buffer.t) (end_ : option Z) (data frame : Buffer.t) :
  VoiceReceiver.chooseNonce (VoiceReceiver.encryptionMode conn)
    (VoiceReceiver.nonce st) msg = Some (nonce', end_) ->
  VoiceReceiver.secretbox_open prim (Buffer.slice msg 12 end_) nonce'
    (VoiceReceiver.secretKey conn) = Some data ->
  VoiceReceiver.stripExtensions data = Some frame ->
  exists st' ev,
    VoiceReceiver.handlePacket prim conn msg user st
    = (VoiceReceiver.Normal, st', ev)
    /\ (VoiceReceiver.decoded ev <> [] <-> decodeWanted st)
    /\ (~ decodeWanted st ->
        VoiceReceiver.fetched ev = []
        /\ VoiceReceiver.opusEncoders st' = VoiceReceiver.opusEncoders st)
    /\ (decodeWanted st ->
        exists e,
          VoiceReceiver.decoded ev = [(e, frame)]
          /\ VoiceReceiver.users_get (VoiceReceiver.opusEncoders st') user = Some e
          /\ match VoiceReceiver.users_get (VoiceReceiver.opusEncoders st) user with
             | Some e0 => e = e0 /\ VoiceReceiver.fetched ev = []
             | None => VoiceReceiver.fetched ev = [e]
             end
          /\ match VoiceReceiver.decode prim e frame with
             | inr error =>
                 afterDecode ev
                 = [VoiceReceiver.Emit
                      (VoiceReceiver.Warn "decode"
                         ("Failed to decode packet voice to PCM because: " ++ error))]
             | inl pcm =>
                 afterDecode ev
                 = VoiceReceiver.pushIfOpen (VoiceReceiver.pcmStreams st) user pcm
                   ++ [VoiceReceiver.Emit (VoiceReceiver.Pcm user pcm)]
             end).
Proof.
  intros Hc Ho Hs.
  unfold VoiceReceiver.handlePacket. rewrite Hc, Ho, Hs.
  set (st1 := VoiceReceiver.with_nonce nonce' st).
  destruct ((0 <? VoiceReceiver.pcmListenerCount st)
            || (0 <? JsMap.size (VoiceReceiver.pcmStreams st))) eqn:G.
  - assert (Hg : decodeWanted st) by (apply decodeWanted_gate; exact G).
    destruct (fanOut_open_gate prim frame user st1 Hg)
      as (e & st' & ev & Hf & Hdec & Hget & Hfetch & Hafter).
    rewrite Hf. eexists _, _. split; [reflexivity|].
    cbn [VoiceReceiver.decoded VoiceReceiver.fetched afterDecode].
    split; [|split].
    + rewrite Hdec. split; [auto|discriminate].
    + intros Hn. contradiction.
    + intros _. exists e. repeat split; try assumption.
      change (VoiceReceiver.opusEncoders st1) with (VoiceReceiver.opusEncoders st)
        in Hfetch.
      destruct (VoiceReceiver.users_get (VoiceReceiver.opusEncoders st) user);
        tauto.
  - assert (Hg : ~ decodeWanted st).
    { intros Hg. apply decodeWanted_gate in Hg. congruence. }
    destruct (fanOut_closed_gate prim frame user st1 Hg)
      as (ev & Hf & Hfetch & Hdec).
    rewrite Hf. eexists _, _. split; [reflexivity|].
    cbn [VoiceReceiver.decoded VoiceReceiver.fetched].
    split; [|split].
    + rewrite Hdec. split; [congruence|contradiction].
    + intros _. split; [assumption|reflexivity].
    + contradiction.
Qed.

Lemma handlePacket_decode_gate_witness :
  exists st' ev,
    VoiceReceiver.handlePacket plainPrimitives (sessionIn "xsalsa20_poly1305")
      datagram5 "alice"%string receiverWithBobsStream
    = (VoiceReceiver.Normal, st', ev)
    /\ VoiceReceiver.decoded ev = [(1%nat, [1; 2; 3])]
    /\ VoiceReceiver.fetched ev = [1%nat].
Proof.
  destruct (handlePacket_decode_gate plainPrimitives
              (sessionIn "xsalsa20_poly1305") datagram5 "alice"%string
              receiverWithBobsStream
              (firstn 12 datagram5 ++ repeat 0 12) None [1; 2; 3] [1; 2; 3]
              eq_refl eq_refl eq_refl)
    as (st' & ev & H & _ & _ & Hopen).
  exists st', ev. split; [exact H|].
  destruct Hopen as (e & Hd & Hg & Hf & _).
  { right. discriminate. }
  vm_compute in H. inversion H; subst. split; reflexivity.
Defined.

(** C4, as stated, fails: with no ['pcm'] listener and no decoded-audio
    stream of the speaker's own, a stream of another speaker is enough for
    a decoder to be fetched and the frame to be decoded. *)
Lemma decode_gate_counterexample :
  ~ (forall st user msg c st' ev,
       VoiceReceiver.handlePacket plainPrimitives (sessionIn "xsalsa20_poly1305")
         msg user st = (c, st', ev) ->
       VoiceReceiver.pcmListenerCount st = 0 ->
       VoiceReceiver.users_get (VoiceReceiver.pcmStreams st) user = None ->
       VoiceReceiver.fetched ev = [] /\ VoiceReceiver.decoded ev = []).
Proof.
  intros H.
  destruct (H receiverWithBobsStream "alice"%string datagram5 _ _ _
              eq_refl eq_refl eq_refl) as [Hf _].
  vm_compute in Hf. discriminate.
Qed.

(** ** Opening streams *)

Lemma onePerIdentity_set {V} (table : JsMap.t VoiceReceiver.UserId V)
    (id : VoiceReceiver.UserId) (s : V) :
  VoiceReceiver.users_get table id = None ->
  JsMap.keys (VoiceReceiver.users_set table id s) = JsMap.keys table ++ [id]
  /\ (onePerIdentity table -> onePerIdentity (VoiceReceiver.users_set table id s)).
Proof.
  intros Hnone. unfold VoiceReceiver.users_set, VoiceReceiver.users_get in *.
  rewrite (keys_set_absent String.eqb table id s Hnone).
  unfold onePerIdentity, JsMap.keys.
  split; [rewrite map_app; reflexivity|].
  intros Hnd. rewrite map_app. cbn [map fst].
  apply NoDup_app; [assumption|repeat constructor; simpl; tauto|].
  intros a Hin [Heq|[]]. subst a.
  exact (get_None_not_in_keys String.eqb string_eqb_eq table id Hnone Hin).
Qed.

(** C5.  [createOpusStream] and [createPCMStream] throw when the user is not
    resolved, and throw when the table already has a stream for the resolved
    identity; in both cases the receiver is left as it was, so the stream
    that was registered still is.  Otherwise the stream returned is a new
    one, registered under the identity and under no other, the other table
    is untouched, and a table with one stream per identity stays so. *)
Theorem createStream_contract (prim : VoiceReceiver.Primitives) (user : string)
    (st : VoiceReceiver.state) :
  (VoiceReceiver.resolveUser prim user = None ->
   exists m1 m2,
     VoiceReceiver.createOpusStream prim user st = (inl m1, st)
     /\ VoiceReceiver.createPCMStream prim user st = (inl m2, st))
  /\ (forall id s,
        VoiceReceiver.resolveUser prim user = Some id ->
        VoiceReceiver.users_get (VoiceReceiver.opusStreams st) id = Some s ->
        exists m, VoiceReceiver.createOpusStream prim user st = (inl m, st))
  /\ (forall id s,
        VoiceReceiver.resolveUser prim user = Some id ->
        VoiceReceiver.users_get (VoiceReceiver.pcmStreams st) id = Some s ->
        exists m, VoiceReceiver.createPCMStream prim user st = (inl m, st))
  /\ (forall id,
        VoiceReceiver.resolveUser prim user = Some id ->
        VoiceReceiver.users_get (VoiceReceiver.opusStreams st) id = None ->
        exists st',
          VoiceReceiver.createOpusStream prim user st
          = (inr (VoiceReceiver.nextRef st), st')
          /\ VoiceReceiver.nextRef st' = S (VoiceReceiver.nextRef st)
          /\ VoiceReceiver.users_get (VoiceReceiver.opusStreams st') id
             = Some (VoiceReceiver.nextRef st)
          /\ JsMap.keys (VoiceReceiver.opusStreams st')
             = JsMap.keys (VoiceReceiver.opusStreams st) ++ [id]
          /\ (forall id', id' <> id ->
                VoiceReceiver.users_get (VoiceReceiver.opusStreams st') id'
                = VoiceReceiver.users_get (VoiceReceiver.opusStreams st) id')
          /\ VoiceReceiver.pcmStreams st' = VoiceReceiver.pcmStreams st
          /\ (onePerIdentity (VoiceReceiver.opusStreams st) ->
              onePerIdentity (VoiceReceiver.opusStreams st')))
  /\ (forall id,
        VoiceReceiver.resolveUser prim user = Some id ->
        VoiceReceiver.users_get (VoiceReceiver.pcmStreams st) id = None ->
        exists st',
          VoiceReceiver.createPCMStream prim user st
          = (inr (VoiceReceiver.nextRef st), st')
          /\ VoiceReceiver.nextRef st' = S (VoiceReceiver.nextRef st)
          /\ VoiceReceiver.users_get (VoiceReceiver.pcmStreams st') id
             = Some (VoiceReceiver.nextRef st)
          /\ JsMap.keys (VoiceReceiver.pcmStreams st')
             = JsMap.keys (VoiceReceiver.pcmStreams st) ++ [id]
          /\ (forall id', id' <> id ->
                VoiceReceiver.users_get (VoiceReceiver.pcmStreams st') id'
                = VoiceReceiver.users_get (VoiceReceiver.pcmStreams st) id')
          /\ VoiceReceiver.opusStreams st' = VoiceReceiver.opusStreams st
          /\ (onePerIdentity (VoiceReceiver.pcmStreams st) ->
              onePerIdentity (VoiceReceiver.pcmStreams st'))).
Proof.
  unfold VoiceReceiver.createOpusStream, VoiceReceiver.createPCMStream,
    VoiceReceiver.newReadable.
  cbv beta iota zeta.
  repeat split.
  - intros ->. eexists _, _. split; reflexivity.
  - intros id s -> ->. eexists. reflexivity.
  - intros id s -> ->. eexists. reflexivity.
  - intros id -> Hnone. rewrite Hnone. eexists. split; [reflexivity|].
    cbn [VoiceReceiver.nextRef VoiceReceiver.opusStreams
         VoiceReceiver.pcmStreams VoiceReceiver.with_nextRef
         VoiceReceiver.with_opusStreams].
    destruct (onePerIdentity_set _ id (VoiceReceiver.nextRef st) Hnone) as [Hk Hone].
    repeat split; try assumption.
    + apply (get_set_same String.eqb string_eqb_eq).
    + intros id' Hne. apply (get_set_other String.eqb string_eqb_eq). exact Hne.
  - intros id -> Hnone. rewrite Hnone. eexists. split; [reflexivity|].
    cbn [VoiceReceiver.nextRef VoiceReceiver.opusStreams
         VoiceReceiver.pcmStreams VoiceReceiver.with_nextRef
         VoiceReceiver.with_pcmStreams].
    destruct (onePerIdentity_set _ id (VoiceReceiver.nextRef st) Hnone) as [Hk Hone].
    repeat split; try assumption.
    + apply (get_set_same String.eqb string_eqb_eq).
    + intros id' Hne. apply (get_set_other String.eqb string_eqb_eq). exact Hne.
Qed.

Lemma createStream_contract_witness :
  (exists m,
     VoiceReceiver.createPCMStream plainPrimitives "bob"%string receiverWithBobsStream
     = (inl m, receiverWithBobsStream))
  /\ (exists st',
        VoiceReceiver.createOpusStream plainPrimitives "bob"%string receiverWithBobsStream
        = (inr 1%nat, st')
        /\ VoiceReceiver.users_get (VoiceReceiver.opusStreams st') "bob"%string = Some 1%nat).
Proof.
  destruct (createStream_contract plainPrimitives "bob"%string receiverWithBobsStream)
    as (_ & _ & Hpcm & Hopus & _).
  split.
  - exact (Hpcm "bob"%string 0%nat eq_refl eq_refl).
  - destruct (Hopus "bob"%string eq_refl eq_refl) as (st' & H & _ & Hget & _).
    exists st'. split; [exact H|exact Hget].
Defined.

(** ** [destroy] *)

Lemma endStreams_events (entries table : JsMap.t VoiceReceiver.UserId VoiceReceiver.StreamRef) :
  snd (VoiceReceiver.endStreams entries table)
  = map (fun entry => VoiceReceiver.Stream_push (snd entry) None) entries.
Proof.
  revert table. induction entries as [|[id s] entries IH]; intros table; simpl;
    [reflexivity|].
  specialize (IH (VoiceReceiver.users_delete table id)).
  destruct (VoiceReceiver.endStreams entries (VoiceReceiver.users_delete table id)).
  simpl in *. rewrite IH. reflexivity.
Qed.

Lemma endStreams_table (entries table : JsMap.t VoiceReceiver.UserId VoiceReceiver.StreamRef) :
  (forall k, In k (JsMap.keys table) -> In k (JsMap.keys entries)) ->
  fst (VoiceReceiver.endStreams entries table) = [].
Proof.
  revert table. induction entries as [|[id s] entries IH]; intros table Hsub; simpl.
  - destruct table as [|[k v] table]; [reflexivity|].
    exfalso. apply (Hsub k). left. reflexivity.
  - specialize (IH (VoiceReceiver.users_delete table id)).
    destruct (VoiceReceiver.endStreams entries (VoiceReceiver.users_delete table id)).
    simpl in *. apply IH. intros k Hin.
    apply (keys_delete String.eqb string_eqb_eq) in Hin. destruct Hin as [Hin Hne].
    destruct (Hsub k Hin) as [Heq|Hin']; [congruence|exact Hin'].
Qed.

Lemma destroyEncoders_events (entries table : JsMap.t VoiceReceiver.UserId VoiceReceiver.EncoderRef) :
  snd (VoiceReceiver.destroyEncoders entries table)
  = map (fun entry => VoiceReceiver.EncoderDestroy (snd entry)) entries.
Proof.
  revert table. induction entries as [|[id e] entries IH]; intros table; simpl;
    [reflexivity|].
  specialize (IH (VoiceReceiver.users_delete table id)).
  destruct (VoiceReceiver.destroyEncoders entries (VoiceReceiver.users_delete table id)).
  simpl in *. rewrite IH. reflexivity.
Qed.

Lemma destroyEncoders_table (entries table : JsMap.t VoiceReceiver.UserId VoiceReceiver.EncoderRef) :
  (forall k, In k (JsMap.keys table) -> In k (JsMap.keys entries)) ->
  fst (VoiceReceiver.destroyEncoders entries table) = [].
Proof.
  revert table. induction entries as [|[id e] entries IH]; intros table Hsub; simpl.
  - destruct table as [|[k v] table]; [reflexivity|].
    exfalso. apply (Hsub k). left. reflexivity.
  - specialize (IH (VoiceReceiver.users_delete table id)).
    destruct (VoiceReceiver.destroyEncoders entries (VoiceReceiver.users_delete table id)).
    simpl in *. apply IH. intros k Hin.
    apply (keys_delete String.eqb string_eqb_eq) in Hin. destruct Hin as [Hin Hne].
    destruct (Hsub k Hin) as [Heq|Hin']; [congruence|exact Hin'].
Qed.

Lemma endsPushed_app (s : VoiceReceiver.StreamRef) (a b : list VoiceReceiver.event) :
  VoiceReceiver.endsPushed s (a ++ b)
  = (VoiceReceiver.endsPushed s a + VoiceReceiver.endsPushed s b)%nat.
Proof.
  induction a as [|x a IH]; simpl; [reflexivity|].
  destruct x; simpl; try exact IH;
    (destruct chunk; [exact IH|]);
    destruct (Nat.eqb _ s); simpl; rewrite IH; reflexivity.
Qed.

Lemma timesDestroyed_app (e : VoiceReceiver.EncoderRef) (a b : list VoiceReceiver.event) :
  VoiceReceiver.timesDestroyed e (a ++ b)
  = (VoiceReceiver.timesDestroyed e a + VoiceReceiver.timesDestroyed e b)%nat.
Proof.
  induction a as [|x a IH]; simpl; [reflexivity|].
  destruct x; simpl; try exact IH.
  destruct (Nat.eqb _ e); simpl; rewrite IH; reflexivity.
Qed.

Lemma endsPushed_ended (s : VoiceReceiver.StreamRef)
    (entries : JsMap.t VoiceReceiver.UserId VoiceReceiver.StreamRef) :
  VoiceReceiver.endsPushed s
    (map (fun entry => VoiceReceiver.Stream_push (snd entry) None) entries)
  = count_occ Nat.eq_dec (registered entries) s.
Proof.
  induction entries as [|[id s'] entries IH]; simpl; [reflexivity|].
  destruct (Nat.eq_dec s' s) as [->|Hne].
  - rewrite Nat.eqb_refl, IH. reflexivity.
  - apply Nat.eqb_neq in Hne. rewrite Hne. exact IH.
Qed.

Lemma endsPushed_destroyed (s : VoiceReceiver.StreamRef)
    (entries : JsMap.t VoiceReceiver.UserId VoiceReceiver.EncoderRef) :
  VoiceReceiver.endsPushed s
    (map (fun entry => VoiceReceiver.EncoderDestroy (snd entry)) entries) = 0%nat.
Proof. induction entries as [|[id e] entries IH]; simpl; auto. Qed.

Lemma timesDestroyed_ended (e : VoiceReceiver.EncoderRef)
    (entries : JsMap.t VoiceReceiver.UserId VoiceReceiver.StreamRef) :
  VoiceReceiver.timesDestroyed e
    (map (fun entry => VoiceReceiver.Stream_push (snd entry) None) entries) = 0%nat.
Proof. induction entries as [|[id s] entries IH]; simpl; auto. Qed.

Lemma timesDestroyed_destroyed (e : VoiceReceiver.EncoderRef)
    (entries : JsMap.t VoiceReceiver.UserId VoiceReceiver.EncoderRef) :
  VoiceReceiver.timesDestroyed e
    (map (fun entry => VoiceReceiver.EncoderDestroy (snd entry)) entries)
  = count_occ Nat.eq_dec (registered entries) e.
Proof.
  induction entries as [|[id e'] entries IH]; simpl; [reflexivity|].
  destruct (Nat.eq_dec e' e) as [->|Hne].
  - rewrite Nat.eqb_refl, IH. reflexivity.
  - apply Nat.eqb_neq in Hne. rewrite Hne. exact IH.
Qed.

(** C8, as amended.  [destroy] removes one registration of the datagram
    listener, empties the two stream tables and the decoder table, pushes
    end-of-stream once per registered stream, destroys each registered
    decoder once, and marks the receiver destroyed.  It leaves the speaking
    timeouts, the liveness timer and the queue table as they were; the
    liveness timer, when it runs on the destroyed receiver, emits nothing.
    A second [destroy] ends no stream and destroys no decoder, and changes
    nothing but the count of registrations. *)
Theorem destroy_releases_streams_and_decoders (st : VoiceReceiver.state) :
  exists st' ev,
    VoiceReceiver.destroy st = (st', ev)
    /\ VoiceReceiver.socketListeners st' = Nat.pred (VoiceReceiver.socketListeners st)
    /\ VoiceReceiver.pcmStreams st' = []
    /\ VoiceReceiver.opusStreams st' = []
    /\ VoiceReceiver.opusEncoders st' = []
    /\ VoiceReceiver.destroyed st' = true
    /\ (forall s,
          VoiceReceiver.endsPushed s ev
          = count_occ Nat.eq_dec
              (registered (VoiceReceiver.pcmStreams st)
               ++ registered (VoiceReceiver.opusStreams st)) s)
    /\ (forall e,
          VoiceReceiver.timesDestroyed e ev
          = count_occ Nat.eq_dec (registered (VoiceReceiver.opusEncoders st)) e)
    /\ VoiceReceiver.speakingTimeouts st' = VoiceReceiver.speakingTimeouts st
    /\ VoiceReceiver.disconnectTimer st' = VoiceReceiver.disconnectTimer st
    /\ VoiceReceiver.queues st' = VoiceReceiver.queues st
    /\ armedTimers st' = armedTimers st
    /\ snd (VoiceReceiver.disconnectTimerFired st') = []
    /\ VoiceReceiver.destroy st'
       = (VoiceReceiver.with_socketListeners
            (Nat.pred (VoiceReceiver.socketListeners st')) st',
          [VoiceReceiver.SocketRemoveListener]).
Proof.
  unfold VoiceReceiver.destroy.
  cbn [VoiceReceiver.pcmStreams VoiceReceiver.opusStreams VoiceReceiver.opusEncoders
       VoiceReceiver.with_socketListeners VoiceReceiver.with_pcmStreams
       VoiceReceiver.with_opusStreams].
  pose proof (endStreams_events (VoiceReceiver.pcmStreams st) (VoiceReceiver.pcmStreams st)) as E1.
  pose proof (endStreams_table (VoiceReceiver.pcmStreams st) (VoiceReceiver.pcmStreams st)
                (fun k H => H)) as T1.
  pose proof (endStreams_events (VoiceReceiver.opusStreams st) (VoiceReceiver.opusStreams st)) as E2.
  pose proof (endStreams_table (VoiceReceiver.opusStreams st) (VoiceReceiver.opusStreams st)
                (fun k H => H)) as T2.
  pose proof (destroyEncoders_events (VoiceReceiver.opusEncoders st) (VoiceReceiver.opusEncoders st)) as E3.
  pose proof (destroyEncoders_table (VoiceReceiver.opusEncoders st) (VoiceReceiver.opusEncoders st)
                (fun k H => H)) as T3.
  destruct (VoiceReceiver.endStreams (VoiceReceiver.pcmStreams st) _) as [pcm ev1].
  destruct (VoiceReceiver.endStreams (VoiceReceiver.opusStreams st) _) as [opus ev2].
  destruct (VoiceReceiver.destroyEncoders (VoiceReceiver.opusEncoders st) _) as [enc ev3].
  simpl in E1, T1, E2, T2, E3, T3. subst.
  eexists _, _. split; [reflexivity|].
  simpl. repeat split.
  - intros s.
    rewrite !endsPushed_app, !endsPushed_ended, endsPushed_destroyed, count_occ_app.
    rewrite Nat.add_0_r. reflexivity.
  - intros e.
    rewrite !timesDestroyed_app, !timesDestroyed_ended, timesDestroyed_destroyed.
    reflexivity.
Qed.

(** C8, as stated, fails: after a datagram the speaking timeout of its
    source and the liveness timer are armed, and they still are after
    [destroy]. *)
Lemma destroy_timers_counterexample :
  ~ (forall st, armedTimers (fst (VoiceReceiver.destroy st)) = []).
Proof.
  intros H. specialize (H receiverAfterDatagram).
  vm_compute in H. discriminate.
Qed.

(** ** [stoppedSpeaking] *)

Lemma users_get_delete_same {V} (m : JsMap.t VoiceReceiver.UserId V)
    (k : VoiceReceiver.UserId) :
  JsMap.get String.eqb (JsMap.delete String.eqb m k) k = None.
Proof. apply (get_delete_same String.eqb). Qed.

Lemma users_get_delete_other {V} (m : JsMap.t VoiceReceiver.UserId V)
    (k k' : VoiceReceiver.UserId) :
  k' <> k ->
  JsMap.get String.eqb (JsMap.delete String.eqb m k) k' = JsMap.get String.eqb m k'.
Proof. apply (get_delete_other String.eqb string_eqb_eq). Qed.

(** C9.  [stoppedSpeaking] takes the identity's entries out of the two
    stream tables and leaves the other identities' entries; it leaves the
    decoder table as it was, calling [destroy] once on the identity's
    decoder, if it has one.  A later packet of the identity that is to be
    decoded, on any receiver with that decoder table, fetches no decoder
    and asks the destroyed one to decode. *)
Theorem stoppedSpeaking_keeps_decoder (prim : VoiceReceiver.Primitives)
    (user : VoiceReceiver.UserId) (st : VoiceReceiver.state) :
  exists st1 ev1,
    VoiceReceiver.stoppedSpeaking user st = (st1, ev1)
    /\ VoiceReceiver.opusEncoders st1 = VoiceReceiver.opusEncoders st
    /\ VoiceReceiver.users_get (VoiceReceiver.opusStreams st1) user = None
    /\ VoiceReceiver.users_get (VoiceReceiver.pcmStreams st1) user = None
    /\ (forall id, id <> user ->
          VoiceReceiver.users_get (VoiceReceiver.opusStreams st1) id
          = VoiceReceiver.users_get (VoiceReceiver.opusStreams st) id
          /\ VoiceReceiver.users_get (VoiceReceiver.pcmStreams st1) id
             = VoiceReceiver.users_get (VoiceReceiver.pcmStreams st) id)
    /\ VoiceReceiver.fetched ev1 = []
    /\ (forall e,
          VoiceReceiver.users_get (VoiceReceiver.opusEncoders st) user = Some e ->
          VoiceReceiver.timesDestroyed e ev1 = 1%nat
          /\ forall conn msg st2 nonce' end_ data frame,
               VoiceReceiver.opusEncoders st2 = VoiceReceiver.opusEncoders st1 ->
               decodeWanted st2 ->
               VoiceReceiver.chooseNonce (VoiceReceiver.encryptionMode conn)
                 (VoiceReceiver.nonce st2) msg = Some (nonce', end_) ->
               VoiceReceiver.secretbox_open prim (Buffer.slice msg 12 end_) nonce'
                 (VoiceReceiver.secretKey conn) = Some data ->
               VoiceReceiver.stripExtensions data = Some frame ->
               exists st3 ev,
                 VoiceReceiver.handlePacket prim conn msg user st2
                 = (VoiceReceiver.Normal, st3, ev)
                 /\ VoiceReceiver.fetched ev = []
                 /\ VoiceReceiver.decoded ev = [(e, frame)]
                 /\ VoiceReceiver.users_get (VoiceReceiver.opusEncoders st3) user
                    = Some e).
Proof.
  unfold VoiceReceiver.stoppedSpeaking, VoiceReceiver.users_get,
    VoiceReceiver.users_delete.
  destruct (JsMap.get String.eqb (VoiceReceiver.opusStreams st) user) as [so|] eqn:Ho;
    destruct (JsMap.get String.eqb (VoiceReceiver.pcmStreams st) user) as [sp|] eqn:Hp;
    destruct (JsMap.get String.eqb (VoiceReceiver.opusEncoders st) user) as [e0|] eqn:He;
    eexists _, _; (split; [reflexivity|]); simpl;
    rewrite ?users_get_delete_same;
    (split; [reflexivity|]); (split; [auto|]); (split; [auto|]);
    (split;
     [intros id Hne;
      rewrite ?users_get_delete_other by exact Hne;
      split; reflexivity|]);
    (split; [reflexivity|]);
    intros e Heq; try discriminate; inversion Heq; subst e0;
    (split; [simpl; rewrite Nat.eqb_refl; reflexivity|]);
    intros conn msg st2 nonce' end_ data frame Henc Hg Hc Hopen Hs;
    destruct (handlePacket_decode_gate prim conn msg user st2 nonce' end_ data
                frame Hc Hopen Hs)
      as (st3 & ev & Hh & _ & _ & Hdec);
    destruct (Hdec Hg) as (e' & Hd & Hget & Hfetch & _);
    unfold VoiceReceiver.users_get in Hfetch;
    simpl in Henc; rewrite Henc, He in Hfetch; destruct Hfetch as [-> Hf];
    exists st3, ev; auto.
Qed.

Lemma stoppedSpeaking_keeps_decoder_witness :
  let st := VoiceReceiver.with_opusEncoders [("bob"%string, 4%nat)]
              receiverWithBobsStream in
  exists st1 ev1,
    VoiceReceiver.stoppedSpeaking "bob"%string st = (st1, ev1)
    /\ VoiceReceiver.opusEncoders st1 = [("bob"%string, 4%nat)]
    /\ exists st3 ev,
         VoiceReceiver.handlePacket plainPrimitives (sessionIn "xsalsa20_poly1305")
           datagram5 "bob"%string
           (VoiceReceiver.with_pcmStreams [("bob"%string, 9%nat)] st1)
         = (VoiceReceiver.Normal, st3, ev)
         /\ VoiceReceiver.fetched ev = []
         /\ VoiceReceiver.decoded ev = [(4%nat, [1; 2; 3])].
Proof.
  intros st.
  destruct (stoppedSpeaking_keeps_decoder plainPrimitives "bob"%string st)
    as (st1 & ev1 & H & Henc & _ & _ & _ & _ & Hlater).
  exists st1, ev1. split; [exact H|]. split; [exact Henc|].
  destruct (Hlater 4%nat eq_refl) as [_ Hpacket].
  destruct (Hpacket (sessionIn "xsalsa20_poly1305") datagram5
              (VoiceReceiver.with_pcmStreams [("bob"%string, 9%nat)] st1)
              (firstn 12 datagram5 ++ repeat 0 12) None [1; 2; 3] [1; 2; 3])
    as (st3 & ev & Hh & Hf & Hd & _).
  - reflexivity.
  - right. discriminate.
  - vm_compute in H. inversion H. reflexivity.
  - reflexivity.
  - reflexivity.
  - exists st3, ev. auto.
Defined.

(** ** Speaking timeouts *)

Lemma notifications_app (ssrc : Z) (a b : list VoiceReceiver.event) :
  VoiceReceiver.notifications ssrc (a ++ b)
  = VoiceReceiver.notifications ssrc a ++ VoiceReceiver.notifications ssrc b.
Proof.
  induction a as [|x a IH]; simpl; [reflexivity|].
  destruct x; simpl; try exact IH.
  destruct (_ =? ssrc); simpl; rewrite IH; reflexivity.
Qed.

Lemma fanOut_no_notifications (prim : VoiceReceiver.Primitives) (frame : Buffer.t)
    (user : VoiceReceiver.UserId) (st : VoiceReceiver.state) (ssrc : Z) :
  VoiceReceiver.notifications ssrc
    (snd (VoiceReceiver.fanOut prim frame user st)) = [].
Proof.
  unfold VoiceReceiver.fanOut, VoiceReceiver.fetchEncoder,
    VoiceReceiver.OpusEncoders_fetch, VoiceReceiver.pushIfOpen.
  cbv beta iota zeta.
  destruct ((0 <? VoiceReceiver.pcmListenerCount st)
            || (0 <? JsMap.size (VoiceReceiver.pcmStreams st)));
    destruct (VoiceReceiver.users_get (VoiceReceiver.opusStreams st) user);
    try reflexivity;
    destruct (VoiceReceiver.users_get (VoiceReceiver.opusEncoders st) user);
    destruct (VoiceReceiver.decode prim _ frame); simpl;
    destruct (VoiceReceiver.users_get (VoiceReceiver.pcmStreams st) user);
    reflexivity.
Qed.

Lemma handlePacket_no_notifications (prim : VoiceReceiver.Primitives)
    (conn : VoiceReceiver.VoiceConnection) (msg : Buffer.t)
    (user : VoiceReceiver.UserId) (st : VoiceReceiver.state) (ssrc : Z) :
  VoiceReceiver.notifications ssrc
    (snd (VoiceReceiver.handlePacket prim conn msg user st)) = [].
Proof.
  unfold VoiceReceiver.handlePacket.
  destruct (VoiceReceiver.chooseNonce _ _ msg) as [[nonce' end_]|]; [|reflexivity].
  destruct (VoiceReceiver.secretbox_open prim _ nonce' _) as [data|]; [|reflexivity].
  destruct (VoiceReceiver.stripExtensions data) as [frame|]; [|reflexivity].
  pose proof (fanOut_no_notifications prim frame user
                (VoiceReceiver.with_nonce nonce' st) ssrc) as H.
  destruct (VoiceReceiver.fanOut prim frame user _) as [[c st'] ev].
  exact H.
Qed.

Lemma readUInt32BE_readUInt8 (msg : Buffer.t) (ssrc : Z) :
  Buffer.readUInt32BE msg 8 = Some ssrc ->
  exists packageType, Buffer.readUInt8 msg 0 = Some packageType.
Proof.
  unfold Buffer.readUInt32BE, Buffer.readUInt8.
  destruct msg as [|b0 msg]; [discriminate|].
  intros _. exists b0. reflexivity.
Qed.

Lemma ssrc_get_set_same {V} (m : JsMap.t Z V) (k : Z) (v : V) :
  VoiceReceiver.ssrc_get (VoiceReceiver.ssrc_set m k v) k = Some v.
Proof. apply (get_set_same Z.eqb z_eqb_eq). Qed.

Lemma ssrc_get_set_other {V} (m : JsMap.t Z V) (k k' : Z) (v : V) :
  k' <> k ->
  VoiceReceiver.ssrc_get (VoiceReceiver.ssrc_set m k v) k' = VoiceReceiver.ssrc_get m k'.
Proof. apply (get_set_other Z.eqb z_eqb_eq). Qed.

Lemma ssrc_get_delete_same {V} (m : JsMap.t Z V) (k : Z) :
  VoiceReceiver.ssrc_get (VoiceReceiver.ssrc_delete m k) k = None.
Proof. apply (get_delete_same Z.eqb). Qed.

Lemma ssrc_get_delete_other {V} (m : JsMap.t Z V) (k k' : Z) :
  k' <> k ->
  VoiceReceiver.ssrc_get (VoiceReceiver.ssrc_delete m k) k' = VoiceReceiver.ssrc_get m k'.
Proof. apply (get_delete_other Z.eqb z_eqb_eq). Qed.

(** One delivery of a datagram of a known source to a receiver whose
    listener is registered once, when the start notification is accepted
    (or none is due, the source having an entry): the source's timeout is
    armed for 70 ms from now, and a start is notified, for the user of the
    source, exactly when there was no entry. *)
Lemma emitMessage_speaking (prim : VoiceReceiver.Primitives)
    (conn : VoiceReceiver.VoiceConnection) (now : Z) (msg : Buffer.t)
    (st : VoiceReceiver.state) (ssrc : Z) (user : VoiceReceiver.UserId) :
  Buffer.readUInt32BE msg 8 = Some ssrc ->
  VoiceReceiver.ssrcMap conn ssrc = Some user ->
  match VoiceReceiver.ssrc_get (VoiceReceiver.speakingTimeouts st) ssrc with
  | Some entry => VoiceReceiver.delay (VoiceReceiver.timer entry) = 70
                  /\ VoiceReceiver.user_id entry = user
  | None => VoiceReceiver.onSpeakingThrows conn user ssrc true = false
  end ->
  exists c st' ev,
    VoiceReceiver.emitMessage prim 1 conn now msg st = (c, st', ev)
    /\ VoiceReceiver.socketListeners st' = VoiceReceiver.socketListeners st
    /\ VoiceReceiver.ssrc_get (VoiceReceiver.speakingTimeouts st') ssrc
       = Some (speakingSince now user)
    /\ VoiceReceiver.notifications ssrc ev
       = match VoiceReceiver.ssrc_get (VoiceReceiver.speakingTimeouts st) ssrc with
         | Some _ => []
         | None => [(user, true)]
         end.
Proof.
  intros Hssrc Huser Hentry.
  destruct (readUInt32BE_readUInt8 msg ssrc Hssrc) as [packageType Htype].
  cbn [VoiceReceiver.emitMessage]. unfold VoiceReceiver._listener.
  rewrite Htype, Hssrc, Huser.
  set (st0 := VoiceReceiver.touchDisconnectTimer now st).
  assert (Hst0 : VoiceReceiver.speakingTimeouts st0 = VoiceReceiver.speakingTimeouts st
                 /\ VoiceReceiver.socketListeners st0 = VoiceReceiver.socketListeners st).
  { unfold st0, VoiceReceiver.touchDisconnectTimer.
    destruct (VoiceReceiver.disconnectTimer st); split; reflexivity. }
  destruct Hst0 as [Htab Hsock]. rewrite Htab.
  destruct (VoiceReceiver.ssrc_get (VoiceReceiver.speakingTimeouts st) ssrc)
    as [entry|] eqn:Hget.
  - destruct Hentry as [Hdelay Hu].
    match goal with
    | |- context [VoiceReceiver.handlePacket prim conn msg user ?s] =>
        pose proof (handlePacket_no_notifications prim conn msg user s ssrc) as Hno;
        destruct (VoiceReceiver.handlePacket prim conn msg user s)
          as [[c st'] ev] eqn:Hh
    end.
    apply handlePacket_keeps in Hh.
    destruct Hh as (_ & _ & _ & Htab' & _ & _ & _ & Hsock').
    simpl in Hno, Htab', Hsock'.
    exists c, st', ev.
    split; [destruct c; simpl; rewrite ?app_nil_r; reflexivity|].
    split; [congruence|].
    split.
    + rewrite Htab', ssrc_get_set_same. unfold speakingSince, VoiceReceiver.refresh.
      rewrite Hdelay, Hu. reflexivity.
    + exact Hno.
  - rewrite Hentry.
    match goal with
    | |- context [VoiceReceiver.handlePacket prim conn msg user ?s] =>
        pose proof (handlePacket_no_notifications prim conn msg user s ssrc) as Hno;
        destruct (VoiceReceiver.handlePacket prim conn msg user s)
          as [[c st'] ev] eqn:Hh
    end.
    apply handlePacket_keeps in Hh.
    destruct Hh as (_ & _ & _ & Htab' & _ & _ & _ & Hsock').
    simpl in Hno, Htab', Hsock'.
    exists c, st', (VoiceReceiver.OnSpeaking user ssrc true :: ev).
    split; [destruct c; simpl; rewrite ?app_nil_r; reflexivity|].
    split; [congruence|].
    split.
    + rewrite Htab', ssrc_get_set_same. reflexivity.
    + simpl. rewrite Z.eqb_refl, Hno. reflexivity.
Qed.

(** The same delivery when the source has no entry and the start
    notification throws: the exception leaves the listener after the
    notification, before the timeout is created and before
    [handlePacket]. *)
Lemma emitMessage_rejected (prim : VoiceReceiver.Primitives)
    (conn : VoiceReceiver.VoiceConnection) (now : Z) (msg : Buffer.t)
    (st : VoiceReceiver.state) (ssrc : Z) (user : VoiceReceiver.UserId) :
  Buffer.readUInt32BE msg 8 = Some ssrc ->
  VoiceReceiver.ssrcMap conn ssrc = Some user ->
  VoiceReceiver.ssrc_get (VoiceReceiver.speakingTimeouts st) ssrc = None ->
  VoiceReceiver.onSpeakingThrows conn user ssrc true = true ->
  VoiceReceiver.emitMessage prim 1 conn now msg st
  = (VoiceReceiver.Throw "onSpeaking", VoiceReceiver.touchDisconnectTimer now st,
     [VoiceReceiver.OnSpeaking user ssrc true]).
Proof.
  intros Hssrc Huser Hget Hthrows.
  destruct (readUInt32BE_readUInt8 msg ssrc Hssrc) as [packageType Htype].
  cbn [VoiceReceiver.emitMessage]. unfold VoiceReceiver._listener.
  rewrite Htype, Hssrc, Huser.
  assert (Htab : VoiceReceiver.speakingTimeouts
                   (VoiceReceiver.touchDisconnectTimer now st)
                 = VoiceReceiver.speakingTimeouts st).
  { unfold VoiceReceiver.touchDisconnectTimer.
    destruct (VoiceReceiver.disconnectTimer st); reflexivity. }
  rewrite Htab, Hget, Hthrows. reflexivity.
Qed.

Lemma fireIfDue_other (conn : VoiceReceiver.VoiceConnection) (now : Z)
    (st : VoiceReceiver.state) (ssrc other : Z) :
  other <> ssrc ->
  forall st' ev,
    VoiceReceiver.fireIfDue conn now st other = (st', ev) ->
    VoiceReceiver.ssrc_get (VoiceReceiver.speakingTimeouts st') ssrc
    = VoiceReceiver.ssrc_get (VoiceReceiver.speakingTimeouts st) ssrc
    /\ VoiceReceiver.socketListeners st' = VoiceReceiver.socketListeners st
    /\ VoiceReceiver.notifications ssrc ev = [].
Proof.
  intros Hne st' ev. unfold VoiceReceiver.fireIfDue, VoiceReceiver.speakingTimeoutFired.
  destruct (VoiceReceiver.ssrc_get (VoiceReceiver.speakingTimeouts st) other)
    as [entry|]; [|intros H; inversion H; subst; auto].
  destruct (VoiceReceiver.due now (VoiceReceiver.timer entry));
    [|intros H; inversion H; subst; auto].
  apply Z.eqb_neq in Hne.
  destruct (VoiceReceiver.onSpeakingThrows conn _ other false);
    intros H; inversion H; subst; simpl; rewrite Hne;
    apply Z.eqb_neq in Hne.
  - rewrite ssrc_get_set_other by congruence. auto.
  - rewrite ssrc_get_delete_other by congruence. auto.
Qed.

Lemma fireIfDue_notDue (conn : VoiceReceiver.VoiceConnection) (now : Z)
    (st : VoiceReceiver.state) (ssrc : Z) :
  notDue now st ssrc ->
  VoiceReceiver.fireIfDue conn now st ssrc = (st, []).
Proof.
  unfold notDue, VoiceReceiver.fireIfDue.
  destruct (VoiceReceiver.ssrc_get (VoiceReceiver.speakingTimeouts st) ssrc);
    [intros ->|]; reflexivity.
Qed.

Lemma disconnectTimer_step (now : Z) (st : VoiceReceiver.state) (ssrc : Z) :
  forall st' ev,
    match VoiceReceiver.disconnectTimer st with
    | Some t => if VoiceReceiver.due now t
                then VoiceReceiver.disconnectTimerFired st else (st, [])
    | None => (st, [])
    end = (st', ev) ->
    VoiceReceiver.speakingTimeouts st' = VoiceReceiver.speakingTimeouts st
    /\ VoiceReceiver.socketListeners st' = VoiceReceiver.socketListeners st
    /\ VoiceReceiver.notifications ssrc ev = [].
Proof.
  intros st' ev. unfold VoiceReceiver.disconnectTimerFired.
  destruct (VoiceReceiver.disconnectTimer st) as [t|];
    [destruct (VoiceReceiver.due now t);
     [destruct (negb (VoiceReceiver.destroyed st))|]|];
    intros H; inversion H; subst; auto.
Qed.

(** A timer other than the source's own leaves the source alone. *)
Lemma fireTimer_other (conn : VoiceReceiver.VoiceConnection) (now : Z)
    (st : VoiceReceiver.state) (ssrc : Z) (id : VoiceReceiver.TimerId) :
  id <> VoiceReceiver.SpeakingTimer ssrc ->
  forall st' ev,
    VoiceReceiver.fireTimer conn now st id = (st', ev) ->
    VoiceReceiver.ssrc_get (VoiceReceiver.speakingTimeouts st') ssrc
    = VoiceReceiver.ssrc_get (VoiceReceiver.speakingTimeouts st) ssrc
    /\ VoiceReceiver.socketListeners st' = VoiceReceiver.socketListeners st
    /\ VoiceReceiver.notifications ssrc ev = [].
Proof.
  intros Hne st' ev. destruct id as [other|]; cbn [VoiceReceiver.fireTimer].
  - apply fireIfDue_other. congruence.
  - intros H. destruct (disconnectTimer_step now st ssrc st' ev H) as (Ht & Hs & Hn).
    rewrite Ht. auto.
Qed.

Lemma timerId_eq_dec (a b : VoiceReceiver.TimerId) : {a = b} + {a <> b}.
Proof.
  destruct a as [x|], b as [y|];
    try (right; discriminate); try (left; reflexivity).
  destruct (Z.eq_dec x y) as [->|Hne]; [left; reflexivity|right; congruence].
Qed.

(** Running timers leaves a source alone whose own timeout is not due. *)
Lemma fireTimers_notDue (conn : VoiceReceiver.VoiceConnection) (now : Z)
    (ids : list VoiceReceiver.TimerId) (st : VoiceReceiver.state) (ssrc : Z) :
  notDue now st ssrc ->
  forall st' ev,
    VoiceReceiver.fireTimers conn now ids st = (st', ev) ->
    VoiceReceiver.ssrc_get (VoiceReceiver.speakingTimeouts st') ssrc
    = VoiceReceiver.ssrc_get (VoiceReceiver.speakingTimeouts st) ssrc
    /\ VoiceReceiver.socketListeners st' = VoiceReceiver.socketListeners st
    /\ VoiceReceiver.notifications ssrc ev = [].
Proof.
  revert st. induction ids as [|id ids IH]; intros st Hq st' ev;
    cbn [VoiceReceiver.fireTimers].
  - intros H; inversion H; subst. auto.
  - destruct (timerId_eq_dec id (VoiceReceiver.SpeakingTimer ssrc)) as [->|Hne].
    + cbn [VoiceReceiver.fireTimer].
      rewrite (fireIfDue_notDue conn now st ssrc Hq).
      destruct (VoiceReceiver.fireTimers conn now ids st) as [st2 ev2] eqn:Hall.
      intros H; inversion H; subst.
      exact (IH st Hq _ _ Hall).
    + destruct (VoiceReceiver.fireTimer conn now st id) as [st1 ev1] eqn:Hone.
      destruct (fireTimer_other conn now st ssrc id Hne _ _ Hone)
        as (Hget1 & Hsock1 & Hno1).
      destruct (VoiceReceiver.fireTimers conn now ids st1) as [st2 ev2] eqn:Hall.
      intros H; inversion H; subst.
      assert (Hq1 : notDue now st1 ssrc) by (unfold notDue in *; rewrite Hget1; exact Hq).
      destruct (IH st1 Hq1 _ _ Hall) as (Hget2 & Hsock2 & Hno2).
      rewrite notifications_app, Hno1, Hno2.
      repeat split; congruence.
Qed.

(** A timeout that is due runs once: the stop is notified, for the user the
    timeout was created for, and the entry is gone, or, if the notification
    threw, kept and no longer armed. *)
Lemma fireTimers_due (conn : VoiceReceiver.VoiceConnection) (now : Z)
    (ids : list VoiceReceiver.TimerId) (st : VoiceReceiver.state) (ssrc : Z)
    (entry : VoiceReceiver.SpeakingTimeout) :
  VoiceReceiver.ssrc_get (VoiceReceiver.speakingTimeouts st) ssrc = Some entry ->
  VoiceReceiver.due now (VoiceReceiver.timer entry) = true ->
  In (VoiceReceiver.SpeakingTimer ssrc) ids ->
  forall st' ev,
    VoiceReceiver.fireTimers conn now ids st = (st', ev) ->
    VoiceReceiver.ssrc_get (VoiceReceiver.speakingTimeouts st') ssrc
    = (if VoiceReceiver.onSpeakingThrows conn (VoiceReceiver.user_id entry) ssrc false
       then Some {| VoiceReceiver.timer :=
                      VoiceReceiver.clearTimeout (VoiceReceiver.timer entry);
                    VoiceReceiver.user_id := VoiceReceiver.user_id entry |}
       else None)
    /\ VoiceReceiver.socketListeners st' = VoiceReceiver.socketListeners st
    /\ VoiceReceiver.notifications ssrc ev = [(VoiceReceiver.user_id entry, false)].
Proof.
  revert st. induction ids as [|id ids IH];
    intros st Hget Hdue Hin st' ev; cbn [VoiceReceiver.fireTimers]; [contradiction|].
  destruct (timerId_eq_dec id (VoiceReceiver.SpeakingTimer ssrc)) as [->|Hne].
  - cbn [VoiceReceiver.fireTimer].
    unfold VoiceReceiver.fireIfDue, VoiceReceiver.speakingTimeoutFired.
    rewrite Hget, Hdue.
    destruct (VoiceReceiver.onSpeakingThrows conn (VoiceReceiver.user_id entry)
                ssrc false) eqn:Hthrows;
      match goal with
      | |- context [VoiceReceiver.fireTimers conn now ids ?s] =>
          destruct (VoiceReceiver.fireTimers conn now ids s) as [st2 ev2] eqn:Hall;
          assert (Hq : notDue now s ssrc)
            by (unfold notDue; simpl;
                rewrite ?ssrc_get_delete_same, ?ssrc_get_set_same;
                try exact I; reflexivity);
          destruct (fireTimers_notDue conn now ids s ssrc Hq _ _ Hall)
            as (Hget2 & Hsock2 & Hno2)
      end;
      intros H; inversion H; subst;
      simpl in Hget2, Hsock2;
      rewrite ?ssrc_get_delete_same, ?ssrc_get_set_same in Hget2;
      simpl; rewrite Z.eqb_refl, Hno2; auto.
  - destruct Hin as [Heq|Hin]; [congruence|].
    destruct (VoiceReceiver.fireTimer conn now st id) as [st1 ev1] eqn:Hone.
    destruct (fireTimer_other conn now st ssrc id Hne _ _ Hone)
      as (Hget1 & Hsock1 & Hno1).
    destruct (VoiceReceiver.fireTimers conn now ids st1) as [st2 ev2] eqn:Hall.
    intros H; inversion H; subst.
    rewrite <- Hget1 in Hget.
    destruct (IH st1 Hget Hdue Hin _ _ Hall) as (Hget2 & Hsock2 & Hno2).
    rewrite notifications_app, Hno1, Hno2.
    repeat split; congruence.
Qed.

(** Ordering the timers by deadline keeps them all. *)
Lemma In_insertByDeadline (st : VoiceReceiver.state) (x id : VoiceReceiver.TimerId)
    (ids : list VoiceReceiver.TimerId) :
  In x (VoiceReceiver.insertByDeadline st id ids) <-> x = id \/ In x ids.
Proof.
  induction ids as [|other ids IH]; cbn [VoiceReceiver.insertByDeadline].
  - simpl. intuition.
  - destruct (_ <=? _); simpl in *; intuition.
Qed.

Lemma In_byDeadline (st : VoiceReceiver.state) (x : VoiceReceiver.TimerId)
    (ids : list VoiceReceiver.TimerId) :
  In x (VoiceReceiver.byDeadline st ids) <-> In x ids.
Proof.
  unfold VoiceReceiver.byDeadline.
  induction ids as [|id ids IH]; simpl; [tauto|].
  rewrite In_insertByDeadline, IH. intuition.
Qed.

Lemma speakingTimer_listed (st : VoiceReceiver.state) (ssrc : Z)
    (entry : VoiceReceiver.SpeakingTimeout) :
  VoiceReceiver.ssrc_get (VoiceReceiver.speakingTimeouts st) ssrc = Some entry ->
  In (VoiceReceiver.SpeakingTimer ssrc)
     (VoiceReceiver.byDeadline st (VoiceReceiver.timerIds st)).
Proof.
  intros Hget. apply In_byDeadline. unfold VoiceReceiver.timerIds.
  apply in_or_app. left. apply in_map.
  exact (get_Some_in_keys Z.eqb z_eqb_eq _ _ _ Hget).
Qed.

(** The timers due at [now], for one source: a timeout that is due is run,
    with its stop notification; otherwise nothing happens to the source. *)
Lemma advance_speaking (conn : VoiceReceiver.VoiceConnection) (now : Z)
    (st : VoiceReceiver.state) (ssrc : Z) :
  exists st' ev,
    VoiceReceiver.advance conn now st = (st', ev)
    /\ VoiceReceiver.socketListeners st' = VoiceReceiver.socketListeners st
    /\ match VoiceReceiver.ssrc_get (VoiceReceiver.speakingTimeouts st) ssrc with
       | Some entry =>
           if VoiceReceiver.due now (VoiceReceiver.timer entry)
           then VoiceReceiver.ssrc_get (VoiceReceiver.speakingTimeouts st') ssrc
                = (if VoiceReceiver.onSpeakingThrows conn
                        (VoiceReceiver.user_id entry) ssrc false
                   then Some {| VoiceReceiver.timer :=
                                  VoiceReceiver.clearTimeout (VoiceReceiver.timer entry);
                                VoiceReceiver.user_id := VoiceReceiver.user_id entry |}
                   else None)
                /\ VoiceReceiver.notifications ssrc ev
                   = [(VoiceReceiver.user_id entry, false)]
           else VoiceReceiver.ssrc_get (VoiceReceiver.speakingTimeouts st') ssrc
                = Some entry
                /\ VoiceReceiver.notifications ssrc ev = []
       | None =>
           VoiceReceiver.ssrc_get (VoiceReceiver.speakingTimeouts st') ssrc = None
           /\ VoiceReceiver.notifications ssrc ev = []
       end.
Proof.
  unfold VoiceReceiver.advance.
  set (ids := VoiceReceiver.byDeadline st (VoiceReceiver.timerIds st)).
  destruct (VoiceReceiver.fireTimers conn now ids st) as [st2 ev2] eqn:Hall.
  exists st2, ev2. split; [reflexivity|].
  destruct (VoiceReceiver.ssrc_get (VoiceReceiver.speakingTimeouts st) ssrc)
    as [entry|] eqn:Hget.
  - destruct (VoiceReceiver.due now (VoiceReceiver.timer entry)) eqn:Hdue.
    + destruct (fireTimers_due conn now ids st ssrc entry Hget Hdue
                  (speakingTimer_listed st ssrc entry Hget) _ _ Hall)
        as (Hget2 & Hsock2 & Hno2).
      split; [exact Hsock2|]. split; assumption.
    + assert (Hq : notDue now st ssrc) by (unfold notDue; rewrite Hget; exact Hdue).
      destruct (fireTimers_notDue conn now ids st ssrc Hq _ _ Hall)
        as (Hget2 & Hsock2 & Hno2).
      split; [exact Hsock2|]. split; [congruence|assumption].
  - assert (Hq : notDue now st ssrc) by (unfold notDue; rewrite Hget; exact I).
    destruct (fireTimers_notDue conn now ids st ssrc Hq _ _ Hall)
      as (Hget2 & Hsock2 & Hno2).
    split; [exact Hsock2|]. split; [congruence|assumption].
Qed.

Lemma afterGaps_longGaps (resumed : bool) (previous : Z) (times : list Z) :
  afterGaps resumed previous times
  = List.concat (repeat (false :: (if resumed then [true] else []))
                        (longGaps previous times)).
Proof.
  revert previous. induction times as [|t rest IH]; intros previous; simpl;
    [reflexivity|].
  rewrite IH. destruct (70 <=? t - previous); reflexivity.
Qed.

Lemma closerThan70_longGaps (previous : Z) (times : list Z) :
  closerThan70 previous times -> longGaps previous times = O.
Proof.
  revert previous. induction times as [|t rest IH]; intros previous; simpl;
    [reflexivity|].
  intros [Hlt Hrest].
  destruct (70 <=? t - previous) eqn:E; [apply Z.leb_le in E; lia|].
  apply IH, Hrest.
Qed.

Lemma last_cons {A} (a d : A) (l : list A) : last (a :: l) d = last l a.
Proof.
  revert a d. induction l as [|b l IH]; intros a d; [reflexivity|].
  change (last (a :: b :: l) d) with (last (b :: l) d).
  rewrite (IH b d), (IH b a). reflexivity.
Qed.

Lemma named_concat_repeat (user : VoiceReceiver.UserId) (block : list bool)
    (n : nat) :
  map (pair user) (List.concat (repeat block n))
  = List.concat (repeat (map (pair user) block) n).
Proof.
  induction n as [|n IH]; simpl; [reflexivity|].
  rewrite map_app, IH. reflexivity.
Qed.

(** The run from a receiver on which the source is speaking since
    [previous]. *)
Lemma run_while_speaking (prim : VoiceReceiver.Primitives)
    (conn : VoiceReceiver.VoiceConnection) (ssrc : Z) (user : VoiceReceiver.UserId) :
  VoiceReceiver.ssrcMap conn ssrc = Some user ->
  VoiceReceiver.onSpeakingThrows conn user ssrc true = false ->
  forall datagrams previous st,
    VoiceReceiver.socketListeners st = 1%nat ->
    VoiceReceiver.ssrc_get (VoiceReceiver.speakingTimeouts st) ssrc
    = Some (speakingSince previous user) ->
    (forall d, In d datagrams -> Buffer.readUInt32BE (snd d) 8 = Some ssrc) ->
    inOrder previous (map fst datagrams) ->
    VoiceReceiver.notifications ssrc
      (snd (VoiceReceiver.run prim conn datagrams st))
    = map (pair user)
        (afterGaps (negb (VoiceReceiver.onSpeakingThrows conn user ssrc false))
           previous (map fst datagrams))
    /\ VoiceReceiver.ssrc_get
         (VoiceReceiver.speakingTimeouts
            (fst (VoiceReceiver.run prim conn datagrams st))) ssrc
       = Some (speakingSince (last (map fst datagrams) previous) user).
Proof.
  intros Huser Hok.
  induction datagrams as [|[now msg] datagrams IH];
    intros previous st Hsock Hget Hssrc Horder; [split; [reflexivity|exact Hget]|].
  cbn [VoiceReceiver.run map fst afterGaps].
  destruct Horder as [Hle Horder].
  destruct (advance_speaking conn now st ssrc) as (st1 & ev1 & Hadv & Hsock1 & Hcase).
  rewrite Hadv, Hsock1, Hsock. rewrite Hget in Hcase.
  assert (Hdue : VoiceReceiver.due now (VoiceReceiver.timer (speakingSince previous user))
                 = (70 <=? now - previous)).
  { unfold VoiceReceiver.due, speakingSince. simpl.
    destruct (previous + 70 <=? now) eqn:E1; destruct (70 <=? now - previous) eqn:E2;
      try reflexivity;
      rewrite ?Z.leb_le, ?Z.leb_gt in *; lia. }
  rewrite Hdue in Hcase.
  change (VoiceReceiver.user_id (speakingSince previous user)) with user in Hcase.
  assert (Hmsg : Buffer.readUInt32BE msg 8 = Some ssrc)
    by (apply (Hssrc (now, msg)); left; reflexivity).
  destruct (emitMessage_speaking prim conn now msg st1 ssrc user Hmsg Huser)
    as (c & st2 & ev2 & Hemit & Hsock2 & Hget2 & Hno2).
  { destruct (70 <=? now - previous); destruct Hcase as [Hg _]; rewrite Hg;
      [|split; reflexivity].
    destruct (VoiceReceiver.onSpeakingThrows conn user ssrc false);
      [split; reflexivity|exact Hok]. }
  rewrite Hemit.
  destruct (IH now st2 ltac:(congruence) Hget2
              (fun d Hd => Hssrc d (or_intror Hd)) Horder) as [IHnotes IHentry].
  destruct (VoiceReceiver.run prim conn datagrams st2) as [st3 ev3].
  cbn [fst snd] in *.
  rewrite last_cons. split; [|exact IHentry].
  rewrite !notifications_app, Hno2, IHnotes, map_app.
  destruct (70 <=? now - previous); destruct Hcase as [Hg Hno1];
    rewrite Hno1, Hg; [|reflexivity].
  destruct (VoiceReceiver.onSpeakingThrows conn user ssrc false); reflexivity.
Qed.

(** The run from a receiver that has no entry for the source, when the
    start notification throws: the entry is never created. *)
Lemma run_while_rejected (prim : VoiceReceiver.Primitives)
    (conn : VoiceReceiver.VoiceConnection) (ssrc : Z) (user : VoiceReceiver.UserId) :
  VoiceReceiver.ssrcMap conn ssrc = Some user ->
  VoiceReceiver.onSpeakingThrows conn user ssrc true = true ->
  forall datagrams st,
    VoiceReceiver.socketListeners st = 1%nat ->
    VoiceReceiver.ssrc_get (VoiceReceiver.speakingTimeouts st) ssrc = None ->
    (forall d, In d datagrams -> Buffer.readUInt32BE (snd d) 8 = Some ssrc) ->
    VoiceReceiver.notifications ssrc
      (snd (VoiceReceiver.run prim conn datagrams st))
    = repeat (user, true) (List.length datagrams)
    /\ VoiceReceiver.ssrc_get
         (VoiceReceiver.speakingTimeouts
            (fst (VoiceReceiver.run prim conn datagrams st))) ssrc
       = None.
Proof.
  intros Huser Hthrows.
  induction datagrams as [|[now msg] datagrams IH];
    intros st Hsock Hget Hssrc; [split; [reflexivity|exact Hget]|].
  cbn [VoiceReceiver.run].
  destruct (advance_speaking conn now st ssrc) as (st1 & ev1 & Hadv & Hsock1 & Hcase).
  rewrite Hadv, Hsock1, Hsock. rewrite Hget in Hcase.
  destruct Hcase as [Hget1 Hno1].
  assert (Hmsg : Buffer.readUInt32BE msg 8 = Some ssrc)
    by (apply (Hssrc (now, msg)); left; reflexivity).
  rewrite (emitMessage_rejected prim conn now msg st1 ssrc user Hmsg Huser Hget1
             Hthrows).
  assert (Htouch : VoiceReceiver.speakingTimeouts
                     (VoiceReceiver.touchDisconnectTimer now st1)
                   = VoiceReceiver.speakingTimeouts st1
                   /\ VoiceReceiver.socketListeners
                        (VoiceReceiver.touchDisconnectTimer now st1)
                      = VoiceReceiver.socketListeners st1).
  { unfold VoiceReceiver.touchDisconnectTimer.
    destruct (VoiceReceiver.disconnectTimer st1); split; reflexivity. }
  destruct Htouch as [Htab Hs].
  destruct (IH (VoiceReceiver.touchDisconnectTimer now st1)
              ltac:(congruence) ltac:(rewrite Htab; exact Hget1)
              (fun d Hd => Hssrc d (or_intror Hd))) as [IHnotes IHentry].
  destruct (VoiceReceiver.run prim conn datagrams
              (VoiceReceiver.touchDisconnectTimer now st1)) as [st3 ev3].
  cbn [fst snd] in *. split; [|exact IHentry].
  rewrite !notifications_app, Hno1, IHnotes.
  cbn [VoiceReceiver.notifications app List.length repeat].
  rewrite Z.eqb_refl. reflexivity.
Qed.

(** C3, as amended.  A receiver whose listener is registered and that has
    no speaking timeout for a source receives datagrams of that source,
    which resolves to a user, at times that do not go back.  Every
    notification for the source names that user.  When the connection
    accepts the start notification, the notifications are: a start at the
    first datagram; for each datagram that comes 70 ms or more after the
    one before it, one stop, followed by a start when the stop notification
    was accepted; and nothing else; if all datagrams are less than 70 ms
    apart, the start is the only notification; and after the datagrams the
    source's timeout is armed for 70 ms from the last of them.  When the
    start notification throws, no timeout is created, and every datagram
    that the host still delivers after the exception notifies a start
    again. *)
Theorem speaking_notifications_follow_gaps (prim : VoiceReceiver.Primitives)
    (conn : VoiceReceiver.VoiceConnection) (ssrc : Z) (user : VoiceReceiver.UserId)
    (first : Z) (msg : Buffer.t) (datagrams : list (Z * Buffer.t))
    (st : VoiceReceiver.state) :
  VoiceReceiver.socketListeners st = 1%nat ->
  VoiceReceiver.ssrc_get (VoiceReceiver.speakingTimeouts st) ssrc = None ->
  VoiceReceiver.ssrcMap conn ssrc = Some user ->
  (forall d, In d ((first, msg) :: datagrams) ->
             Buffer.readUInt32BE (snd d) 8 = Some ssrc) ->
  inOrder first (map fst datagrams) ->
  let result := VoiceReceiver.run prim conn ((first, msg) :: datagrams) st in
  let notes := VoiceReceiver.notifications ssrc (snd result) in
  let entry := VoiceReceiver.ssrc_get
                 (VoiceReceiver.speakingTimeouts (fst result)) ssrc in
  let stopThrows := VoiceReceiver.onSpeakingThrows conn user ssrc false in
  if VoiceReceiver.onSpeakingThrows conn user ssrc true
  then notes = repeat (user, true) (S (List.length datagrams))
       /\ entry = None
  else
    notes = (user, true)
            :: List.concat
                 (repeat ((user, false) :: (if stopThrows then [] else [(user, true)]))
                    (longGaps first (map fst datagrams)))
    /\ (stopThrows = false ->
        notes = map (pair user) (speakingSpec (first :: map fst datagrams)))
    /\ (closerThan70 first (map fst datagrams) -> notes = [(user, true)])
    /\ entry = Some (speakingSince (last (map fst datagrams) first) user).
Proof.
  intros Hsock Hget Huser Hssrc Horder result notes entry stopThrows.
  destruct (VoiceReceiver.onSpeakingThrows conn user ssrc true) eqn:Hstart.
  - exact (run_while_rejected prim conn ssrc user Huser Hstart
             ((first, msg) :: datagrams) st Hsock Hget Hssrc).
  - assert (Hrun : notes = (user, true)
                           :: map (pair user)
                                (afterGaps (negb stopThrows) first (map fst datagrams))
                   /\ entry
                      = Some (speakingSince (last (map fst datagrams) first) user)).
    { unfold notes, entry, result. cbn [VoiceReceiver.run].
      destruct (advance_speaking conn first st ssrc)
        as (st1 & ev1 & Hadv & Hsock1 & Hcase).
      rewrite Hadv, Hsock1, Hsock. rewrite Hget in Hcase.
      destruct Hcase as [Hget1 Hno1].
      assert (Hmsg : Buffer.readUInt32BE msg 8 = Some ssrc)
        by (apply (Hssrc (first, msg)); left; reflexivity).
      destruct (emitMessage_speaking prim conn first msg st1 ssrc user Hmsg Huser)
        as (c & st2 & ev2 & Hemit & Hsock2 & Hget2 & Hno2).
      { rewrite Hget1. exact Hstart. }
      rewrite Hemit. rewrite Hget1 in Hno2.
      destruct (run_while_speaking prim conn ssrc user Huser Hstart datagrams first
                  st2 ltac:(congruence) Hget2 (fun d Hd => Hssrc d (or_intror Hd))
                  Horder)
        as [Hnotes Hentry].
      destruct (VoiceReceiver.run prim conn datagrams st2) as [st3 ev3].
      cbn [fst snd] in *.
      split; [|exact Hentry].
      rewrite !notifications_app, Hno1, Hno2, Hnotes. reflexivity. }
    destruct Hrun as [Hnotes Hentry].
    split; [|split; [|split]].
    + rewrite Hnotes, afterGaps_longGaps, named_concat_repeat.
      destruct stopThrows; reflexivity.
    + intros Hstop. rewrite Hnotes, Hstop. reflexivity.
    + intros Hclose. rewrite Hnotes, afterGaps_longGaps.
      rewrite (closerThan70_longGaps _ _ Hclose). reflexivity.
    + exact Hentry.
Qed.

Lemma speaking_notifications_follow_gaps_witness :
  VoiceReceiver.notifications 5
    (snd (VoiceReceiver.run plainPrimitives (sessionIn "xsalsa20_poly1305")
            threeDatagrams receiver0))
  = [("alice"%string, true); ("alice"%string, false); ("alice"%string, true)].
Proof.
  destruct (speaking_notifications_follow_gaps plainPrimitives
              (sessionIn "xsalsa20_poly1305") 5 "alice"%string 0 datagram5
              [(20, datagram5); (120, datagram5)] receiver0)
    as [H _].
  - reflexivity.
  - reflexivity.
  - reflexivity.
  - intros d [<-|[<-|[<-|[]]]]; reflexivity.
  - simpl. lia.
  - exact H.
Defined.

(** C3, as stated, fails: when the connection throws at the start
    notification and the host goes on after the exception, three datagrams
    of one source, 20 ms apart, give three start notifications, not
    one. *)
Lemma speaking_start_counterexample :
  ~ (forall conn ssrc user first msg datagrams st,
       VoiceReceiver.socketListeners st = 1%nat ->
       VoiceReceiver.ssrc_get (VoiceReceiver.speakingTimeouts st) ssrc = None ->
       VoiceReceiver.ssrcMap conn ssrc = Some user ->
       (forall d, In d ((first, msg) :: datagrams) ->
                  Buffer.readUInt32BE (snd d) 8 = Some ssrc) ->
       inOrder first (map fst datagrams) ->
       closerThan70 first (map fst datagrams) ->
       VoiceReceiver.notifications ssrc
         (snd (VoiceReceiver.run plainPrimitives conn ((first, msg) :: datagrams) st))
       = [(user, true)]).
Proof.
  intros H.
  specialize (H sessionThatRejectsStarts 5 "alice"%string 0 datagram5
                [(20, datagram5); (40, datagram5)] receiver0
                eq_refl eq_refl eq_refl).
  assert (Hall : forall d,
             In d [(0, datagram5); (20, datagram5); (40, datagram5)] ->
             Buffer.readUInt32BE (snd d) 8 = Some 5)
    by (intros d [<-|[<-|[<-|[]]]]; reflexivity).
  specialize (H Hall ltac:(simpl; lia) ltac:(simpl; lia)).
  vm_compute in H. discriminate.
Qed.

(** ** Sending on the control channel *)

Lemma transportOpen_false (st : VoiceWebSocket.state) :
  VoiceWebSocket.transportOpen st = false
  <-> (VoiceWebSocket.ws st = None
       \/ exists w, VoiceWebSocket.ws st = Some w
                    /\ VoiceWebSocket.readyStateOf st w <> Some VoiceWebSocket.OPEN).
Proof.
  unfold VoiceWebSocket.transportOpen.
  destruct (VoiceWebSocket.ws st) as [w|]; [|intuition].
  destruct (VoiceWebSocket.readyStateOf st w) as [[| | |]|] eqn:E;
    split; try reflexivity; try discriminate;
    try (intros _; right; exists w; split; [reflexivity|congruence]).
  intros [H|(w' & Hw & Hr)]; [discriminate|].
  inversion Hw; subst. congruence.
Qed.

(** C10.  [sendPacket] on a packet that cannot be serialized returns a
    promise rejected with the serializer's error and sends nothing.  [send]
    with no socket, or with a socket that is not open, returns a rejected
    promise and sends nothing.  Whatever [send] or [sendPacket] hands to a
    socket, it hands to the socket that is held and open. *)
Theorem send_only_to_open_transport (json : VoiceWebSocket.Json) :
  (forall packet st error,
      VoiceWebSocket.JSON_stringify json packet = inr error ->
      VoiceWebSocket.sendPacket json packet st = (VoiceWebSocket.Rejected error, []))
  /\ (forall data st,
        (VoiceWebSocket.ws st = None
         \/ exists w, VoiceWebSocket.ws st = Some w
                      /\ VoiceWebSocket.readyStateOf st w <> Some VoiceWebSocket.OPEN) ->
        exists error,
          VoiceWebSocket.send data st = (VoiceWebSocket.Rejected error, []))
  /\ (forall data st w text,
        In (w, text) (VoiceWebSocket.sent (snd (VoiceWebSocket.send data st))) ->
        VoiceWebSocket.ws st = Some w
        /\ VoiceWebSocket.readyStateOf st w = Some VoiceWebSocket.OPEN
        /\ text = data)
  /\ (forall packet st w text,
        In (w, text)
           (VoiceWebSocket.sent (snd (VoiceWebSocket.sendPacket json packet st))) ->
        VoiceWebSocket.ws st = Some w
        /\ VoiceWebSocket.readyStateOf st w = Some VoiceWebSocket.OPEN
        /\ VoiceWebSocket.JSON_stringify json packet = inl text).
Proof.
  assert (Hsend : forall data st w text,
             In (w, text) (VoiceWebSocket.sent (snd (VoiceWebSocket.send data st))) ->
             VoiceWebSocket.ws st = Some w
             /\ VoiceWebSocket.readyStateOf st w = Some VoiceWebSocket.OPEN
             /\ text = data).
  { intros data st w text. unfold VoiceWebSocket.send.
    destruct (VoiceWebSocket.ws st) as [w0|]; [|intros []].
    destruct (VoiceWebSocket.readyStateOf st w0) as [[| | |]|] eqn:E;
      simpl; try solve [intros []].
    intros [H|[]]. inversion H; subst. auto. }
  split; [|split; [|split]].
  - intros packet st error H. unfold VoiceWebSocket.sendPacket. rewrite H.
    reflexivity.
  - intros data st Hclosed. apply transportOpen_false in Hclosed.
    unfold VoiceWebSocket.transportOpen in Hclosed. unfold VoiceWebSocket.send.
    destruct (VoiceWebSocket.ws st) as [w|]; [|eexists; reflexivity].
    destruct (VoiceWebSocket.readyStateOf st w) as [[| | |]|];
      try discriminate; eexists; reflexivity.
  - exact Hsend.
  - intros packet st w text. unfold VoiceWebSocket.sendPacket.
    destruct (VoiceWebSocket.JSON_stringify json packet) as [serialized|error];
      [|intros []].
    intros H. apply Hsend in H. destruct H as (Hw & Hr & ->). auto.
Qed.

Lemma send_only_to_open_transport_witness :
  VoiceWebSocket.sendPacket exampleJson
    {| VoiceWebSocket.op := 99; VoiceWebSocket.d := VoiceWebSocket.Undefined |}
    VoiceWebSocket.fresh
  = (VoiceWebSocket.Rejected "Converting circular structure to JSON", [])
  /\ exists error,
       VoiceWebSocket.send "{}" VoiceWebSocket.fresh
       = (VoiceWebSocket.Rejected error, []).
Proof.
  destruct (send_only_to_open_transport exampleJson) as (Hpacket & Hsend & _).
  split.
  - apply Hpacket. reflexivity.
  - apply Hsend. left. reflexivity.
Defined.

(** ** Connecting *)

Lemma opened_app (a b : list VoiceWebSocket.event) :
  VoiceWebSocket.opened (a ++ b) = VoiceWebSocket.opened a ++ VoiceWebSocket.opened b.
Proof.
  induction a as [|x a IH]; simpl; [reflexivity|].
  destruct x; simpl; rewrite IH; reflexivity.
Qed.

Lemma closedByUs_app (a b : list VoiceWebSocket.event) :
  VoiceWebSocket.closedByUs (a ++ b)
  = VoiceWebSocket.closedByUs a ++ VoiceWebSocket.closedByUs b.
Proof.
  induction a as [|x a IH]; simpl; [reflexivity|].
  destruct x; simpl; rewrite IH; reflexivity.
Qed.

Lemma diagnostics_app (a b : list VoiceWebSocket.event) :
  VoiceWebSocket.diagnostics (a ++ b)
  = VoiceWebSocket.diagnostics a ++ VoiceWebSocket.diagnostics b.
Proof.
  induction a as [|x a IH]; simpl; [reflexivity|].
  destruct x as [| | |[]| | | |]; simpl; rewrite IH; reflexivity.
Qed.

Lemma length_setNth {A} (l : list A) (n : nat) (a : A) :
  List.length (VoiceWebSocket.setNth l n a) = List.length l.
Proof.
  revert n. induction l as [|x l IH]; intros [|n]; simpl; auto.
Qed.

Lemma nth_error_setNth_same {A} (l : list A) (n : nat) (a : A) :
  (n < List.length l)%nat -> nth_error (VoiceWebSocket.setNth l n a) n = Some a.
Proof.
  revert n. induction l as [|x l IH]; intros [|n]; simpl; try lia; auto.
  intros H. apply IH. lia.
Qed.

Lemma nth_error_setNth_other {A} (l : list A) (n m : nat) (a : A) :
  m <> n -> nth_error (VoiceWebSocket.setNth l n a) m = nth_error l m.
Proof.
  revert n m. induction l as [|x l IH]; intros [|n] [|m] H; simpl; auto;
    try congruence.
Qed.

(** What [reset] does: it keeps the counter and the dead flag, holds no
    socket and no heartbeat timer afterwards, creates no socket, and closes
    the socket that was held unless it had closed. *)
Lemma reset_facts (st : VoiceWebSocket.state) :
  exists st' ev,
    VoiceWebSocket.reset st = (st', ev)
    /\ VoiceWebSocket.attempts st' = VoiceWebSocket.attempts st
    /\ VoiceWebSocket.apiVersion st' = VoiceWebSocket.apiVersion st
    /\ VoiceWebSocket.dead st' = VoiceWebSocket.dead st
    /\ VoiceWebSocket.ws st' = None
    /\ VoiceWebSocket.heartbeatInterval st' = None
    /\ List.length (VoiceWebSocket.sockets st') = List.length (VoiceWebSocket.sockets st)
    /\ VoiceWebSocket.opened ev = []
    /\ VoiceWebSocket.diagnostics ev = []
    /\ VoiceWebSocket.closedByUs ev = tornDown st.
Proof.
  unfold VoiceWebSocket.reset, VoiceWebSocket.clearHeartbeat, tornDown,
    VoiceWebSocket.close, VoiceWebSocket.setReadyState.
  destruct (VoiceWebSocket.ws st) as [w|] eqn:Hws;
    [destruct (VoiceWebSocket.readyStateOf st w) as [[| | |]|]|];
    destruct (VoiceWebSocket.heartbeatInterval st) eqn:Hhb;
    simpl; rewrite ?Hhb; eexists _, _; (split; [reflexivity|]); simpl;
    rewrite ?length_setNth; repeat split; (reflexivity || assumption).
Qed.

(** A call of [connect] on a machine that is not dead, below the ceiling:
    the socket held is torn down, the counter goes up by one, and a new
    socket is created and held, connecting. *)
Lemma connect_opens (conn : VoiceWebSocket.VoiceConnection)
    (st : VoiceWebSocket.state) :
  VoiceWebSocket.dead st = false ->
  VoiceWebSocket.attempts st < 5 ->
  exists st' ev,
    VoiceWebSocket.connect conn st = (st', ev)
    /\ VoiceWebSocket.attempts st' = VoiceWebSocket.attempts st + 1
    /\ VoiceWebSocket.dead st' = false
    /\ VoiceWebSocket.ws st' = Some (List.length (VoiceWebSocket.sockets st))
    /\ VoiceWebSocket.readyStateOf st' (List.length (VoiceWebSocket.sockets st))
       = Some VoiceWebSocket.CONNECTING
    /\ List.length (VoiceWebSocket.sockets st')
       = S (List.length (VoiceWebSocket.sockets st))
    /\ VoiceWebSocket.opened ev = [List.length (VoiceWebSocket.sockets st)]
    /\ VoiceWebSocket.diagnostics ev = []
    /\ VoiceWebSocket.closedByUs ev = tornDown st.
Proof.
  intros Hdead Hlt. unfold VoiceWebSocket.connect. rewrite Hdead.
  assert (Hpre : exists st1 ev1,
             match VoiceWebSocket.ws st with
             | Some _ => VoiceWebSocket.reset st
             | None => (st, [])
             end = (st1, ev1)
             /\ VoiceWebSocket.attempts st1 = VoiceWebSocket.attempts st
             /\ VoiceWebSocket.dead st1 = VoiceWebSocket.dead st
             /\ List.length (VoiceWebSocket.sockets st1)
                = List.length (VoiceWebSocket.sockets st)
             /\ VoiceWebSocket.opened ev1 = []
             /\ VoiceWebSocket.diagnostics ev1 = []
             /\ VoiceWebSocket.closedByUs ev1 = tornDown st).
  { destruct (VoiceWebSocket.ws st) eqn:Hws.
    - destruct (reset_facts st) as (st1 & ev1 & H & Ha & _ & Hd & _ & _ & Hl & Ho & Hg & Hc).
      exists st1, ev1. auto 10.
    - exists st, []. unfold tornDown. rewrite Hws. auto 10. }
  destruct Hpre as (st1 & ev1 & -> & Ha & Hd & Hl & Ho & Hg & Hc).
  replace (5 <=? VoiceWebSocket.attempts st1) with false
    by (symmetry; apply Z.leb_gt; lia).
  eexists _, _. split; [reflexivity|].
  cbn [VoiceWebSocket.attempts VoiceWebSocket.dead VoiceWebSocket.ws
       VoiceWebSocket.sockets VoiceWebSocket.with_ws VoiceWebSocket.with_sockets
       VoiceWebSocket.with_attempts].
  rewrite opened_app, diagnostics_app, closedByUs_app, Ho, Hg, Hc, Hl.
  unfold VoiceWebSocket.readyStateOf.
  cbn [VoiceWebSocket.sockets VoiceWebSocket.with_ws VoiceWebSocket.with_sockets
       VoiceWebSocket.with_attempts].
  rewrite <- Hl, nth_error_app2, Nat.sub_diag, length_app by lia.
  simpl. rewrite app_nil_r.
  repeat split; try congruence; lia.
Qed.

(** A call of [connect] at the ceiling: the socket held is torn down, the
    diagnostic is emitted once, and no socket is created or held. *)
Lemma connect_gives_up (conn : VoiceWebSocket.VoiceConnection)
    (st : VoiceWebSocket.state) :
  VoiceWebSocket.dead st = false ->
  5 <= VoiceWebSocket.attempts st ->
  exists st' ev,
    VoiceWebSocket.connect conn st = (st', ev)
    /\ VoiceWebSocket.attempts st' = VoiceWebSocket.attempts st
    /\ VoiceWebSocket.ws st' = None
    /\ List.length (VoiceWebSocket.sockets st')
       = List.length (VoiceWebSocket.sockets st)
    /\ VoiceWebSocket.opened ev = []
    /\ VoiceWebSocket.diagnostics ev = [VoiceWebSocket.attempts st]
    /\ VoiceWebSocket.closedByUs ev = tornDown st.
Proof.
  intros Hdead Hge. unfold VoiceWebSocket.connect. rewrite Hdead.
  destruct (VoiceWebSocket.ws st) eqn:Hws.
  - destruct (reset_facts st) as (st1 & ev1 & -> & Ha & _ & Hd & Hw & _ & Hl & Ho & Hg & Hc).
    replace (5 <=? VoiceWebSocket.attempts st1) with true
      by (symmetry; apply Z.leb_le; lia).
    eexists _, _. split; [reflexivity|].
    rewrite opened_app, diagnostics_app, closedByUs_app, Ho, Hg, Hc, Ha.
    simpl. rewrite app_nil_r. auto 10.
  - replace (5 <=? VoiceWebSocket.attempts st) with true
      by (symmetry; apply Z.leb_le; lia).
    eexists _, _. split; [reflexivity|].
    unfold tornDown. rewrite Hws. simpl. auto 10.
Qed.

Lemma tornDown_connecting (st : VoiceWebSocket.state) (w : VoiceWebSocket.WsRef) :
  VoiceWebSocket.ws st = Some w ->
  VoiceWebSocket.readyStateOf st w = Some VoiceWebSocket.CONNECTING ->
  tornDown st = [w].
Proof. intros Hw Hr. unfold tornDown. rewrite Hw, Hr. reflexivity. Qed.

(** C6.  From a machine that is not dead and whose counter is zero, six
    calls of [connect] in a row: each of the first five raises the counter
    by one and opens one new transport, after closing the transport opened
    by the call before; the sixth closes the fifth transport, emits the one
    diagnostic of the six calls, opens nothing and holds no transport. *)
Theorem six_connects (conn : VoiceWebSocket.VoiceConnection)
    (st : VoiceWebSocket.state) :
  VoiceWebSocket.attempts st = 0 ->
  VoiceWebSocket.dead st = false ->
  let base := List.length (VoiceWebSocket.sockets st) in
  let calls := VoiceWebSocket.connects conn 6 st in
  map (fun call => VoiceWebSocket.attempts (fst call)) calls = [1; 2; 3; 4; 5; 5]
  /\ map (fun call => VoiceWebSocket.opened (snd call)) calls
     = [[base]; [1 + base]; [2 + base]; [3 + base]; [4 + base]; []]%nat
  /\ map (fun call => VoiceWebSocket.diagnostics (snd call)) calls
     = [[]; []; []; []; []; [5]]
  /\ map (fun call => VoiceWebSocket.closedByUs (snd call)) calls
     = [tornDown st; [base]; [1 + base]; [2 + base]; [3 + base]; [4 + base]]%nat
  /\ map (fun call => VoiceWebSocket.ws (fst call)) calls
     = [Some base; Some (1 + base); Some (2 + base); Some (3 + base);
        Some (4 + base); None]%nat.
Proof.
  intros Ha0 Hd0 base calls. unfold calls. cbn [VoiceWebSocket.connects].
  destruct (connect_opens conn st Hd0 ltac:(lia))
    as (st1 & ev1 & -> & Ha1 & Hd1 & Hw1 & Hr1 & Hl1 & Ho1 & Hg1 & Hc1).
  cbn [fst].
  destruct (connect_opens conn st1 Hd1 ltac:(lia))
    as (st2 & ev2 & -> & Ha2 & Hd2 & Hw2 & Hr2 & Hl2 & Ho2 & Hg2 & Hc2).
  cbn [fst].
  destruct (connect_opens conn st2 Hd2 ltac:(lia))
    as (st3 & ev3 & -> & Ha3 & Hd3 & Hw3 & Hr3 & Hl3 & Ho3 & Hg3 & Hc3).
  cbn [fst].
  destruct (connect_opens conn st3 Hd3 ltac:(lia))
    as (st4 & ev4 & -> & Ha4 & Hd4 & Hw4 & Hr4 & Hl4 & Ho4 & Hg4 & Hc4).
  cbn [fst].
  destruct (connect_opens conn st4 Hd4 ltac:(lia))
    as (st5 & ev5 & -> & Ha5 & Hd5 & Hw5 & Hr5 & Hl5 & Ho5 & Hg5 & Hc5).
  cbn [fst].
  destruct (connect_gives_up conn st5 Hd5 ltac:(lia))
    as (st6 & ev6 & -> & Ha6 & Hw6 & Hl6 & Ho6 & Hg6 & Hc6).
  cbn [map fst snd].
  rewrite (tornDown_connecting st1 _ Hw1 Hr1) in Hc2.
  rewrite (tornDown_connecting st2 _ Hw2 Hr2) in Hc3.
  rewrite (tornDown_connecting st3 _ Hw3 Hr3) in Hc4.
  rewrite (tornDown_connecting st4 _ Hw4 Hr4) in Hc5.
  rewrite (tornDown_connecting st5 _ Hw5 Hr5) in Hc6.
  rewrite Ho1, Ho2, Ho3, Ho4, Ho5, Ho6, Hg1, Hg2, Hg3, Hg4, Hg5, Hg6,
    Hc1, Hc2, Hc3, Hc4, Hc5, Hc6, Hw1, Hw2, Hw3, Hw4, Hw5, Hw6.
  rewrite Hl4, Hl3, Hl2, Hl1.
  fold base.
  repeat split.
  - repeat f_equal; lia.
  - repeat f_equal; lia.
Qed.

Lemma six_connects_witness :
  map (fun call => VoiceWebSocket.opened (snd call))
    (VoiceWebSocket.connects exampleSession 6 VoiceWebSocket.fresh)
  = [[0]; [1]; [2]; [3]; [4]; []]%nat
  /\ map (fun call => VoiceWebSocket.diagnostics (snd call))
       (VoiceWebSocket.connects exampleSession 6 VoiceWebSocket.fresh)
     = [[]; []; []; []; []; [5]].
Proof.
  destruct (six_connects exampleSession VoiceWebSocket.fresh eq_refl eq_refl)
    as (_ & Hopened & Hdiag & _).
  split; [exact Hopened|exact Hdiag].
Defined.

(** ** The heartbeat timer *)

Lemma quiet_consistent (st : VoiceWebSocket.state) : quiet st -> consistent st.
Proof.
  intros (Hw & Hh & Hl). repeat split.
  - intros w H. destruct (Hl w H).
  - intros _. exact Hw.
  - intros H. congruence.
Qed.

Lemma clearHeartbeat_facts (st : VoiceWebSocket.state) :
  exists st' ev,
    VoiceWebSocket.clearHeartbeat st = (st', ev)
    /\ VoiceWebSocket.heartbeatInterval st' = None
    /\ VoiceWebSocket.ws st' = VoiceWebSocket.ws st
    /\ VoiceWebSocket.dead st' = VoiceWebSocket.dead st
    /\ VoiceWebSocket.sockets st' = VoiceWebSocket.sockets st.
Proof.
  unfold VoiceWebSocket.clearHeartbeat.
  destruct (VoiceWebSocket.heartbeatInterval st) eqn:Hhb;
    eexists _, _; (split; [reflexivity|]); simpl; auto.
Qed.

Lemma clearHeartbeat_consistent (st : VoiceWebSocket.state) :
  consistent st -> consistent (fst (VoiceWebSocket.clearHeartbeat st)).
Proof.
  intros (H1 & H2 & H3).
  destruct (clearHeartbeat_facts st) as (st' & ev & -> & Hh & Hw & Hd & Hs).
  cbn [fst]. unfold consistent, live, VoiceWebSocket.readyStateOf in *.
  rewrite Hh, Hw, Hd, Hs. repeat split; auto; congruence.
Qed.

(** After [reset], from a state in which every live socket is the one
    held, nothing is held and nothing is live. *)
Lemma reset_quiet (st : VoiceWebSocket.state) :
  (forall w, live st w -> VoiceWebSocket.ws st = Some w) ->
  quiet (fst (VoiceWebSocket.reset st))
  /\ VoiceWebSocket.dead (fst (VoiceWebSocket.reset st)) = VoiceWebSocket.dead st.
Proof.
  intros Hlive. unfold VoiceWebSocket.reset.
  assert (Hmid : exists st1 ev1,
             match VoiceWebSocket.ws st with
             | Some w =>
                 let '(st0, ev) :=
                   match VoiceWebSocket.readyStateOf st w with
                   | Some VoiceWebSocket.CLOSED => (st, [])
                   | _ => (VoiceWebSocket.close w st, [VoiceWebSocket.WsClose w])
                   end in
                 (VoiceWebSocket.with_ws None st0, ev)
             | None => (st, [])
             end = (st1, ev1)
             /\ VoiceWebSocket.ws st1 = None
             /\ VoiceWebSocket.dead st1 = VoiceWebSocket.dead st
             /\ forall w, ~ live st1 w).
  { destruct (VoiceWebSocket.ws st) as [w0|] eqn:Hws.
    - unfold VoiceWebSocket.close.
      destruct (VoiceWebSocket.readyStateOf st w0) as [[| | |]|] eqn:Hr;
        eexists _, _; (split; [reflexivity|]);
        (split; [reflexivity|]); (split; [reflexivity|]);
        intros w Hw; unfold live, VoiceWebSocket.readyStateOf in *;
        cbn [VoiceWebSocket.sockets VoiceWebSocket.with_ws
             VoiceWebSocket.setReadyState VoiceWebSocket.with_sockets] in Hw.
      + destruct (Nat.eq_dec w w0) as [->|Hne].
        * rewrite nth_error_setNth_same in Hw
            by (apply nth_error_Some; congruence).
          destruct Hw; discriminate.
        * rewrite nth_error_setNth_other in Hw by assumption.
          specialize (Hlive w Hw). congruence.
      + destruct (Nat.eq_dec w w0) as [->|Hne].
        * rewrite nth_error_setNth_same in Hw
            by (apply nth_error_Some; congruence).
          destruct Hw; discriminate.
        * rewrite nth_error_setNth_other in Hw by assumption.
          specialize (Hlive w Hw). congruence.
      + pose proof (Hlive w Hw) as Heq. inversion Heq; subst.
        destruct Hw; congruence.
      + pose proof (Hlive w Hw) as Heq. inversion Heq; subst.
        destruct Hw; congruence.
      + pose proof (Hlive w Hw) as Heq. inversion Heq; subst.
        destruct Hw; congruence.
    - exists st, []. repeat split; auto.
      intros w Hw. specialize (Hlive w Hw). congruence. }
  destruct Hmid as (st1 & ev1 & -> & Hw1 & Hd1 & Hl1).
  destruct (clearHeartbeat_facts st1) as (st2 & ev2 & -> & Hh & Hw & Hd & Hs).
  cbn [fst]. unfold quiet, live, VoiceWebSocket.readyStateOf in *.
  rewrite Hh, Hw, Hd, Hs. auto.
Qed.

Lemma onError_consistent (message : string) (st : VoiceWebSocket.state) :
  consistent st -> consistent (fst (VoiceWebSocket.onError message st)).
Proof.
  intros Hc. unfold VoiceWebSocket.onError.
  destruct (negb (VoiceWebSocket.dead st)); [|exact Hc].
  destruct (String.eqb message "uWs client connection error"); [|exact Hc].
  destruct Hc as (H1 & _ & _).
  destruct (reset_quiet st H1) as [Hq _].
  destruct (VoiceWebSocket.reset st) as [st' ev].
  apply quiet_consistent. exact Hq.
Qed.

Lemma setHeartbeat_consistent (interval : option Z) (st : VoiceWebSocket.state) :
  consistent st ->
  VoiceWebSocket.transportOpen st = true ->
  consistent (fst (VoiceWebSocket.setHeartbeat interval st)).
Proof.
  intros Hc Hopen. unfold VoiceWebSocket.setHeartbeat.
  destruct interval as [ms|]; [|apply onError_consistent; exact Hc].
  destruct (VoiceWebSocket.invalidInterval (Some ms));
    [apply onError_consistent; exact Hc|].
  destruct Hc as (H1 & H2 & H3). repeat split; auto.
Qed.

Lemma onPacket_consistent (OP : VoiceWebSocket.VoiceOPCodes)
    (packet : VoiceWebSocket.Packet) (st : VoiceWebSocket.state) :
  consistent st ->
  VoiceWebSocket.transportOpen st = true ->
  consistent (snd (fst (VoiceWebSocket.onPacket OP packet st))).
Proof.
  intros Hc Hopen. unfold VoiceWebSocket.onPacket.
  destruct (VoiceWebSocket.op packet =? VoiceWebSocket.INFO OP).
  - destruct (VoiceWebSocket.d packet) as [|n|o]; [exact Hc| |].
    + pose proof (setHeartbeat_consistent None st Hc Hopen) as H.
      destruct (VoiceWebSocket.setHeartbeat None st). exact H.
    + pose proof (setHeartbeat_consistent (VoiceWebSocket.heartbeat_interval o)
                    st Hc Hopen) as H.
      destruct (VoiceWebSocket.setHeartbeat _ st). exact H.
  - destruct (VoiceWebSocket.op packet =? VoiceWebSocket.READY OP); [exact Hc|].
    destruct (VoiceWebSocket.op packet =? VoiceWebSocket.SESSION_DESCRIPTION OP).
    + destruct (VoiceWebSocket.d packet); exact Hc.
    + destruct (VoiceWebSocket.op packet =? VoiceWebSocket.SPEAKING OP); [exact Hc|].
      destruct (VoiceWebSocket.op packet =? VoiceWebSocket.PONG OP); exact Hc.
Qed.

Lemma onMessage_consistent (OP : VoiceWebSocket.VoiceOPCodes)
    (json : VoiceWebSocket.Json) (data : string) (st : VoiceWebSocket.state) :
  consistent st ->
  VoiceWebSocket.transportOpen st = true ->
  consistent (fst (VoiceWebSocket.onMessage OP json data st)).
Proof.
  intros Hc Hopen. unfold VoiceWebSocket.onMessage.
  destruct (VoiceWebSocket.JSON_parse json data) as [packet|error];
    [|apply onError_consistent; exact Hc].
  pose proof (onPacket_consistent OP packet st Hc Hopen) as H.
  destruct (VoiceWebSocket.onPacket OP packet st) as [[[|error] st1] ev1];
    cbn [fst snd] in *; [exact H|].
  pose proof (onError_consistent error st1 H) as H'.
  destruct (VoiceWebSocket.onError error st1). exact H'.
Qed.

Lemma consistent_none_quiet (st : VoiceWebSocket.state) :
  consistent st -> VoiceWebSocket.ws st = None -> quiet st.
Proof.
  intros (H1 & H2 & H3) Hw. repeat split; [exact Hw| |].
  - destruct (VoiceWebSocket.heartbeatInterval st) eqn:Hh; [|reflexivity].
    assert (Ho : VoiceWebSocket.transportOpen st = true) by (apply H3; congruence).
    unfold VoiceWebSocket.transportOpen in Ho. rewrite Hw in Ho. discriminate.
  - intros w Hl. specialize (H1 w Hl). congruence.
Qed.

Lemma connect_consistent (conn : VoiceWebSocket.VoiceConnection)
    (st : VoiceWebSocket.state) :
  consistent st -> consistent (fst (VoiceWebSocket.connect conn st)).
Proof.
  intros Hc. unfold VoiceWebSocket.connect.
  destruct (VoiceWebSocket.dead st) eqn:Hdead; [exact Hc|].
  assert (Hpre : exists st1 ev1,
             match VoiceWebSocket.ws st with
             | Some _ => VoiceWebSocket.reset st
             | None => (st, [])
             end = (st1, ev1)
             /\ quiet st1 /\ VoiceWebSocket.dead st1 = false).
  { destruct (VoiceWebSocket.ws st) eqn:Hws.
    - destruct Hc as (H1 & _ & _).
      destruct (reset_quiet st H1) as [Hq Hd].
      destruct (VoiceWebSocket.reset st) as [st1 ev1].
      exists st1, ev1. cbn [fst] in *. split; [reflexivity|]. split; congruence.
    - exists st, []. split; [reflexivity|].
      split; [apply consistent_none_quiet; assumption|assumption]. }
  destruct Hpre as (st1 & ev1 & -> & Hq & Hd1).
  destruct (5 <=? VoiceWebSocket.attempts st1);
    [apply quiet_consistent; exact Hq|].
  destruct Hq as (Hw & Hh & Hl).
  cbn [fst]. repeat split.
  - intros w Hlive. unfold live, VoiceWebSocket.readyStateOf in *.
    cbn [VoiceWebSocket.sockets VoiceWebSocket.ws VoiceWebSocket.with_ws
         VoiceWebSocket.with_sockets VoiceWebSocket.with_attempts] in *.
    destruct (Nat.lt_ge_cases w (List.length (VoiceWebSocket.sockets st1)))
      as [Hlt|Hge].
    + rewrite nth_error_app1 in Hlive by assumption. destruct (Hl w Hlive).
    + destruct (Nat.eq_dec w (List.length (VoiceWebSocket.sockets st1)))
        as [->|Hne]; [reflexivity|].
      exfalso.
      assert (Hnone : nth_error
                        (VoiceWebSocket.sockets st1 ++ [VoiceWebSocket.CONNECTING]) w
                      = None).
      { apply nth_error_None. rewrite length_app. simpl. lia. }
      rewrite Hnone in Hlive. destruct Hlive; discriminate.
  - cbn [VoiceWebSocket.dead VoiceWebSocket.with_ws VoiceWebSocket.with_sockets
         VoiceWebSocket.with_attempts]. congruence.
  - cbn [VoiceWebSocket.heartbeatInterval VoiceWebSocket.with_ws
         VoiceWebSocket.with_sockets VoiceWebSocket.with_attempts]. congruence.
Qed.

Lemma shutdown_consistent (st : VoiceWebSocket.state) :
  consistent st -> consistent (fst (VoiceWebSocket.shutdown st)).
Proof.
  intros (H1 & _ & _). unfold VoiceWebSocket.shutdown.
  destruct (reset_quiet (VoiceWebSocket.with_dead true st) H1) as [Hq _].
  apply quiet_consistent. exact Hq.
Qed.

Lemma onOpen_state (OP : VoiceWebSocket.VoiceOPCodes) (json : VoiceWebSocket.Json)
    (conn : VoiceWebSocket.VoiceConnection) (st : VoiceWebSocket.state) :
  fst (VoiceWebSocket.onOpen OP json conn st) = st.
Proof.
  unfold VoiceWebSocket.onOpen.
  destruct (VoiceWebSocket.sendPacket json _ st) as [[error|w data] ev]; reflexivity.
Qed.

Lemma opened_consistent (st : VoiceWebSocket.state) (w : VoiceWebSocket.WsRef) :
  consistent st ->
  VoiceWebSocket.readyStateOf st w = Some VoiceWebSocket.CONNECTING ->
  consistent (VoiceWebSocket.setReadyState w VoiceWebSocket.OPEN st).
Proof.
  intros (H1 & H2 & H3) Hr.
  assert (Hlt : (w < List.length (VoiceWebSocket.sockets st))%nat)
    by (apply nth_error_Some; unfold VoiceWebSocket.readyStateOf in Hr; congruence).
  assert (Hw : VoiceWebSocket.ws st = Some w) by (apply H1; left; exact Hr).
  repeat split.
  - intros w' Hl. unfold live, VoiceWebSocket.readyStateOf in *.
    cbn [VoiceWebSocket.sockets VoiceWebSocket.ws VoiceWebSocket.setReadyState
         VoiceWebSocket.with_sockets] in *.
    destruct (Nat.eq_dec w' w) as [->|Hne]; [exact Hw|].
    rewrite nth_error_setNth_other in Hl by assumption. apply H1. exact Hl.
  - exact H2.
  - intros _. unfold VoiceWebSocket.transportOpen, VoiceWebSocket.readyStateOf.
    cbn [VoiceWebSocket.sockets VoiceWebSocket.ws VoiceWebSocket.setReadyState
         VoiceWebSocket.with_sockets].
    rewrite Hw, nth_error_setNth_same by assumption. reflexivity.
Qed.

Lemma onClose_consistent (st : VoiceWebSocket.state) (w : VoiceWebSocket.WsRef) :
  consistent st ->
  VoiceWebSocket.readyStateOf st w <> None ->
  consistent
    (fst (VoiceWebSocket.onClose
            (VoiceWebSocket.setReadyState w VoiceWebSocket.CLOSED st))).
Proof.
  intros (H1 & _ & _) Hr.
  assert (Hlt : (w < List.length (VoiceWebSocket.sockets st))%nat)
    by (apply nth_error_Some; exact Hr).
  assert (Hlive : forall w',
             live (VoiceWebSocket.setReadyState w VoiceWebSocket.CLOSED st) w' ->
             VoiceWebSocket.ws (VoiceWebSocket.setReadyState w VoiceWebSocket.CLOSED st)
             = Some w').
  { intros w' Hl. unfold live, VoiceWebSocket.readyStateOf in *.
    cbn [VoiceWebSocket.sockets VoiceWebSocket.ws VoiceWebSocket.setReadyState
         VoiceWebSocket.with_sockets] in *.
    destruct (Nat.eq_dec w' w) as [->|Hne].
    - rewrite nth_error_setNth_same in Hl by assumption.
      destruct Hl; discriminate.
    - rewrite nth_error_setNth_other in Hl by assumption. apply H1. exact Hl. }
  destruct (reset_quiet _ Hlive) as [Hq _].
  unfold VoiceWebSocket.onClose.
  destruct (VoiceWebSocket.reset _) as [st' ev]. cbn [fst] in Hq.
  destruct (negb (VoiceWebSocket.dead st')); apply quiet_consistent; exact Hq.
Qed.

Lemma heartbeatRejected_consistent (st : VoiceWebSocket.state) :
  consistent st -> consistent (fst (VoiceWebSocket.heartbeatRejected st)).
Proof.
  intros Hc. pose proof (clearHeartbeat_consistent st Hc) as H.
  unfold VoiceWebSocket.heartbeatRejected.
  destruct (VoiceWebSocket.clearHeartbeat st). exact H.
Qed.

Lemma sendHeartbeat_consistent (OP : VoiceWebSocket.VoiceOPCodes)
    (json : VoiceWebSocket.Json) (now : Z) (st : VoiceWebSocket.state) :
  consistent st -> consistent (fst (VoiceWebSocket.sendHeartbeat OP json now st)).
Proof.
  intros Hc. unfold VoiceWebSocket.sendHeartbeat.
  destruct (VoiceWebSocket.sendPacket json _ st) as [[error|w data] ev];
    [|exact Hc].
  pose proof (heartbeatRejected_consistent st Hc) as H.
  destruct (VoiceWebSocket.heartbeatRejected st). exact H.
Qed.

(** An orderly step is one of a consistent machine that stays
    consistent. *)
Lemma step_consistent (OP : VoiceWebSocket.VoiceOPCodes) (json : VoiceWebSocket.Json)
    (conn : VoiceWebSocket.VoiceConnection) (st : VoiceWebSocket.state)
    (i : VoiceWebSocket.input) (st' : VoiceWebSocket.state)
    (ev : list VoiceWebSocket.event) :
  consistent st ->
  orderly st i = true ->
  VoiceWebSocket.step OP json conn st i = Some (st', ev) ->
  consistent st'.
Proof.
  intros Hc Ho. destruct i as [| |w|w data|w|w|w message|now| |]; simpl in *.
  - intros H. inversion H.
    change st' with (fst (st', ev)). rewrite <- H1.
    apply connect_consistent. exact Hc.
  - intros H. inversion H.
    change st' with (fst (st', ev)). rewrite <- H1.
    apply shutdown_consistent. exact Hc.
  - destruct (VoiceWebSocket.readyStateOf st w) as [[| | |]|] eqn:Hr;
      try discriminate.
    intros H. inversion H.
    change st' with (fst (st', ev)). rewrite <- H1, onOpen_state.
    apply opened_consistent; assumption.
  - destruct (VoiceWebSocket.readyStateOf st w) as [[| | |]|] eqn:Hr;
      try discriminate.
    intros H. inversion H.
    change st' with (fst (st', ev)). rewrite <- H1.
    apply onMessage_consistent; [exact Hc|].
    destruct Hc as (H0 & _ & _).
    unfold VoiceWebSocket.transportOpen.
    rewrite (H0 w (or_intror Hr)), Hr. reflexivity.
  - discriminate.
  - destruct (VoiceWebSocket.readyStateOf st w) as [[| | |]|] eqn:Hr;
      try discriminate;
      intros H; inversion H;
      change st' with (fst (st', ev)); rewrite <- H1;
      apply onClose_consistent; congruence.
  - destruct (VoiceWebSocket.readyStateOf st w); [|discriminate].
    intros H. inversion H.
    change st' with (fst (st', ev)). rewrite <- H1.
    apply onError_consistent. exact Hc.
  - destruct (VoiceWebSocket.heartbeatInterval st); [|discriminate].
    intros H. inversion H.
    change st' with (fst (st', ev)). rewrite <- H1.
    apply sendHeartbeat_consistent. exact Hc.
  - intros H. inversion H; subst. exact Hc.
  - intros H. inversion H.
    change st' with (fst (st', ev)). rewrite <- H1.
    apply heartbeatRejected_consistent. exact Hc.
Qed.

Lemma fresh_consistent : consistent VoiceWebSocket.fresh.
Proof.
  apply quiet_consistent. repeat split.
  intros w [H|H]; unfold VoiceWebSocket.readyStateOf in H;
    destruct w; discriminate.
Qed.

Lemma orderlyRun_consistent (OP : VoiceWebSocket.VoiceOPCodes)
    (json : VoiceWebSocket.Json) (conn : VoiceWebSocket.VoiceConnection)
    (inputs : list VoiceWebSocket.input) :
  forall st st' ev,
    consistent st ->
    orderlyRun OP json conn st inputs = true ->
    runInputs OP json conn st inputs = Some (st', ev) ->
    consistent st'.
Proof.
  induction inputs as [|i rest IH]; simpl; intros st st' ev Hc Ho H.
  - inversion H. subst. exact Hc.
  - apply andb_true_iff in Ho. destruct Ho as [Hi Hrest].
    destruct (VoiceWebSocket.step OP json conn st i) as [[st1 ev1]|] eqn:Hs;
      [|discriminate].
    destruct (runInputs OP json conn st1 rest) as [[st2 ev2]|] eqn:Hrun;
      [|discriminate].
    inversion H. subst.
    apply (IH st1 st' ev2); [|exact Hrest|exact Hrun].
    exact (step_consistent OP json conn st i st1 ev1 Hc Hi Hs).
Qed.

(** C7, as amended.  Over a run of the control channel, from its
    construction, in which the sockets are orderly (each delivers its
    messages only while it is open, and none starts closing on its own), a
    heartbeat timer exists only if the transport is open and the machine
    is not dead. *)
Theorem heartbeat_only_while_open (OP : VoiceWebSocket.VoiceOPCodes)
    (json : VoiceWebSocket.Json) (conn : VoiceWebSocket.VoiceConnection)
    (inputs : list VoiceWebSocket.input) (st : VoiceWebSocket.state)
    (ev : list VoiceWebSocket.event) :
  runInputs OP json conn VoiceWebSocket.fresh inputs = Some (st, ev) ->
  orderlyRun OP json conn VoiceWebSocket.fresh inputs = true ->
  VoiceWebSocket.heartbeatInterval st <> None ->
  VoiceWebSocket.transportOpen st = true /\ VoiceWebSocket.dead st = false.
Proof.
  intros Hrun Horderly Hhb.
  destruct (orderlyRun_consistent OP json conn inputs VoiceWebSocket.fresh st ev
              fresh_consistent Horderly Hrun) as (_ & H2 & H3).
  specialize (H3 Hhb). split; [exact H3|].
  destruct (VoiceWebSocket.dead st); [|reflexivity].
  unfold VoiceWebSocket.transportOpen in H3. rewrite (H2 eq_refl) in H3.
  discriminate.
Qed.

Lemma heartbeat_only_while_open_witness :
  VoiceWebSocket.transportOpen beatingMachine = true
  /\ VoiceWebSocket.dead beatingMachine = false.
Proof.
  apply (heartbeat_only_while_open opCodes exampleJson exampleSession
           [VoiceWebSocket.Connect; VoiceWebSocket.Opened 0%nat;
            VoiceWebSocket.Message 0%nat "info"]
           beatingMachine
           [VoiceWebSocket.WsNew 0%nat "voice.example" 4;
            VoiceWebSocket.WsSend 0%nat "{}";
            VoiceWebSocket.SetInterval 41250]).
  - vm_compute. reflexivity.
  - vm_compute. reflexivity.
  - vm_compute. discriminate.
Defined.

Lemma openedMachine_reachable :
  VoiceWebSocket.reachable opCodes exampleJson exampleSession openedMachine.
Proof.
  apply (VoiceWebSocket.reachable_step opCodes exampleJson exampleSession
           (fst (VoiceWebSocket.connect exampleSession VoiceWebSocket.fresh))
           (VoiceWebSocket.Opened 0%nat) openedMachine
           [VoiceWebSocket.WsSend 0%nat "{}"]).
  - apply (VoiceWebSocket.reachable_step opCodes exampleJson exampleSession
             VoiceWebSocket.fresh VoiceWebSocket.Connect _
             [VoiceWebSocket.WsNew 0%nat "voice.example" 4]).
    + apply VoiceWebSocket.reachable_fresh.
    + reflexivity.
  - reflexivity.
Qed.

Lemma lateMessageMachine_reachable :
  VoiceWebSocket.reachable opCodes exampleJson exampleSession lateMessageMachine.
Proof.
  apply (VoiceWebSocket.reachable_step opCodes exampleJson exampleSession
           (fst (VoiceWebSocket.shutdown openedMachine))
           (VoiceWebSocket.Message 0%nat "info") lateMessageMachine
           [VoiceWebSocket.SetInterval 41250]).
  - apply (VoiceWebSocket.reachable_step opCodes exampleJson exampleSession
             openedMachine VoiceWebSocket.Shutdown _
             [VoiceWebSocket.WsClose 0%nat;
              VoiceWebSocket.Emit
                (VoiceWebSocket.Warn
                   "Tried to clear a heartbeat interval that does not exist")]).
    + exact openedMachine_reachable.
    + reflexivity.
  - reflexivity.
Qed.

(** C7, as stated, fails in both directions.  After [shutdown], a message
    that the socket still delivers while it is closing creates a heartbeat
    timer on a machine that is dead and holds no socket.  And after
    [connect] and the opening of the transport the machine is alive with
    an open transport and has no heartbeat timer; the timer is created
    only when the info packet arrives. *)
Lemma heartbeat_iff_counterexample :
  ~ (forall st,
       VoiceWebSocket.reachable opCodes exampleJson exampleSession st ->
       VoiceWebSocket.heartbeatInterval st <> None ->
       VoiceWebSocket.transportOpen st = true /\ VoiceWebSocket.dead st = false)
  /\ ~ (forall st,
          VoiceWebSocket.reachable opCodes exampleJson exampleSession st ->
          VoiceWebSocket.transportOpen st = true /\ VoiceWebSocket.dead st = false ->
          VoiceWebSocket.heartbeatInterval st <> None).
Proof.
  split; intros H.
  - destruct (H lateMessageMachine lateMessageMachine_reachable) as [Hopen _].
    + vm_compute. discriminate.
    + vm_compute in Hopen. discriminate.
  - exact (H openedMachine openedMachine_reachable (conj eq_refl eq_refl) eq_refl).
Qed.

(** ** The sockets the machine lets go of *)

Lemma tidy_same (st st' : VoiceWebSocket.state) :
  VoiceWebSocket.ws st' = VoiceWebSocket.ws st ->
  VoiceWebSocket.dead st' = VoiceWebSocket.dead st ->
  VoiceWebSocket.sockets st' = VoiceWebSocket.sockets st ->
  tidy st -> tidy st'.
Proof.
  intros Hw Hd Hs (H1 & H2).
  unfold tidy, live, VoiceWebSocket.readyStateOf in *.
  rewrite Hw, Hd, Hs. split; assumption.
Qed.

Lemma quiet_tidy (st : VoiceWebSocket.state) : quiet st -> tidy st.
Proof.
  intros (Hw & _ & Hl). split.
  - intros w H. destruct (Hl w H).
  - intros _. exact Hw.
Qed.

Lemma reset_tidy (st : VoiceWebSocket.state) :
  tidy st -> tidy (fst (VoiceWebSocket.reset st)).
Proof.
  intros (H1 & _). apply quiet_tidy. exact (proj1 (reset_quiet st H1)).
Qed.

Lemma clearHeartbeat_tidy (st : VoiceWebSocket.state) :
  tidy st -> tidy (fst (VoiceWebSocket.clearHeartbeat st)).
Proof.
  destruct (clearHeartbeat_facts st) as (st' & ev & -> & _ & Hw & Hd & Hs).
  apply tidy_same; assumption.
Qed.

Lemma onError_tidy (message : string) (st : VoiceWebSocket.state) :
  tidy st -> tidy (fst (VoiceWebSocket.onError message st)).
Proof.
  intros Hc. unfold VoiceWebSocket.onError.
  destruct (negb (VoiceWebSocket.dead st)); [|exact Hc].
  destruct (String.eqb message "uWs client connection error"); [|exact Hc].
  pose proof (reset_tidy st Hc) as H.
  destruct (VoiceWebSocket.reset st) as [st' ev]. exact H.
Qed.

Lemma setHeartbeat_tidy (interval : option Z) (st : VoiceWebSocket.state) :
  tidy st -> tidy (fst (VoiceWebSocket.setHeartbeat interval st)).
Proof.
  intros Hc. unfold VoiceWebSocket.setHeartbeat.
  destruct interval as [ms|]; [|apply onError_tidy; exact Hc].
  destruct (VoiceWebSocket.invalidInterval (Some ms));
    [apply onError_tidy; exact Hc|].
  revert Hc. apply tidy_same; reflexivity.
Qed.

Lemma onPacket_tidy (OP : VoiceWebSocket.VoiceOPCodes)
    (packet : VoiceWebSocket.Packet) (st : VoiceWebSocket.state) :
  tidy st -> tidy (snd (fst (VoiceWebSocket.onPacket OP packet st))).
Proof.
  intros Hc. unfold VoiceWebSocket.onPacket.
  destruct (VoiceWebSocket.op packet =? VoiceWebSocket.INFO OP).
  - destruct (VoiceWebSocket.d packet) as [|n|o]; [exact Hc| |].
    + pose proof (setHeartbeat_tidy None st Hc) as H.
      destruct (VoiceWebSocket.setHeartbeat None st). exact H.
    + pose proof (setHeartbeat_tidy (VoiceWebSocket.heartbeat_interval o) st Hc)
        as H.
      destruct (VoiceWebSocket.setHeartbeat _ st). exact H.
  - destruct (VoiceWebSocket.op packet =? VoiceWebSocket.READY OP); [exact Hc|].
    destruct (VoiceWebSocket.op packet =? VoiceWebSocket.SESSION_DESCRIPTION OP).
    + destruct (VoiceWebSocket.d packet); exact Hc.
    + destruct (VoiceWebSocket.op packet =? VoiceWebSocket.SPEAKING OP); [exact Hc|].
      destruct (VoiceWebSocket.op packet =? VoiceWebSocket.PONG OP); exact Hc.
Qed.

Lemma onMessage_tidy (OP : VoiceWebSocket.VoiceOPCodes)
    (json : VoiceWebSocket.Json) (data : string) (st : VoiceWebSocket.state) :
  tidy st -> tidy (fst (VoiceWebSocket.onMessage OP json data st)).
Proof.
  intros Hc. unfold VoiceWebSocket.onMessage.
  destruct (VoiceWebSocket.JSON_parse json data) as [packet|error];
    [|apply onError_tidy; exact Hc].
  pose proof (onPacket_tidy OP packet st Hc) as H.
  destruct (VoiceWebSocket.onPacket OP packet st) as [[[|error] st1] ev1];
    cbn [fst snd] in *; [exact H|].
  pose proof (onError_tidy error st1 H) as H'.
  destruct (VoiceWebSocket.onError error st1). exact H'.
Qed.

Lemma connect_tidy (conn : VoiceWebSocket.VoiceConnection)
    (st : VoiceWebSocket.state) :
  tidy st -> tidy (fst (VoiceWebSocket.connect conn st)).
Proof.
  intros Hc. unfold VoiceWebSocket.connect.
  destruct (VoiceWebSocket.dead st) eqn:Hdead; [exact Hc|].
  assert (Hpre : exists st1 ev1,
             match VoiceWebSocket.ws st with
             | Some _ => VoiceWebSocket.reset st
             | None => (st, [])
             end = (st1, ev1)
             /\ VoiceWebSocket.ws st1 = None
             /\ (forall w, ~ live st1 w)
             /\ VoiceWebSocket.dead st1 = false).
  { destruct (VoiceWebSocket.ws st) eqn:Hws.
    - destruct Hc as (H1 & _).
      destruct (reset_quiet st H1) as [(Hw & _ & Hl) Hd].
      destruct (VoiceWebSocket.reset st) as [st1 ev1].
      exists st1, ev1. cbn [fst] in *. repeat split; auto. congruence.
    - exists st, []. split; [reflexivity|]. repeat split; auto.
      intros w Hl. destruct Hc as (H1 & _). specialize (H1 w Hl). congruence. }
  destruct Hpre as (st1 & ev1 & -> & Hw & Hl & Hd1).
  destruct (5 <=? VoiceWebSocket.attempts st1).
  - cbn [fst]. split; [intros w H; destruct (Hl w H)|intros _; exact Hw].
  - cbn [fst]. split.
    + intros w Hlive. unfold live, VoiceWebSocket.readyStateOf in *.
      cbn [VoiceWebSocket.sockets VoiceWebSocket.ws VoiceWebSocket.with_ws
           VoiceWebSocket.with_sockets VoiceWebSocket.with_attempts] in *.
      destruct (Nat.lt_ge_cases w (List.length (VoiceWebSocket.sockets st1)))
        as [Hlt|Hge].
      * rewrite nth_error_app1 in Hlive by assumption. destruct (Hl w Hlive).
      * destruct (Nat.eq_dec w (List.length (VoiceWebSocket.sockets st1)))
          as [->|Hne]; [reflexivity|].
        exfalso.
        assert (Hnone : nth_error
                          (VoiceWebSocket.sockets st1 ++ [VoiceWebSocket.CONNECTING]) w
                        = None).
        { apply nth_error_None. rewrite length_app. simpl. lia. }
        rewrite Hnone in Hlive. destruct Hlive; discriminate.
    + cbn [VoiceWebSocket.dead VoiceWebSocket.with_ws VoiceWebSocket.with_sockets
           VoiceWebSocket.with_attempts]. congruence.
Qed.

Lemma shutdown_tidy (st : VoiceWebSocket.state) :
  tidy st -> tidy (fst (VoiceWebSocket.shutdown st)).
Proof.
  intros (H1 & _). unfold VoiceWebSocket.shutdown.
  apply quiet_tidy.
  exact (proj1 (reset_quiet (VoiceWebSocket.with_dead true st) H1)).
Qed.

(** A socket that changes its ready state on its own, in a tidy machine:
    when it opens it is the one held; when it starts closing or is closed
    it is no longer live. *)
Lemma setReadyState_tidy (st : VoiceWebSocket.state) (w : VoiceWebSocket.WsRef)
    (r : VoiceWebSocket.readyState) :
  tidy st ->
  live st w \/ (r <> VoiceWebSocket.CONNECTING /\ r <> VoiceWebSocket.OPEN) ->
  tidy (VoiceWebSocket.setReadyState w r st).
Proof.
  intros (H1 & H2) Hr. split; [|exact H2].
  intros w' Hl. unfold live, VoiceWebSocket.readyStateOf in *.
  cbn [VoiceWebSocket.sockets VoiceWebSocket.ws VoiceWebSocket.setReadyState
       VoiceWebSocket.with_sockets] in *.
  destruct (Nat.eq_dec w' w) as [->|Hne].
  - destruct Hr as [Hlive|[Hc Ho]]; [exact (H1 w Hlive)|].
    destruct (Nat.lt_ge_cases w (List.length (VoiceWebSocket.sockets st)))
      as [Hlt|Hge].
    + rewrite nth_error_setNth_same in Hl by assumption.
      destruct Hl as [Hl|Hl]; inversion Hl; congruence.
    + assert (Hnone : nth_error (VoiceWebSocket.setNth (VoiceWebSocket.sockets st) w r) w
                      = None)
        by (apply nth_error_None; rewrite length_setNth; exact Hge).
      rewrite Hnone in Hl. destruct Hl; discriminate.
  - rewrite nth_error_setNth_other in Hl by assumption. apply H1. exact Hl.
Qed.

Lemma onClose_tidy (st : VoiceWebSocket.state) :
  tidy st -> tidy (fst (VoiceWebSocket.onClose st)).
Proof.
  intros Hc. pose proof (reset_tidy st Hc) as H.
  unfold VoiceWebSocket.onClose.
  destruct (VoiceWebSocket.reset st) as [st' ev]. cbn [fst] in H.
  destruct (negb (VoiceWebSocket.dead st')); exact H.
Qed.

Lemma heartbeatRejected_tidy (st : VoiceWebSocket.state) :
  tidy st -> tidy (fst (VoiceWebSocket.heartbeatRejected st)).
Proof.
  intros Hc. pose proof (clearHeartbeat_tidy st Hc) as H.
  unfold VoiceWebSocket.heartbeatRejected.
  destruct (VoiceWebSocket.clearHeartbeat st). exact H.
Qed.

Lemma sendHeartbeat_tidy (OP : VoiceWebSocket.VoiceOPCodes)
    (json : VoiceWebSocket.Json) (now : Z) (st : VoiceWebSocket.state) :
  tidy st -> tidy (fst (VoiceWebSocket.sendHeartbeat OP json now st)).
Proof.
  intros Hc. unfold VoiceWebSocket.sendHeartbeat.
  destruct (VoiceWebSocket.sendPacket json _ st) as [[error|w data] ev];
    [|exact Hc].
  pose proof (heartbeatRejected_tidy st Hc) as H.
  destruct (VoiceWebSocket.heartbeatRejected st). exact H.
Qed.

Lemma step_tidy (OP : VoiceWebSocket.VoiceOPCodes) (json : VoiceWebSocket.Json)
    (conn : VoiceWebSocket.VoiceConnection) (st : VoiceWebSocket.state)
    (i : VoiceWebSocket.input) (st' : VoiceWebSocket.state)
    (ev : list VoiceWebSocket.event) :
  tidy st ->
  VoiceWebSocket.step OP json conn st i = Some (st', ev) ->
  tidy st'.
Proof.
  intros Hc. destruct i as [| |w|w data|w|w|w message|now| |]; simpl.
  - intros H. inversion H.
    change st' with (fst (st', ev)). rewrite <- H1.
    apply connect_tidy. exact Hc.
  - intros H. inversion H.
    change st' with (fst (st', ev)). rewrite <- H1.
    apply shutdown_tidy. exact Hc.
  - destruct (VoiceWebSocket.readyStateOf st w) as [[| | |]|] eqn:Hr;
      try discriminate.
    intros H. inversion H.
    change st' with (fst (st', ev)). rewrite <- H1, onOpen_state.
    apply setReadyState_tidy; [exact Hc|]. left. left. exact Hr.
  - destruct (VoiceWebSocket.readyStateOf st w) as [[| | |]|] eqn:Hr;
      try discriminate;
      intros H; inversion H;
      change st' with (fst (st', ev)); rewrite <- H1;
      apply onMessage_tidy; exact Hc.
  - destruct (VoiceWebSocket.readyStateOf st w) as [[| | |]|] eqn:Hr;
      try discriminate;
      intros H; inversion H; subst;
      (apply setReadyState_tidy; [exact Hc|]); right; split; discriminate.
  - destruct (VoiceWebSocket.readyStateOf st w) as [[| | |]|] eqn:Hr;
      try discriminate;
      intros H; inversion H;
      change st' with (fst (st', ev)); rewrite <- H1;
      apply onClose_tidy;
      (apply setReadyState_tidy; [exact Hc|]); right; split; discriminate.
  - destruct (VoiceWebSocket.readyStateOf st w); [|discriminate].
    intros H. inversion H.
    change st' with (fst (st', ev)). rewrite <- H1.
    apply onError_tidy. exact Hc.
  - destruct (VoiceWebSocket.heartbeatInterval st); [|discriminate].
    intros H. inversion H.
    change st' with (fst (st', ev)). rewrite <- H1.
    apply sendHeartbeat_tidy. exact Hc.
  - intros H. inversion H; subst. exact Hc.
  - intros H. inversion H.
    change st' with (fst (st', ev)). rewrite <- H1.
    apply heartbeatRejected_tidy. exact Hc.
Qed.

Lemma reachable_tidy (OP : VoiceWebSocket.VoiceOPCodes)
    (json : VoiceWebSocket.Json) (conn : VoiceWebSocket.VoiceConnection)
    (st : VoiceWebSocket.state) :
  VoiceWebSocket.reachable OP json conn st -> tidy st.
Proof.
  induction 1 as [|st i st' ev _ IH Hstep].
  - destruct fresh_consistent as (H1 & H2 & _). split; assumption.
  - exact (step_tidy OP json conn st i st' ev IH Hstep).
Qed.

(** * Further properties of the receiver *)

(** ** Header-extension stripping never fails *)

Lemma marker_length (data : Buffer.t) :
  VoiceReceiver.hasExtensionMarker data = true -> 4 < Buffer.length data.
Proof.
  unfold VoiceReceiver.hasExtensionMarker.
  destruct (Buffer.index data 0); [|discriminate].
  destruct (Buffer.index data 1); [|discriminate].
  intros H. apply andb_true_iff in H. destruct H as [_ H].
  apply Z.ltb_lt. exact H.
Qed.

Lemma readUInt16BE_in_range (data : Buffer.t) :
  4 < Buffer.length data -> Buffer.readUInt16BE data 2 <> None.
Proof.
  unfold Buffer.length.
  destruct data as [|b0 [|b1 [|b2 [|b3 rest]]]]; simpl; try lia.
  intros _. discriminate.
Qed.

(** X1.  The 16-bit read is guarded by the length test, so stripping always
    returns; what it returns is the payload without a prefix, and the
    prefix is empty without the marker and at least five bytes long with
    it. *)
Theorem stripExtensions_suffix (data : Buffer.t) :
  exists prefix frame,
    VoiceReceiver.stripExtensions data = Some frame
    /\ data = prefix ++ frame
    /\ if VoiceReceiver.hasExtensionMarker data
       then (5 <= List.length prefix)%nat
       else prefix = [].
Proof.
  unfold VoiceReceiver.stripExtensions.
  destruct (VoiceReceiver.hasExtensionMarker data) eqn:Hm.
  - pose proof (marker_length data Hm) as Hlen.
    pose proof (readUInt16BE_in_range data Hlen) as Hread.
    destruct (Buffer.readUInt16BE data 2) as [count|]; [|congruence].
    pose proof (skipElements_nonneg data (Z.to_nat count) 4 ltac:(lia)) as Hge.
    set (cursor := VoiceReceiver.skipElements data (Z.to_nat count) 4) in *.
    exists (firstn (Z.to_nat (cursor + 1)) data),
           (skipn (Z.to_nat (cursor + 1)) data).
    rewrite slice_from by lia.
    split; [reflexivity|]. split; [symmetry; apply firstn_skipn|].
    rewrite length_firstn. unfold Buffer.length in Hlen. lia.
  - exists [], data. repeat split.
Qed.

Lemma stripExtensions_returns (data : Buffer.t) :
  exists frame, VoiceReceiver.stripExtensions data = Some frame.
Proof.
  unfold VoiceReceiver.stripExtensions.
  destruct (VoiceReceiver.hasExtensionMarker data) eqn:Hm; [|eexists; reflexivity].
  pose proof (readUInt16BE_in_range data (marker_length data Hm)) as Hread.
  destruct (Buffer.readUInt16BE data 2); [eexists; reflexivity|congruence].
Qed.

(** ** When [handlePacket] throws *)

Lemma copy_tail_none (msg nonce : Buffer.t) (n : Z) :
  0 < n ->
  (Buffer.copy msg nonce 0 (Buffer.length msg - n) None = None
   <-> Buffer.length msg < n).
Proof.
  intros Hn. unfold Buffer.copy.
  pose proof (length_nonneg msg) as Hl.
  replace (0 <? 0) with false by reflexivity.
  replace (Buffer.length msg <? 0) with false by (symmetry; apply Z.ltb_ge; lia).
  cbn [orb]. rewrite orb_false_r.
  destruct (Buffer.length msg - n <? 0) eqn:E.
  - apply Z.ltb_lt in E. split; [lia|reflexivity].
  - apply Z.ltb_ge in E.
    replace (Buffer.length msg <=? Buffer.length msg - n) with false
      by (symmetry; apply Z.leb_gt; lia).
    replace (Buffer.length msg <? Buffer.length msg - n) with false
      by (symmetry; apply Z.ltb_ge; lia).
    rewrite orb_false_r.
    destruct (Buffer.length nonce <=? 0); split; try discriminate; lia.
Qed.

Lemma copy_head_some (msg nonce : Buffer.t) (n : Z) :
  0 < n -> Buffer.copy msg nonce 0 0 (Some n) <> None.
Proof.
  intros Hn. unfold Buffer.copy.
  replace (0 <? 0) with false by reflexivity.
  replace (n <? 0) with false by (symmetry; apply Z.ltb_ge; lia).
  replace (Buffer.length msg <? 0) with false
    by (symmetry; apply Z.ltb_ge; pose proof (length_nonneg msg); lia).
  cbn [orb].
  destruct ((Buffer.length nonce <=? 0) || (n <=? 0)); discriminate.
Qed.

Lemma chooseNonce_none_iff (mode : string) (nonce msg : Buffer.t) :
  VoiceReceiver.chooseNonce mode nonce msg = None
  <-> Buffer.length msg < trailingNonceBytes mode.
Proof.
  unfold VoiceReceiver.chooseNonce, trailingNonceBytes.
  destruct (String.eqb mode "xsalsa20_poly1305_lite").
  - rewrite <- (copy_tail_none msg nonce 4) by lia.
    destruct (Buffer.copy msg nonce 0 (Buffer.length msg - 4) None);
      split; congruence.
  - destruct (String.eqb mode "xsalsa20_poly1305_suffix").
    + rewrite <- (copy_tail_none msg nonce 24) by lia.
      destruct (Buffer.copy msg nonce 0 (Buffer.length msg - 24) None);
        split; congruence.
    + pose proof (copy_head_some msg nonce 12 ltac:(lia)) as H.
      pose proof (length_nonneg msg).
      destruct (Buffer.copy msg nonce 0 0 (Some 12)); split; try congruence; lia.
Qed.

Ltac fanOut_cases prim frame user st :=
  unfold VoiceReceiver.fanOut, VoiceReceiver.fetchEncoder,
    VoiceReceiver.OpusEncoders_fetch, VoiceReceiver.pushIfOpen;
  cbv beta iota zeta;
  destruct ((0 <? VoiceReceiver.pcmListenerCount st)
            || (0 <? JsMap.size (VoiceReceiver.pcmStreams st)));
  destruct (VoiceReceiver.users_get (VoiceReceiver.opusStreams st) user) eqn:?;
  destruct (VoiceReceiver.users_get (VoiceReceiver.opusEncoders st) user) eqn:?;
  try destruct (VoiceReceiver.decode prim _ frame) eqn:?;
  simpl;
  destruct (VoiceReceiver.users_get (VoiceReceiver.pcmStreams st) user) eqn:?;
  simpl.

Lemma fanOut_no_cipher (prim : VoiceReceiver.Primitives) (frame : Buffer.t)
    (user : VoiceReceiver.UserId) (st : VoiceReceiver.state) :
  ciphered (snd (VoiceReceiver.fanOut prim frame user st)) = []
  /\ errorsEmitted (snd (VoiceReceiver.fanOut prim frame user st)) = O
  /\ opusEmitted (snd (VoiceReceiver.fanOut prim frame user st)) = [(user, frame)]
  /\ fst (fst (VoiceReceiver.fanOut prim frame user st)) = VoiceReceiver.Normal.
Proof. fanOut_cases prim frame user st; repeat split. Qed.

(** X2.  [handlePacket] throws exactly when the datagram is shorter than the
    nonce its mode takes from the end (4 bytes in lite mode, 24 in suffix
    mode, never in the default mode).  It then throws before anything is
    done: the receiver is as it was and nothing is called or emitted.
    Otherwise it returns, after exactly one call of the cipher. *)
Theorem handlePacket_throws_iff_short (prim : VoiceReceiver.Primitives)
    (conn : VoiceReceiver.VoiceConnection) (msg : Buffer.t)
    (user : VoiceReceiver.UserId) (st : VoiceReceiver.state) :
  (Buffer.length msg < trailingNonceBytes (VoiceReceiver.encryptionMode conn) ->
   VoiceReceiver.handlePacket prim conn msg user st
   = (VoiceReceiver.Throw "RangeError", st, []))
  /\ (trailingNonceBytes (VoiceReceiver.encryptionMode conn) <= Buffer.length msg ->
      exists st' ev ciphertext,
        VoiceReceiver.handlePacket prim conn msg user st
        = (VoiceReceiver.Normal, st', ev)
        /\ ciphered ev
           = [(ciphertext, VoiceReceiver.nonce st', VoiceReceiver.secretKey conn)]).
Proof.
  pose proof (chooseNonce_none_iff (VoiceReceiver.encryptionMode conn)
                (VoiceReceiver.nonce st) msg) as Hiff.
  unfold VoiceReceiver.handlePacket.
  destruct (VoiceReceiver.chooseNonce _ _ msg) as [[nonce' end_]|].
  - split; [intros Hshort; apply Hiff in Hshort; discriminate|].
    intros _.
    destruct (VoiceReceiver.secretbox_open prim _ nonce' _) as [data|];
      [|eexists _, _, _; split; reflexivity].
    destruct (stripExtensions_returns data) as [frame ->].
    pose proof (fanOut_no_cipher prim frame user (VoiceReceiver.with_nonce nonce' st))
      as (Hc & _ & _ & Hn).
    pose proof (fanOut_keeps prim frame user (VoiceReceiver.with_nonce nonce' st))
      as Hk.
    destruct (VoiceReceiver.fanOut prim frame user _) as [[c st'] ev].
    destruct (Hk _ _ _ eq_refl) as [_ Hnonce].
    cbn [fst snd] in *. subst c.
    eexists _, _, _. split; [reflexivity|].
    cbn [ciphered]. rewrite Hc, Hnonce. reflexivity.
  - split; [reflexivity|].
    intros Hlong. exfalso.
    assert (H : Buffer.length msg
                < trailingNonceBytes (VoiceReceiver.encryptionMode conn))
      by (apply Hiff; reflexivity).
    lia.
Qed.

Lemma handlePacket_throws_iff_short_witness :
  VoiceReceiver.handlePacket plainPrimitives (sessionIn "xsalsa20_poly1305_suffix")
    datagram5 "alice"%string receiver0
  = (VoiceReceiver.Throw "RangeError", receiver0, [])
  /\ exists st' ev ciphertext,
       VoiceReceiver.handlePacket plainPrimitives (sessionIn "xsalsa20_poly1305_lite")
         datagram5 "alice"%string receiver0
       = (VoiceReceiver.Normal, st', ev)
       /\ ciphered ev = [(ciphertext, VoiceReceiver.nonce st', [7])].
Proof.
  split.
  - apply (handlePacket_throws_iff_short plainPrimitives
             (sessionIn "xsalsa20_poly1305_suffix")).
    vm_compute. reflexivity.
  - apply (handlePacket_throws_iff_short plainPrimitives
             (sessionIn "xsalsa20_poly1305_lite")).
    vm_compute. discriminate.
Defined.

(** ** The shared nonce buffer keeps its size *)

Lemma copy_length (src target : Buffer.t) (targetStart sourceStart : Z)
    (sourceEnd : option Z) (target' : Buffer.t) :
  Buffer.copy src target targetStart sourceStart sourceEnd = Some target' ->
  Buffer.length target' = Buffer.length target.
Proof.
  unfold Buffer.copy.
  set (se := match sourceEnd with Some e => e | None => Buffer.length src end).
  destruct ((targetStart <? 0) || (sourceStart <? 0) || (se <? 0)) eqn:E1;
    [discriminate|].
  apply orb_false_iff in E1. destruct E1 as [E1 E3].
  apply orb_false_iff in E1. destruct E1 as [E1 E2].
  apply Z.ltb_ge in E1, E2, E3.
  destruct ((Buffer.length target <=? targetStart) || (se <=? sourceStart)) eqn:E4;
    [intros H; inversion H; reflexivity|].
  apply orb_false_iff in E4. destruct E4 as [E4 E5].
  apply Z.leb_gt in E4, E5.
  destruct (Buffer.length src <? sourceStart) eqn:E6; [discriminate|].
  apply Z.ltb_ge in E6.
  intros H. inversion H. unfold Buffer.length in *.
  rewrite !length_app, length_firstn, length_firstn, !length_skipn. lia.
Qed.

Lemma chooseNonce_length (mode : string) (nonce msg nonce' : Buffer.t)
    (end_ : option Z) :
  VoiceReceiver.chooseNonce mode nonce msg = Some (nonce', end_) ->
  Buffer.length nonce' = Buffer.length nonce.
Proof.
  unfold VoiceReceiver.chooseNonce.
  destruct (String.eqb mode "xsalsa20_poly1305_lite");
    [|destruct (String.eqb mode "xsalsa20_poly1305_suffix")];
    match goal with
    | |- context [Buffer.copy ?a ?b ?c ?d ?e] =>
        destruct (Buffer.copy a b c d e) eqn:Hc; [|discriminate];
        apply copy_length in Hc
    end;
    intros H; inversion H; subst; exact Hc.
Qed.

(** X3.  Whatever the datagram and the mode, [handlePacket] leaves the shared
    nonce buffer with the length it had: the 24 bytes of the module stay 24
    bytes. *)
Theorem handlePacket_keeps_nonce_length (prim : VoiceReceiver.Primitives)
    (conn : VoiceReceiver.VoiceConnection) (msg : Buffer.t)
    (user : VoiceReceiver.UserId) (st : VoiceReceiver.state) :
  Buffer.length
    (VoiceReceiver.nonce (snd (fst (VoiceReceiver.handlePacket prim conn msg user st))))
  = Buffer.length (VoiceReceiver.nonce st).
Proof.
  destruct (VoiceReceiver.chooseNonce (VoiceReceiver.encryptionMode conn)
              (VoiceReceiver.nonce st) msg) as [[nonce' end_]|] eqn:Hc.
  - destruct (handlePacket_opens prim conn msg user st nonce' end_ Hc)
      as (c & st' & ev & -> & Hn).
    cbn [fst snd]. rewrite Hn. exact (chooseNonce_length _ _ _ _ _ Hc).
  - unfold VoiceReceiver.handlePacket. rewrite Hc. reflexivity.
Qed.

(** ** What [handlePacket] does with the frame *)

Lemma fanOut_pushed (prim : VoiceReceiver.Primitives) (frame : Buffer.t)
    (user : VoiceReceiver.UserId) (st : VoiceReceiver.state) :
  (forall s chunk,
      In (s, chunk) (pushed (snd (VoiceReceiver.fanOut prim frame user st))) ->
      chunk <> None
      /\ (VoiceReceiver.users_get (VoiceReceiver.opusStreams st) user = Some s
          \/ VoiceReceiver.users_get (VoiceReceiver.pcmStreams st) user = Some s))
  /\ (forall s,
        VoiceReceiver.users_get (VoiceReceiver.opusStreams st) user = Some s ->
        In (s, Some frame) (pushed (snd (VoiceReceiver.fanOut prim frame user st)))).
Proof.
  fanOut_cases prim frame user st;
    (split;
     [intros s' chunk Hin;
      repeat (destruct Hin as [Hin|Hin];
              [inversion Hin; subst; split; [discriminate|auto]|]);
      contradiction
     |intros s' Hs; inversion Hs; subst; simpl; auto]).
Qed.

Lemma fanOut_decoders (prim : VoiceReceiver.Primitives) (frame : Buffer.t)
    (user : VoiceReceiver.UserId) (st : VoiceReceiver.state) :
  let st' := snd (fst (VoiceReceiver.fanOut prim frame user st)) in
  let ev := snd (VoiceReceiver.fanOut prim frame user st) in
  (forall id, id <> user ->
      VoiceReceiver.users_get (VoiceReceiver.opusEncoders st') id
      = VoiceReceiver.users_get (VoiceReceiver.opusEncoders st) id)
  /\ (forall e,
        VoiceReceiver.users_get (VoiceReceiver.opusEncoders st) user = Some e ->
        VoiceReceiver.opusEncoders st' = VoiceReceiver.opusEncoders st)
  /\ (List.length (VoiceReceiver.fetched ev) <= 1)%nat
  /\ (VoiceReceiver.nextRef st <= VoiceReceiver.nextRef st')%nat
  /\ (forall e, In e (VoiceReceiver.fetched ev) ->
                VoiceReceiver.users_get (VoiceReceiver.opusEncoders st) user = None
                /\ VoiceReceiver.users_get (VoiceReceiver.opusEncoders st') user
                   = Some e).
Proof.
  fanOut_cases prim frame user st;
    (split;
     [intros id Hne; try reflexivity;
      unfold VoiceReceiver.users_get, VoiceReceiver.users_set;
      apply (get_set_other String.eqb string_eqb_eq); exact Hne|]);
    (split; [intros e' He'; (reflexivity || discriminate)|]);
    (split; [lia|]); (split; [lia|]);
    intros e' Hin;
    repeat (destruct Hin as [Hin|Hin];
            [subst e'; split; [reflexivity|];
             unfold VoiceReceiver.users_get, VoiceReceiver.users_set;
             apply (get_set_same String.eqb string_eqb_eq)|]);
    contradiction.
Qed.

(** X4.  A datagram that [handlePacket] can take a nonce from and that fails
    verification gives the ['decrypt'] warning and nothing else.  One that
    verifies gives exactly one ['opus'] event, with the frame left after
    stripping, whether or not anything is decoded and whether or not the
    decoder fails; and the frame is pushed to the speaker's raw stream, if
    one is registered. *)
Theorem handlePacket_raw_frame (prim : VoiceReceiver.Primitives)
    (conn : VoiceReceiver.VoiceConnection) (msg : Buffer.t)
    (user : VoiceReceiver.UserId) (st : VoiceReceiver.state)
    (nonce' : Buffer.t) (end_ : option Z) :
  VoiceReceiver.chooseNonce (VoiceReceiver.encryptionMode conn)
    (VoiceReceiver.nonce st) msg = Some (nonce', end_) ->
  match VoiceReceiver.secretbox_open prim (Buffer.slice msg 12 end_) nonce'
          (VoiceReceiver.secretKey conn) with
  | None =>
      exists ev,
        VoiceReceiver.handlePacket prim conn msg user st
        = (VoiceReceiver.Normal, VoiceReceiver.with_nonce nonce' st, ev)
        /\ opusEmitted ev = [] /\ pushed ev = []
        /\ VoiceReceiver.fetched ev = [] /\ VoiceReceiver.decoded ev = []
        /\ In (VoiceReceiver.Emit
                 (VoiceReceiver.Warn "decrypt" "Failed to decrypt voice packet")) ev
  | Some data =>
      exists frame st' ev,
        VoiceReceiver.stripExtensions data = Some frame
        /\ VoiceReceiver.handlePacket prim conn msg user st
           = (VoiceReceiver.Normal, st', ev)
        /\ opusEmitted ev = [(user, frame)]
        /\ match VoiceReceiver.users_get (VoiceReceiver.opusStreams st) user with
           | Some s => In (s, Some frame) (pushed ev)
           | None => True
           end
  end.
Proof.
  intros Hc. unfold VoiceReceiver.handlePacket. rewrite Hc.
  destruct (VoiceReceiver.secretbox_open prim _ nonce' _) as [data|].
  - destruct (stripExtensions_returns data) as [frame Hs]. rewrite Hs.
    pose proof (fanOut_no_cipher prim frame user (VoiceReceiver.with_nonce nonce' st))
      as (_ & _ & Ho & Hn).
    pose proof (fanOut_pushed prim frame user (VoiceReceiver.with_nonce nonce' st))
      as [_ Hp].
    destruct (VoiceReceiver.fanOut prim frame user _) as [[c st'] ev].
    cbn [fst snd] in *. subst c.
    exists frame, st', (VoiceReceiver.SecretboxOpen (Buffer.slice msg 12 end_) nonce'
                          (VoiceReceiver.secretKey conn) :: ev).
    split; [reflexivity|]. split; [reflexivity|]. split; [exact Ho|].
    change (VoiceReceiver.opusStreams (VoiceReceiver.with_nonce nonce' st))
      with (VoiceReceiver.opusStreams st) in Hp.
    destruct (VoiceReceiver.users_get (VoiceReceiver.opusStreams st) user);
      [apply Hp; reflexivity|exact I].
  - eexists. split; [reflexivity|]. simpl. auto 10.
Qed.

Lemma handlePacket_raw_frame_witness :
  exists frame st' ev,
    VoiceReceiver.stripExtensions [1; 2; 3] = Some frame
    /\ VoiceReceiver.handlePacket plainPrimitives (sessionIn "xsalsa20_poly1305")
         datagram5 "alice"%string receiver0
       = (VoiceReceiver.Normal, st', ev)
    /\ opusEmitted ev = [("alice"%string, frame)].
Proof.
  pose proof (handlePacket_raw_frame plainPrimitives (sessionIn "xsalsa20_poly1305")
                datagram5 "alice"%string receiver0
                (firstn 12 datagram5 ++ repeat 0 12) None eq_refl) as H.
  cbn [VoiceReceiver.secretbox_open plainPrimitives] in H.
  destruct H as (frame & st' & ev & Hs & Hh & Ho & _).
  exists frame, st', ev. auto.
Defined.

(** X5.  [handlePacket] calls [_push] only on a stream registered for the
    speaker of the datagram, and never with the end of the stream. *)
Theorem handlePacket_pushes_to_own_streams (prim : VoiceReceiver.Primitives)
    (conn : VoiceReceiver.VoiceConnection) (msg : Buffer.t)
    (user : VoiceReceiver.UserId) (st : VoiceReceiver.state)
    (s : VoiceReceiver.StreamRef) (chunk : option Buffer.t) :
  In (s, chunk) (pushed (snd (VoiceReceiver.handlePacket prim conn msg user st))) ->
  chunk <> None
  /\ (VoiceReceiver.users_get (VoiceReceiver.opusStreams st) user = Some s
      \/ VoiceReceiver.users_get (VoiceReceiver.pcmStreams st) user = Some s).
Proof.
  unfold VoiceReceiver.handlePacket.
  destruct (VoiceReceiver.chooseNonce _ _ msg) as [[nonce' end_]|]; [|intros []].
  destruct (VoiceReceiver.secretbox_open prim _ nonce' _) as [data|]; [|intros []].
  destruct (VoiceReceiver.stripExtensions data) as [frame|]; [|intros []].
  pose proof (fanOut_pushed prim frame user (VoiceReceiver.with_nonce nonce' st))
    as [Hp _].
  destruct (VoiceReceiver.fanOut prim frame user _) as [[c st'] ev].
  cbn [fst snd pushed] in *. intros Hin. exact (Hp s chunk Hin).
Qed.

Lemma handlePacket_pushes_to_own_streams_witness :
  VoiceReceiver.users_get
    (VoiceReceiver.pcmStreams
       (VoiceReceiver.with_pcmStreams [("alice"%string, 3%nat)] receiver0))
    "alice"%string = Some 3%nat.
Proof.
  destruct (handlePacket_pushes_to_own_streams plainPrimitives
              (sessionIn "xsalsa20_poly1305") datagram5 "alice"%string
              (VoiceReceiver.with_pcmStreams [("alice"%string, 3%nat)] receiver0)
              3%nat (Some [1; 2; 3])) as [_ [H|H]].
  - vm_compute. left. reflexivity.
  - vm_compute in H. discriminate.
  - exact H.
Defined.

(** X6.  [handlePacket] writes the decoder table at the speaker's identity
    only, and only when the speaker has no decoder: an existing decoder is
    never replaced, at most one decoder is fetched, and a decoder is fetched
    only for a speaker who has none, whose entry it then is. *)
Theorem handlePacket_decoder_table (prim : VoiceReceiver.Primitives)
    (conn : VoiceReceiver.VoiceConnection) (msg : Buffer.t)
    (user : VoiceReceiver.UserId) (st : VoiceReceiver.state) :
  let st' := snd (fst (VoiceReceiver.handlePacket prim conn msg user st)) in
  let ev := snd (VoiceReceiver.handlePacket prim conn msg user st) in
  (forall id, id <> user ->
      VoiceReceiver.users_get (VoiceReceiver.opusEncoders st') id
      = VoiceReceiver.users_get (VoiceReceiver.opusEncoders st) id)
  /\ (forall e,
        VoiceReceiver.users_get (VoiceReceiver.opusEncoders st) user = Some e ->
        VoiceReceiver.opusEncoders st' = VoiceReceiver.opusEncoders st)
  /\ (List.length (VoiceReceiver.fetched ev) <= 1)%nat
  /\ (forall e, In e (VoiceReceiver.fetched ev) ->
                VoiceReceiver.users_get (VoiceReceiver.opusEncoders st) user = None
                /\ VoiceReceiver.users_get (VoiceReceiver.opusEncoders st') user
                   = Some e).
Proof.
  unfold VoiceReceiver.handlePacket.
  destruct (VoiceReceiver.chooseNonce _ _ msg) as [[nonce' end_]|];
    [|cbn; repeat split; (lia || contradiction)].
  destruct (VoiceReceiver.secretbox_open prim _ nonce' _) as [data|];
    [|cbn; repeat split; (lia || contradiction)].
  destruct (VoiceReceiver.stripExtensions data) as [frame|];
    [|cbn; repeat split; (lia || contradiction)].
  pose proof (fanOut_decoders prim frame user (VoiceReceiver.with_nonce nonce' st))
    as (H1 & H2 & H3 & H4 & H5).
  destruct (VoiceReceiver.fanOut prim frame user _) as [[c st'] ev].
  cbn [fst snd VoiceReceiver.fetched] in *.
  repeat split; auto; apply (H5 e H).
Qed.

Lemma handlePacket_decoder_table_witness :
  let st := VoiceReceiver.with_opusEncoders [("bob"%string, 4%nat)]
              receiverWithBobsStream in
  VoiceReceiver.users_get
    (VoiceReceiver.opusEncoders
       (snd (fst (VoiceReceiver.handlePacket plainPrimitives
                    (sessionIn "xsalsa20_poly1305") datagram5 "alice"%string st))))
    "bob"%string
  = Some 4%nat.
Proof.
  intros st.
  destruct (handlePacket_decoder_table plainPrimitives
              (sessionIn "xsalsa20_poly1305") datagram5 "alice"%string st)
    as (H & _).
  rewrite (H "bob"%string); [reflexivity|discriminate].
Defined.

(** ** Datagrams the listener drops *)

Lemma readUInt32BE_short (msg : Buffer.t) :
  Buffer.length msg < 12 -> Buffer.readUInt32BE msg 8 = None.
Proof.
  intros Hlen. unfold Buffer.readUInt32BE.
  assert (H11 : Buffer.index msg (8 + 3) = None).
  { unfold Buffer.index. change (8 + 3 <? 0) with false. cbv beta iota.
    apply nth_error_None. unfold Buffer.length in Hlen. lia. }
  rewrite H11.
  destruct (Buffer.index msg 8); [|reflexivity].
  destruct (Buffer.index msg (8 + 1)); [|reflexivity].
  destruct (Buffer.index msg (8 + 2)); reflexivity.
Qed.

Lemma readUInt32BE_long (msg : Buffer.t) (ssrc : Z) :
  Buffer.readUInt32BE msg 8 = Some ssrc -> 12 <= Buffer.length msg.
Proof.
  intros H. destruct (Z.lt_ge_cases (Buffer.length msg) 12) as [Hlt|Hge];
    [|exact Hge].
  rewrite (readUInt32BE_short msg Hlt) in H. discriminate.
Qed.

(** X7.  A datagram of fewer than twelve bytes makes the listener throw, and a
    datagram whose source the session does not know is dropped, with a
    console line exactly when its first byte is 144.  In both cases the
    liveness timer is armed or refreshed and nothing else happens: no
    notification, no call of the cipher, no change of a table. *)
Theorem listener_drops (prim : VoiceReceiver.Primitives)
    (conn : VoiceReceiver.VoiceConnection) (now : Z) (msg : Buffer.t)
    (st : VoiceReceiver.state) :
  (Buffer.length msg < 12 ->
   VoiceReceiver._listener prim conn now msg st
   = (VoiceReceiver.Throw "RangeError",
      VoiceReceiver.touchDisconnectTimer now st, []))
  /\ (forall packageType ssrc,
        Buffer.readUInt8 msg 0 = Some packageType ->
        Buffer.readUInt32BE msg 8 = Some ssrc ->
        VoiceReceiver.ssrcMap conn ssrc = None ->
        VoiceReceiver._listener prim conn now msg st
        = (VoiceReceiver.Normal, VoiceReceiver.touchDisconnectTimer now st,
           if packageType =? 144
           then [VoiceReceiver.Console
                   "[discord.js] ssrc not found in a speaking package:"]
           else [])).
Proof.
  split.
  - intros Hlen. unfold VoiceReceiver._listener.
    rewrite (readUInt32BE_short msg Hlen).
    destruct (Buffer.readUInt8 msg 0); reflexivity.
  - intros packageType ssrc Htype Hssrc Hnone. unfold VoiceReceiver._listener.
    rewrite Htype, Hssrc, Hnone. reflexivity.
Qed.

Lemma listener_drops_witness :
  VoiceReceiver._listener plainPrimitives (sessionIn "xsalsa20_poly1305") 0
    shortDatagram receiver0
  = (VoiceReceiver.Throw "RangeError",
     VoiceReceiver.touchDisconnectTimer 0 receiver0, [])
  /\ VoiceReceiver._listener plainPrimitives (sessionIn "xsalsa20_poly1305") 0
       datagram9 receiver0
     = (VoiceReceiver.Normal, VoiceReceiver.touchDisconnectTimer 0 receiver0,
        [VoiceReceiver.Console "[discord.js] ssrc not found in a speaking package:"]).
Proof.
  destruct (listener_drops plainPrimitives (sessionIn "xsalsa20_poly1305") 0
              shortDatagram receiver0) as [Hshort _].
  destruct (listener_drops plainPrimitives (sessionIn "xsalsa20_poly1305") 0
              datagram9 receiver0) as [_ Hunknown].
  split.
  - apply Hshort. vm_compute. reflexivity.
  - apply (Hunknown 144 9); reflexivity.
Defined.

(** ** The liveness timer *)

Lemma errorsEmitted_app (a b : list VoiceReceiver.event) :
  errorsEmitted (a ++ b) = (errorsEmitted a + errorsEmitted b)%nat.
Proof.
  induction a as [|x a IH]; simpl; [reflexivity|].
  destruct x as [| | | | | | | |[]| | |]; simpl; rewrite IH; reflexivity.
Qed.

Lemma handlePacket_no_errors (prim : VoiceReceiver.Primitives)
    (conn : VoiceReceiver.VoiceConnection) (msg : Buffer.t)
    (user : VoiceReceiver.UserId) (st : VoiceReceiver.state) :
  errorsEmitted (snd (VoiceReceiver.handlePacket prim conn msg user st)) = O.
Proof.
  unfold VoiceReceiver.handlePacket.
  destruct (VoiceReceiver.chooseNonce _ _ msg) as [[nonce' end_]|]; [|reflexivity].
  destruct (VoiceReceiver.secretbox_open prim _ nonce' _) as [data|]; [|reflexivity].
  destruct (VoiceReceiver.stripExtensions data) as [frame|]; [|reflexivity].
  pose proof (fanOut_no_cipher prim frame user (VoiceReceiver.with_nonce nonce' st))
    as (_ & H & _).
  destruct (VoiceReceiver.fanOut prim frame user _) as [[c st'] ev].
  exact H.
Qed.

(** What the listener does to the liveness timer, whatever the datagram. *)
Lemma listener_liveness (prim : VoiceReceiver.Primitives)
    (conn : VoiceReceiver.VoiceConnection) (now : Z) (msg : Buffer.t)
    (st : VoiceReceiver.state) :
  let result := VoiceReceiver._listener prim conn now msg st in
  VoiceReceiver.disconnectTimer (snd (fst result))
  = VoiceReceiver.disconnectTimer (VoiceReceiver.touchDisconnectTimer now st)
  /\ VoiceReceiver.destroyed (snd (fst result)) = VoiceReceiver.destroyed st
  /\ VoiceReceiver.socketListeners (snd (fst result))
     = VoiceReceiver.socketListeners st
  /\ errorsEmitted (snd result) = O.
Proof.
  assert (Htouch : VoiceReceiver.destroyed (VoiceReceiver.touchDisconnectTimer now st)
                   = VoiceReceiver.destroyed st
                   /\ VoiceReceiver.socketListeners
                        (VoiceReceiver.touchDisconnectTimer now st)
                      = VoiceReceiver.socketListeners st).
  { unfold VoiceReceiver.touchDisconnectTimer.
    destruct (VoiceReceiver.disconnectTimer st); split; reflexivity. }
  destruct Htouch as [Hd Hs].
  unfold VoiceReceiver._listener.
  set (st0 := VoiceReceiver.touchDisconnectTimer now st) in *.
  destruct (Buffer.readUInt8 msg 0) as [packageType|]; [|cbn; auto].
  destruct (Buffer.readUInt32BE msg 8) as [ssrc|]; [|cbn; auto].
  destruct (VoiceReceiver.ssrcMap conn ssrc) as [userID|];
    [|destruct (packageType =? 144); cbn; auto].
  destruct (VoiceReceiver.ssrc_get (VoiceReceiver.speakingTimeouts st0) ssrc);
    [|destruct (VoiceReceiver.onSpeakingThrows conn userID ssrc true); [cbn; auto|]];
    match goal with
    | |- context [VoiceReceiver.handlePacket prim conn msg userID ?s] =>
        pose proof (handlePacket_no_errors prim conn msg userID s) as Hno;
        destruct (VoiceReceiver.handlePacket prim conn msg userID s)
          as [[c st'] ev] eqn:Hh
    end;
    apply handlePacket_keeps in Hh;
    destruct Hh as (_ & _ & _ & _ & Hd' & Ht' & _ & Hs');
    cbn [VoiceReceiver.destroyed VoiceReceiver.disconnectTimer
         VoiceReceiver.socketListeners VoiceReceiver.with_speakingTimeouts]
      in Hd', Ht', Hs';
    cbn [fst snd app errorsEmitted] in *;
    repeat split; congruence.
Qed.

Lemma fireIfDue_liveness (conn : VoiceReceiver.VoiceConnection) (now : Z)
    (st : VoiceReceiver.state) (ssrc : Z) :
  let result := VoiceReceiver.fireIfDue conn now st ssrc in
  VoiceReceiver.disconnectTimer (fst result) = VoiceReceiver.disconnectTimer st
  /\ VoiceReceiver.destroyed (fst result) = VoiceReceiver.destroyed st
  /\ VoiceReceiver.socketListeners (fst result) = VoiceReceiver.socketListeners st
  /\ errorsEmitted (snd result) = O.
Proof.
  unfold VoiceReceiver.fireIfDue, VoiceReceiver.speakingTimeoutFired.
  destruct (VoiceReceiver.ssrc_get (VoiceReceiver.speakingTimeouts st) ssrc)
    as [entry|]; [|cbn; auto].
  destruct (VoiceReceiver.due now (VoiceReceiver.timer entry)); [|cbn; auto].
  destruct (VoiceReceiver.onSpeakingThrows conn _ ssrc false); cbn; auto.
Qed.

(** Timers running while the liveness timer is not due: it stays as it is
    and nothing is emitted as an error. *)
Lemma fireTimers_liveness_idle (conn : VoiceReceiver.VoiceConnection) (now : Z)
    (ids : list VoiceReceiver.TimerId) (st : VoiceReceiver.state) :
  match VoiceReceiver.disconnectTimer st with
  | Some t => VoiceReceiver.due now t = false
  | None => True
  end ->
  let result := VoiceReceiver.fireTimers conn now ids st in
  VoiceReceiver.disconnectTimer (fst result) = VoiceReceiver.disconnectTimer st
  /\ VoiceReceiver.destroyed (fst result) = VoiceReceiver.destroyed st
  /\ VoiceReceiver.socketListeners (fst result) = VoiceReceiver.socketListeners st
  /\ errorsEmitted (snd result) = O.
Proof.
  revert st. induction ids as [|id ids IH]; intros st Hidle; [cbn; auto|].
  cbn [VoiceReceiver.fireTimers].
  assert (Hone : VoiceReceiver.disconnectTimer
                   (fst (VoiceReceiver.fireTimer conn now st id))
                 = VoiceReceiver.disconnectTimer st
                 /\ VoiceReceiver.destroyed
                      (fst (VoiceReceiver.fireTimer conn now st id))
                    = VoiceReceiver.destroyed st
                 /\ VoiceReceiver.socketListeners
                      (fst (VoiceReceiver.fireTimer conn now st id))
                    = VoiceReceiver.socketListeners st
                 /\ errorsEmitted (snd (VoiceReceiver.fireTimer conn now st id)) = O).
  { destruct id as [ssrc|]; cbn [VoiceReceiver.fireTimer].
    - apply fireIfDue_liveness.
    - destruct (VoiceReceiver.disconnectTimer st) as [t|] eqn:Ht;
        [rewrite Hidle|]; cbn; auto. }
  destruct (VoiceReceiver.fireTimer conn now st id) as [st1 ev1].
  cbn [fst snd] in Hone. destruct Hone as (H1 & H2 & H3 & H4).
  specialize (IH st1 ltac:(rewrite H1; exact Hidle)).
  destruct (VoiceReceiver.fireTimers conn now ids st1) as [st2 ev2].
  cbn [fst snd] in *. destruct IH as (I1 & I2 & I3 & I4).
  rewrite errorsEmitted_app, H4, I4. repeat split; congruence.
Qed.

(** Timers running while the liveness timer is due and among them: it runs
    once, and emits its error unless the receiver is destroyed. *)
Lemma fireTimers_liveness_due (conn : VoiceReceiver.VoiceConnection) (now : Z)
    (ids : list VoiceReceiver.TimerId) (st : VoiceReceiver.state)
    (t : VoiceReceiver.Timeout) :
  VoiceReceiver.disconnectTimer st = Some t ->
  VoiceReceiver.due now t = true ->
  In VoiceReceiver.DisconnectTimer ids ->
  let result := VoiceReceiver.fireTimers conn now ids st in
  VoiceReceiver.disconnectTimer (fst result) = None
  /\ VoiceReceiver.destroyed (fst result) = VoiceReceiver.destroyed st
  /\ VoiceReceiver.socketListeners (fst result) = VoiceReceiver.socketListeners st
  /\ errorsEmitted (snd result)
     = (if VoiceReceiver.destroyed st then 0 else 1)%nat.
Proof.
  revert st. induction ids as [|id ids IH]; intros st Ht Hdue Hin; [contradiction|].
  cbn [VoiceReceiver.fireTimers].
  destruct id as [ssrc|]; cbn [VoiceReceiver.fireTimer].
  - destruct Hin as [Heq|Hin]; [discriminate|].
    pose proof (fireIfDue_liveness conn now st ssrc) as (H1 & H2 & H3 & H4).
    destruct (VoiceReceiver.fireIfDue conn now st ssrc) as [st1 ev1].
    cbn [fst snd] in *.
    specialize (IH st1 ltac:(congruence) Hdue Hin).
    destruct (VoiceReceiver.fireTimers conn now ids st1) as [st2 ev2].
    cbn [fst snd] in *. destruct IH as (I1 & I2 & I3 & I4).
    rewrite errorsEmitted_app, H4, I4, H2. repeat split; congruence.
  - rewrite Ht, Hdue. unfold VoiceReceiver.disconnectTimerFired.
    destruct (VoiceReceiver.destroyed st) eqn:Hd; cbn [negb];
      match goal with
      | |- context [VoiceReceiver.fireTimers conn now ids ?s] =>
          pose proof (fireTimers_liveness_idle conn now ids s I)
            as (I1 & I2 & I3 & I4);
          destruct (VoiceReceiver.fireTimers conn now ids s) as [st2 ev2]
      end;
      cbn [fst snd VoiceReceiver.disconnectTimer VoiceReceiver.destroyed
           VoiceReceiver.socketListeners VoiceReceiver.with_disconnectTimer] in *;
      rewrite ?errorsEmitted_app, I4; cbn [errorsEmitted Nat.add];
      repeat split; congruence.
Qed.

Lemma disconnectTimer_listed (st : VoiceReceiver.state) (t : VoiceReceiver.Timeout) :
  VoiceReceiver.disconnectTimer st = Some t ->
  In VoiceReceiver.DisconnectTimer
     (VoiceReceiver.byDeadline st (VoiceReceiver.timerIds st)).
Proof.
  intros Ht. apply In_byDeadline. unfold VoiceReceiver.timerIds.
  apply in_or_app. right. rewrite Ht. left. reflexivity.
Qed.

Lemma emitMessage_once (prim : VoiceReceiver.Primitives)
    (conn : VoiceReceiver.VoiceConnection) (now : Z) (msg : Buffer.t)
    (st : VoiceReceiver.state) :
  snd (fst (VoiceReceiver.emitMessage prim 1 conn now msg st))
  = snd (fst (VoiceReceiver._listener prim conn now msg st))
  /\ snd (VoiceReceiver.emitMessage prim 1 conn now msg st)
     = snd (VoiceReceiver._listener prim conn now msg st).
Proof.
  cbn [VoiceReceiver.emitMessage].
  destruct (VoiceReceiver._listener prim conn now msg st) as [[[|error] st'] ev];
    cbn [fst snd]; rewrite ?app_nil_r; split; reflexivity.
Qed.

Lemma advance_liveness (conn : VoiceReceiver.VoiceConnection) (now : Z)
    (st : VoiceReceiver.state) :
  let result := VoiceReceiver.advance conn now st in
  VoiceReceiver.destroyed (fst result) = VoiceReceiver.destroyed st
  /\ VoiceReceiver.socketListeners (fst result) = VoiceReceiver.socketListeners st
  /\ match VoiceReceiver.disconnectTimer st with
     | Some t =>
         if VoiceReceiver.due now t
         then VoiceReceiver.disconnectTimer (fst result) = None
              /\ errorsEmitted (snd result)
                 = (if VoiceReceiver.destroyed st then 0 else 1)%nat
         else VoiceReceiver.disconnectTimer (fst result) = Some t
              /\ errorsEmitted (snd result) = O
     | None =>
         VoiceReceiver.disconnectTimer (fst result) = None
         /\ errorsEmitted (snd result) = O
     end.
Proof.
  unfold VoiceReceiver.advance.
  set (ids := VoiceReceiver.byDeadline st (VoiceReceiver.timerIds st)).
  destruct (VoiceReceiver.disconnectTimer st) as [t|] eqn:Ht;
    [destruct (VoiceReceiver.due now t) eqn:Hdue|].
  - pose proof (fireTimers_liveness_due conn now ids st t Ht Hdue
                  (disconnectTimer_listed st t Ht)) as (H1 & H2 & H3 & H4).
    cbv zeta. repeat split; assumption.
  - pose proof (fireTimers_liveness_idle conn now ids st) as H.
    rewrite Ht in H. destruct (H Hdue) as (H1 & H2 & H3 & H4).
    cbv zeta. repeat split; assumption.
  - pose proof (fireTimers_liveness_idle conn now ids st) as H.
    rewrite Ht in H. destruct (H I) as (H1 & H2 & H3 & H4).
    cbv zeta. repeat split; assumption.
Qed.

(** The run from a receiver whose liveness timer was armed at
    [previous]. *)
Lemma run_while_listening (prim : VoiceReceiver.Primitives)
    (conn : VoiceReceiver.VoiceConnection) :
  forall datagrams previous st,
    VoiceReceiver.socketListeners st = 1%nat ->
    VoiceReceiver.disconnectTimer st = Some (listeningSince previous) ->
    inOrder previous (map fst datagrams) ->
    errorsEmitted (snd (VoiceReceiver.run prim conn datagrams st))
    = if VoiceReceiver.destroyed st then O
      else silences previous (map fst datagrams).
Proof.
  induction datagrams as [|[now msg] datagrams IH];
    intros previous st Hsock Htimer Horder.
  - destruct (VoiceReceiver.destroyed st); reflexivity.
  - cbn [VoiceReceiver.run map fst silences].
    destruct Horder as [Hle Horder].
    pose proof (advance_liveness conn now st) as (Hd1 & Hs1 & Hcase).
    rewrite Htimer in Hcase.
    assert (Hdue : VoiceReceiver.due now (listeningSince previous)
                   = (3000 <=? now - previous)).
    { unfold VoiceReceiver.due, listeningSince. simpl.
      destruct (previous + 3000 <=? now) eqn:E1;
        destruct (3000 <=? now - previous) eqn:E2;
        try reflexivity; rewrite ?Z.leb_le, ?Z.leb_gt in *; lia. }
    rewrite Hdue in Hcase.
    destruct (VoiceReceiver.advance conn now st) as [st1 ev1].
    cbn [fst snd] in *. rewrite Hs1, Hsock.
    pose proof (emitMessage_once prim conn now msg st1) as [Hst Hev].
    pose proof (listener_liveness prim conn now msg st1) as (Ht2 & Hd2 & Hs2 & He2).
    destruct (VoiceReceiver.emitMessage prim 1 conn now msg st1) as [[c st2] ev2].
    cbn [fst snd] in *. rewrite <- Hst in Ht2, Hd2, Hs2. rewrite <- Hev in He2.
    assert (Htimer2 : VoiceReceiver.disconnectTimer st2 = Some (listeningSince now)).
    { rewrite Ht2. unfold VoiceReceiver.touchDisconnectTimer.
      destruct (3000 <=? now - previous); destruct Hcase as [Hc _]; rewrite Hc;
        reflexivity. }
    specialize (IH now st2 ltac:(congruence) Htimer2 Horder).
    destruct (VoiceReceiver.run prim conn datagrams st2) as [st3 ev3].
    cbn [snd] in *.
    rewrite !errorsEmitted_app, He2, IH, Hd2, Hd1.
    destruct (3000 <=? now - previous); destruct Hcase as [_ Hc]; rewrite Hc;
      destruct (VoiceReceiver.destroyed st); reflexivity.
Qed.

(** X8.  A receiver whose listener is registered, that is not destroyed and
    has no liveness timer receives datagrams, of any content, at times that
    do not go back.  It emits ['error'] once for each datagram that comes
    3000 ms or more after the one before it, and not otherwise; if the
    datagrams are all less than 3000 ms apart it emits none. *)
Theorem liveness_errors_follow_silences (prim : VoiceReceiver.Primitives)
    (conn : VoiceReceiver.VoiceConnection) (first : Z) (msg : Buffer.t)
    (datagrams : list (Z * Buffer.t)) (st : VoiceReceiver.state) :
  VoiceReceiver.socketListeners st = 1%nat ->
  VoiceReceiver.disconnectTimer st = None ->
  VoiceReceiver.destroyed st = false ->
  inOrder first (map fst datagrams) ->
  errorsEmitted
    (snd (VoiceReceiver.run prim conn ((first, msg) :: datagrams) st))
  = silences first (map fst datagrams).
Proof.
  intros Hsock Htimer Hdestroyed Horder.
  cbn [VoiceReceiver.run].
  pose proof (advance_liveness conn first st) as (Hd1 & Hs1 & Hcase).
  rewrite Htimer in Hcase. destruct Hcase as [Ht1 He1].
  destruct (VoiceReceiver.advance conn first st) as [st1 ev1].
  cbn [fst snd] in *. rewrite Hs1, Hsock.
  pose proof (emitMessage_once prim conn first msg st1) as [Hst Hev].
  pose proof (listener_liveness prim conn first msg st1) as (Ht2 & Hd2 & Hs2 & He2).
  destruct (VoiceReceiver.emitMessage prim 1 conn first msg st1) as [[c st2] ev2].
  cbn [fst snd] in *. rewrite <- Hst in Ht2, Hd2, Hs2. rewrite <- Hev in He2.
  assert (Htimer2 : VoiceReceiver.disconnectTimer st2 = Some (listeningSince first)).
  { rewrite Ht2. unfold VoiceReceiver.touchDisconnectTimer. rewrite Ht1.
    reflexivity. }
  pose proof (run_while_listening prim conn datagrams first st2
                ltac:(congruence) Htimer2 Horder) as Hrun.
  destruct (VoiceReceiver.run prim conn datagrams st2) as [st3 ev3].
  cbn [snd] in *.
  rewrite !errorsEmitted_app, He1, He2, Hrun, Hd2, Hd1, Hdestroyed. reflexivity.
Qed.

Lemma liveness_errors_follow_silences_witness :
  errorsEmitted
    (snd (VoiceReceiver.run plainPrimitives (sessionIn "xsalsa20_poly1305")
            [(0, datagram5); (2999, shortDatagram); (6000, datagram9)] receiver0))
  = 1%nat.
Proof.
  apply (liveness_errors_follow_silences plainPrimitives
           (sessionIn "xsalsa20_poly1305") 0 datagram5
           [(2999, shortDatagram); (6000, datagram9)] receiver0).
  - reflexivity.
  - reflexivity.
  - reflexivity.
  - simpl. lia.
Defined.

(** ** Sessions that stay in one mode *)

Lemma ciphered_app (a b : list VoiceReceiver.event) :
  ciphered (a ++ b) = ciphered a ++ ciphered b.
Proof.
  induction a as [|x a IH]; simpl; [reflexivity|].
  destruct x; simpl; rewrite IH; reflexivity.
Qed.

Lemma handlePacket_ciphered (prim : VoiceReceiver.Primitives)
    (conn : VoiceReceiver.VoiceConnection) (msg : Buffer.t)
    (user : VoiceReceiver.UserId) (st : VoiceReceiver.state) :
  match VoiceReceiver.chooseNonce (VoiceReceiver.encryptionMode conn)
          (VoiceReceiver.nonce st) msg with
  | Some (nonce', end_) =>
      ciphered (snd (VoiceReceiver.handlePacket prim conn msg user st))
      = [(Buffer.slice msg 12 end_, nonce', VoiceReceiver.secretKey conn)]
      /\ VoiceReceiver.nonce
           (snd (fst (VoiceReceiver.handlePacket prim conn msg user st)))
         = nonce'
  | None =>
      VoiceReceiver.handlePacket prim conn msg user st
      = (VoiceReceiver.Throw "RangeError", st, [])
  end.
Proof.
  unfold VoiceReceiver.handlePacket.
  destruct (VoiceReceiver.chooseNonce _ _ msg) as [[nonce' end_]|]; [|reflexivity].
  destruct (VoiceReceiver.secretbox_open prim _ nonce' _) as [data|];
    [|split; reflexivity].
  destruct (VoiceReceiver.stripExtensions data) as [frame|]; [|split; reflexivity].
  pose proof (fanOut_no_cipher prim frame user (VoiceReceiver.with_nonce nonce' st))
    as (Hc & _).
  pose proof (fanOut_keeps prim frame user (VoiceReceiver.with_nonce nonce' st))
    as Hk.
  destruct (VoiceReceiver.fanOut prim frame user _) as [[c st'] ev].
  destruct (Hk _ _ _ eq_refl) as [_ Hn].
  cbn [fst snd ciphered] in *. rewrite Hc. split; [reflexivity|exact Hn].
Qed.

Lemma skipn_app_exact {A} (l1 l2 : list A) (n : nat) :
  List.length l1 = n -> skipn n (l1 ++ l2) = l2.
Proof.
  intros <-. rewrite skipn_app, skipn_all, Nat.sub_diag. reflexivity.
Qed.

Lemma chooseNonce_zeroBeyond (mode : string) (nonce msg nonce' : Buffer.t)
    (end_ : option Z) :
  zeroBeyond mode nonce ->
  12 <= Buffer.length msg ->
  VoiceReceiver.chooseNonce mode nonce msg = Some (nonce', end_) ->
  nonce' = specifiedNonce mode msg
  /\ Buffer.slice msg 12 end_ = specifiedCiphertext mode msg
  /\ zeroBeyond mode nonce'.
Proof.
  intros [Hlen Hzero] Hmsg Hc.
  assert (Hlong : shortestDatagram mode <= Buffer.length msg).
  { assert (Hn : ~ Buffer.length msg < trailingNonceBytes mode).
    { intros Hs. apply (chooseNonce_none_iff mode nonce msg) in Hs. congruence. }
    unfold shortestDatagram, trailingNonceBytes in *.
    destruct (String.eqb mode "xsalsa20_poly1305_lite"); [lia|].
    destruct (String.eqb mode "xsalsa20_poly1305_suffix"); lia. }
  pose proof (chooseNonce_length _ _ _ _ _ Hc) as Hlen'.
  destruct (chooseNonce_bytes mode nonce msg Hlen Hlong)
    as (n & e & Hc' & Hs & Hn).
  rewrite Hc in Hc'. injection Hc' as E1 E2. subst nonce' end_.
  split; [|split; [exact Hs|]].
  - rewrite Hn. unfold specifiedNonce.
    destruct (String.eqb mode "xsalsa20_poly1305_lite"); [rewrite Hzero; reflexivity|].
    destruct (String.eqb mode "xsalsa20_poly1305_suffix"); [reflexivity|].
    rewrite Hzero. reflexivity.
  - split; [congruence|].
    unfold shortestDatagram, lastBytes, Buffer.length in *.
    destruct (String.eqb mode "xsalsa20_poly1305_lite").
    + rewrite Hn, Hzero. apply skipn_app_exact. rewrite length_skipn. lia.
    + destruct (String.eqb mode "xsalsa20_poly1305_suffix"); [exact I|].
      rewrite Hn, Hzero. apply skipn_app_exact. rewrite length_firstn. lia.
Qed.

Lemma handlePacket_single_mode (prim : VoiceReceiver.Primitives)
    (conn : VoiceReceiver.VoiceConnection) (msg : Buffer.t)
    (user : VoiceReceiver.UserId) (st : VoiceReceiver.state) :
  zeroBeyond (VoiceReceiver.encryptionMode conn) (VoiceReceiver.nonce st) ->
  12 <= Buffer.length msg ->
  zeroBeyond (VoiceReceiver.encryptionMode conn)
    (VoiceReceiver.nonce
       (snd (fst (VoiceReceiver.handlePacket prim conn msg user st))))
  /\ forall x,
       In x (ciphered (snd (VoiceReceiver.handlePacket prim conn msg user st))) ->
       x = (specifiedCiphertext (VoiceReceiver.encryptionMode conn) msg,
            specifiedNonce (VoiceReceiver.encryptionMode conn) msg,
            VoiceReceiver.secretKey conn).
Proof.
  intros Hz Hlen.
  pose proof (handlePacket_ciphered prim conn msg user st) as H.
  destruct (VoiceReceiver.chooseNonce _ _ msg) as [[nonce' end_]|] eqn:Hc.
  - destruct H as [Hev Hn].
    destruct (chooseNonce_zeroBeyond _ _ _ _ _ Hz Hlen Hc) as (Hn' & Hs & Hz').
    rewrite Hev, Hn. split; [exact Hz'|].
    intros x [<-|[]]. rewrite Hs, Hn'. reflexivity.
  - rewrite H. cbn [fst snd ciphered]. split; [exact Hz|intros x []].
Qed.

Lemma listener_single_mode (prim : VoiceReceiver.Primitives)
    (conn : VoiceReceiver.VoiceConnection) (now : Z) (msg : Buffer.t)
    (st : VoiceReceiver.state) :
  zeroBeyond (VoiceReceiver.encryptionMode conn) (VoiceReceiver.nonce st) ->
  zeroBeyond (VoiceReceiver.encryptionMode conn)
    (VoiceReceiver.nonce
       (snd (fst (VoiceReceiver._listener prim conn now msg st))))
  /\ forall x,
       In x (ciphered (snd (VoiceReceiver._listener prim conn now msg st))) ->
       x = (specifiedCiphertext (VoiceReceiver.encryptionMode conn) msg,
            specifiedNonce (VoiceReceiver.encryptionMode conn) msg,
            VoiceReceiver.secretKey conn).
Proof.
  intros Hz.
  assert (Hz0 : zeroBeyond (VoiceReceiver.encryptionMode conn)
                  (VoiceReceiver.nonce (VoiceReceiver.touchDisconnectTimer now st))).
  { unfold VoiceReceiver.touchDisconnectTimer.
    destruct (VoiceReceiver.disconnectTimer st); exact Hz. }
  unfold VoiceReceiver._listener.
  set (st0 := VoiceReceiver.touchDisconnectTimer now st) in *.
  destruct (Buffer.readUInt8 msg 0) as [packageType|];
    [|split; [exact Hz0|intros x []]].
  destruct (Buffer.readUInt32BE msg 8) as [ssrc|] eqn:Hssrc;
    [|split; [exact Hz0|intros x []]].
  pose proof (readUInt32BE_long msg ssrc Hssrc) as Hlen.
  destruct (VoiceReceiver.ssrcMap conn ssrc) as [userID|];
    [|split; [exact Hz0|destruct (packageType =? 144); cbn; intros x []]].
  destruct (VoiceReceiver.ssrc_get (VoiceReceiver.speakingTimeouts st0) ssrc);
    [|destruct (VoiceReceiver.onSpeakingThrows conn userID ssrc true);
      [split; [exact Hz0|intros x []]|]];
    match goal with
    | |- context [VoiceReceiver.handlePacket prim conn msg userID ?s] =>
        pose proof (handlePacket_single_mode prim conn msg userID s Hz0 Hlen)
          as [Hz' Hev];
        destruct (VoiceReceiver.handlePacket prim conn msg userID s)
          as [[c st'] ev]
    end;
    cbn [fst snd app ciphered] in *; split; assumption.
Qed.

Lemma emitMessage_single_mode (prim : VoiceReceiver.Primitives)
    (conn : VoiceReceiver.VoiceConnection) (now : Z) (msg : Buffer.t) :
  forall registrations st,
    zeroBeyond (VoiceReceiver.encryptionMode conn) (VoiceReceiver.nonce st) ->
    zeroBeyond (VoiceReceiver.encryptionMode conn)
      (VoiceReceiver.nonce
         (snd (fst (VoiceReceiver.emitMessage prim registrations conn now msg st))))
    /\ forall x,
         In x (ciphered
                 (snd (VoiceReceiver.emitMessage prim registrations conn now msg st))) ->
         x = (specifiedCiphertext (VoiceReceiver.encryptionMode conn) msg,
              specifiedNonce (VoiceReceiver.encryptionMode conn) msg,
              VoiceReceiver.secretKey conn).
Proof.
  induction registrations as [|n IH]; intros st Hz;
    [split; [exact Hz|intros x []]|].
  cbn [VoiceReceiver.emitMessage].
  pose proof (listener_single_mode prim conn now msg st Hz) as [Hz1 Hev1].
  destruct (VoiceReceiver._listener prim conn now msg st) as [[[|error] st1] ev1];
    cbn [fst snd] in *; [|split; assumption].
  destruct (IH st1 Hz1) as [Hz2 Hev2].
  destruct (VoiceReceiver.emitMessage prim n conn now msg st1) as [[c st2] ev2].
  cbn [fst snd] in *. split; [exact Hz2|].
  intros x Hin. rewrite ciphered_app in Hin.
  apply in_app_or in Hin. destruct Hin; auto.
Qed.

Lemma fireTimers_nonce (conn : VoiceReceiver.VoiceConnection) (now : Z)
    (ids : list VoiceReceiver.TimerId) (st : VoiceReceiver.state) :
  VoiceReceiver.nonce (fst (VoiceReceiver.fireTimers conn now ids st))
  = VoiceReceiver.nonce st
  /\ ciphered (snd (VoiceReceiver.fireTimers conn now ids st)) = [].
Proof.
  revert st. induction ids as [|id ids IH]; intros st; [split; reflexivity|].
  cbn [VoiceReceiver.fireTimers].
  assert (Hone : VoiceReceiver.nonce (fst (VoiceReceiver.fireTimer conn now st id))
                 = VoiceReceiver.nonce st
                 /\ ciphered (snd (VoiceReceiver.fireTimer conn now st id)) = []).
  { destruct id as [ssrc|]; cbn [VoiceReceiver.fireTimer].
    - unfold VoiceReceiver.fireIfDue, VoiceReceiver.speakingTimeoutFired.
      destruct (VoiceReceiver.ssrc_get (VoiceReceiver.speakingTimeouts st) ssrc)
        as [entry|]; [|split; reflexivity].
      destruct (VoiceReceiver.due now (VoiceReceiver.timer entry));
        [|split; reflexivity].
      destruct (VoiceReceiver.onSpeakingThrows conn _ ssrc false);
        split; reflexivity.
    - unfold VoiceReceiver.disconnectTimerFired.
      destruct (VoiceReceiver.disconnectTimer st) as [t|];
        [destruct (VoiceReceiver.due now t);
         [destruct (negb (VoiceReceiver.destroyed st))|]|];
        split; reflexivity. }
  destruct (VoiceReceiver.fireTimer conn now st id) as [st1 ev1].
  specialize (IH st1).
  destruct (VoiceReceiver.fireTimers conn now ids st1) as [st2 ev2].
  cbn [fst snd] in *. destruct Hone as [H1 H2]. destruct IH as [I1 I2].
  rewrite ciphered_app, H2, I2. split; [congruence|reflexivity].
Qed.

Lemma advance_nonce (conn : VoiceReceiver.VoiceConnection) (now : Z)
    (st : VoiceReceiver.state) :
  VoiceReceiver.nonce (fst (VoiceReceiver.advance conn now st))
  = VoiceReceiver.nonce st
  /\ ciphered (snd (VoiceReceiver.advance conn now st)) = [].
Proof. apply fireTimers_nonce. Qed.

(** X9.  In a session that stays in one mode, on a receiver whose shared buffer
    is zero beyond the bytes the mode writes (as it is when the module is
    loaded), every call of the cipher, for every datagram of every source,
    gets the ciphertext and the nonce of the mode's rule for one of the
    datagrams, and the session's key. *)
Theorem single_mode_nonces_by_rule (prim : VoiceReceiver.Primitives)
    (conn : VoiceReceiver.VoiceConnection) (datagrams : list (Z * Buffer.t))
    (st : VoiceReceiver.state) :
  zeroBeyond (VoiceReceiver.encryptionMode conn) (VoiceReceiver.nonce st) ->
  forall x,
    In x (ciphered (snd (VoiceReceiver.run prim conn datagrams st))) ->
    exists msg,
      In msg (map snd datagrams)
      /\ x = (specifiedCiphertext (VoiceReceiver.encryptionMode conn) msg,
              specifiedNonce (VoiceReceiver.encryptionMode conn) msg,
              VoiceReceiver.secretKey conn).
Proof.
  revert st. induction datagrams as [|[now msg] datagrams IH]; intros st Hz x;
    [intros []|].
  cbn [VoiceReceiver.run].
  pose proof (advance_nonce conn now st) as [Hn1 Hc1].
  destruct (VoiceReceiver.advance conn now st) as [st1 ev1].
  cbn [fst snd] in *. rewrite <- Hn1 in Hz.
  pose proof (emitMessage_single_mode prim conn now msg
                (VoiceReceiver.socketListeners st1) st1 Hz) as [Hz2 Hev2].
  destruct (VoiceReceiver.emitMessage prim _ conn now msg st1) as [[c st2] ev2].
  cbn [fst snd] in *.
  specialize (IH st2 Hz2 x).
  destruct (VoiceReceiver.run prim conn datagrams st2) as [st3 ev3].
  cbn [snd map] in *.
  rewrite !ciphered_app, Hc1. cbn [app]. intros Hin.
  apply in_app_or in Hin. destruct Hin as [Hin|Hin].
  - exists msg. split; [left; reflexivity|exact (Hev2 x Hin)].
  - destruct (IH Hin) as (msg' & Hm & Hx). exists msg'. split; [right; exact Hm|exact Hx].
Qed.

Lemma single_mode_nonces_by_rule_witness :
  exists msg,
    In msg [datagram5; datagram5]
    /\ ([1; 2; 3], firstn 12 datagram5 ++ repeat 0 12, [7])
       = (specifiedCiphertext "xsalsa20_poly1305" msg,
          specifiedNonce "xsalsa20_poly1305" msg, [7]).
Proof.
  apply (single_mode_nonces_by_rule plainPrimitives (sessionIn "xsalsa20_poly1305")
           [(0, datagram5); (20, datagram5)] receiver0).
  - split; reflexivity.
  - vm_compute. left. reflexivity.
Defined.

(** ** The life of a stream *)

(** X10.  On a receiver that is not destroyed [recreate] does nothing: the
    listener is not registered a second time.  After [destroy] it registers
    the listener again and clears the flag, and that is all: the stream and
    decoder tables stay empty, so no stream issued before is registered
    again. *)
Theorem recreate_after_destroy (st : VoiceReceiver.state) :
  VoiceReceiver.destroyed st = false ->
  VoiceReceiver.recreate st = (st, [])
  /\ exists st',
       VoiceReceiver.recreate (fst (VoiceReceiver.destroy st))
       = (st', [VoiceReceiver.SocketOn])
       /\ VoiceReceiver.destroyed st' = false
       /\ VoiceReceiver.socketListeners st'
          = S (Nat.pred (VoiceReceiver.socketListeners st))
       /\ VoiceReceiver.pcmStreams st' = []
       /\ VoiceReceiver.opusStreams st' = []
       /\ VoiceReceiver.opusEncoders st' = []
       /\ VoiceReceiver.speakingTimeouts st' = VoiceReceiver.speakingTimeouts st
       /\ VoiceReceiver.disconnectTimer st' = VoiceReceiver.disconnectTimer st
       /\ VoiceReceiver.nextRef st' = VoiceReceiver.nextRef st.
Proof.
  intros Halive. split.
  - unfold VoiceReceiver.recreate. rewrite Halive. reflexivity.
  - unfold VoiceReceiver.destroy.
    cbn [VoiceReceiver.pcmStreams VoiceReceiver.opusStreams
         VoiceReceiver.opusEncoders VoiceReceiver.with_socketListeners
         VoiceReceiver.with_pcmStreams VoiceReceiver.with_opusStreams].
    pose proof (endStreams_table (VoiceReceiver.pcmStreams st)
                  (VoiceReceiver.pcmStreams st) (fun k H => H)) as T1.
    pose proof (endStreams_table (VoiceReceiver.opusStreams st)
                  (VoiceReceiver.opusStreams st) (fun k H => H)) as T2.
    pose proof (destroyEncoders_table (VoiceReceiver.opusEncoders st)
                  (VoiceReceiver.opusEncoders st) (fun k H => H)) as T3.
    destruct (VoiceReceiver.endStreams (VoiceReceiver.pcmStreams st) _) as [pcm ev1].
    destruct (VoiceReceiver.endStreams (VoiceReceiver.opusStreams st) _) as [opus ev2].
    destruct (VoiceReceiver.destroyEncoders (VoiceReceiver.opusEncoders st) _)
      as [enc ev3].
    cbn [fst] in *. subst.
    eexists. split; [reflexivity|]. cbn. repeat split.
Qed.

Lemma recreate_after_destroy_witness :
  exists st',
    VoiceReceiver.recreate (fst (VoiceReceiver.destroy receiverWithBobsStream))
    = (st', [VoiceReceiver.SocketOn])
    /\ VoiceReceiver.socketListeners st' = 1%nat
    /\ VoiceReceiver.pcmStreams st' = [].
Proof.
  destruct (recreate_after_destroy receiverWithBobsStream eq_refl)
    as (_ & st' & H & _ & Hs & Hp & _).
  exists st'. auto.
Defined.

Lemma users_delete_absent {V} (m : JsMap.t VoiceReceiver.UserId V)
    (k : VoiceReceiver.UserId) :
  VoiceReceiver.users_get m k = None -> VoiceReceiver.users_delete m k = m.
Proof.
  unfold VoiceReceiver.users_get, VoiceReceiver.users_delete.
  induction m as [|[k' v] m IH]; simpl; [reflexivity|].
  destruct (String.eqb k k'); [discriminate|].
  intros H. rewrite (IH H). reflexivity.
Qed.

(** What [stoppedSpeaking] leaves: both stream tables without the user, the
    decoder table and the reference counter as they were. *)
Lemma stoppedSpeaking_state (user : VoiceReceiver.UserId)
    (st : VoiceReceiver.state) :
  let st' := fst (VoiceReceiver.stoppedSpeaking user st) in
  VoiceReceiver.opusStreams st'
  = VoiceReceiver.users_delete (VoiceReceiver.opusStreams st) user
  /\ VoiceReceiver.pcmStreams st'
     = VoiceReceiver.users_delete (VoiceReceiver.pcmStreams st) user
  /\ VoiceReceiver.opusEncoders st' = VoiceReceiver.opusEncoders st
  /\ VoiceReceiver.nextRef st' = VoiceReceiver.nextRef st.
Proof.
  unfold VoiceReceiver.stoppedSpeaking.
  destruct (VoiceReceiver.users_get (VoiceReceiver.opusStreams st) user) eqn:Eo;
    destruct (VoiceReceiver.users_get (VoiceReceiver.pcmStreams st) user) eqn:Ep;
    cbn -[VoiceReceiver.users_delete];
    rewrite ?(users_delete_absent _ _ Eo), ?(users_delete_absent _ _ Ep);
    repeat split.
Qed.

Lemma stoppedSpeaking_events (user : VoiceReceiver.UserId)
    (st : VoiceReceiver.state) :
  snd (VoiceReceiver.stoppedSpeaking user st)
  = match VoiceReceiver.users_get (VoiceReceiver.opusStreams st) user with
    | Some s => [VoiceReceiver.StreamPush s None;
                 VoiceReceiver.StreamSetOpen s false]
    | None => []
    end
    ++ match VoiceReceiver.users_get (VoiceReceiver.pcmStreams st) user with
       | Some s => [VoiceReceiver.StreamPush s None;
                    VoiceReceiver.StreamSetOpen s false]
       | None => []
       end
    ++ match VoiceReceiver.users_get (VoiceReceiver.opusEncoders st) user with
       | Some e => [VoiceReceiver.EncoderDestroy e]
       | None => []
       end.
Proof.
  unfold VoiceReceiver.stoppedSpeaking.
  destruct (VoiceReceiver.users_get (VoiceReceiver.opusStreams st) user);
    destruct (VoiceReceiver.users_get (VoiceReceiver.pcmStreams st) user);
    reflexivity.
Qed.

(** X11.  A stream that is opened and then stopped: [stoppedSpeaking] pushes the
    end of the stream on it, marks it closed and takes it out of the table,
    leaving the other identities' streams; the identity can then open a
    stream again, and gets another one.  The same holds for the raw and for
    the decoded stream. *)
Theorem open_stop_open (prim : VoiceReceiver.Primitives) (name : string)
    (id : VoiceReceiver.UserId) (st : VoiceReceiver.state) :
  VoiceReceiver.resolveUser prim name = Some id ->
  let s := VoiceReceiver.nextRef st in
  (VoiceReceiver.users_get (VoiceReceiver.opusStreams st) id = None ->
   exists st1 st2 ev st3,
     VoiceReceiver.createOpusStream prim name st = (inr s, st1)
     /\ VoiceReceiver.stoppedSpeaking id st1 = (st2, ev)
     /\ In (VoiceReceiver.StreamPush s None) ev
     /\ In (VoiceReceiver.StreamSetOpen s false) ev
     /\ VoiceReceiver.users_get (VoiceReceiver.opusStreams st2) id = None
     /\ (forall id', id' <> id ->
           VoiceReceiver.users_get (VoiceReceiver.opusStreams st2) id'
           = VoiceReceiver.users_get (VoiceReceiver.opusStreams st) id')
     /\ VoiceReceiver.createOpusStream prim name st2 = (inr (S s), st3))
  /\ (VoiceReceiver.users_get (VoiceReceiver.pcmStreams st) id = None ->
      exists st1 st2 ev st3,
        VoiceReceiver.createPCMStream prim name st = (inr s, st1)
        /\ VoiceReceiver.stoppedSpeaking id st1 = (st2, ev)
        /\ In (VoiceReceiver.StreamPush s None) ev
        /\ In (VoiceReceiver.StreamSetOpen s false) ev
        /\ VoiceReceiver.users_get (VoiceReceiver.pcmStreams st2) id = None
        /\ (forall id', id' <> id ->
              VoiceReceiver.users_get (VoiceReceiver.pcmStreams st2) id'
              = VoiceReceiver.users_get (VoiceReceiver.pcmStreams st) id')
        /\ VoiceReceiver.createPCMStream prim name st2 = (inr (S s), st3)).
Proof.
  intros Hres s. unfold s. clear s.
  split; intros Hnone.
  - set (st1 := VoiceReceiver.with_opusStreams
                  (VoiceReceiver.users_set (VoiceReceiver.opusStreams st) id
                     (VoiceReceiver.nextRef st))
                  (VoiceReceiver.with_nextRef (S (VoiceReceiver.nextRef st)) st)).
    assert (H1 : VoiceReceiver.createOpusStream prim name st
                 = (inr (VoiceReceiver.nextRef st), st1)).
    { unfold VoiceReceiver.createOpusStream. rewrite Hres, Hnone. reflexivity. }
    assert (Hget : VoiceReceiver.users_get (VoiceReceiver.opusStreams st1) id
                   = Some (VoiceReceiver.nextRef st)).
    { destruct st. apply (get_set_same String.eqb string_eqb_eq). }
    destruct (stoppedSpeaking_state id st1) as (Ho & _ & _ & Hn).
    pose proof (stoppedSpeaking_events id st1) as Hev.
    destruct (VoiceReceiver.stoppedSpeaking id st1) as [st2 ev] eqn:Hstop.
    cbn [fst snd] in *. rewrite Hget in Hev.
    assert (Hgone : VoiceReceiver.users_get (VoiceReceiver.opusStreams st2) id
                    = None).
    { rewrite Ho. apply users_get_delete_same. }
    eexists st1, st2, ev, _.
    split; [exact H1|]. split; [exact Hstop|].
    split; [rewrite Hev; simpl; auto|]. split; [rewrite Hev; simpl; auto|].
    split; [exact Hgone|]. split.
    + intros id' Hne. rewrite Ho.
      unfold VoiceReceiver.users_get, VoiceReceiver.users_delete.
      rewrite users_get_delete_other by exact Hne.
      destruct st. apply (get_set_other String.eqb string_eqb_eq). exact Hne.
    + unfold VoiceReceiver.createOpusStream. rewrite Hres, Hgone.
      unfold VoiceReceiver.newReadable. rewrite Hn.
      destruct st; reflexivity.
  - set (st1 := VoiceReceiver.with_pcmStreams
                  (VoiceReceiver.users_set (VoiceReceiver.pcmStreams st) id
                     (VoiceReceiver.nextRef st))
                  (VoiceReceiver.with_nextRef (S (VoiceReceiver.nextRef st)) st)).
    assert (H1 : VoiceReceiver.createPCMStream prim name st
                 = (inr (VoiceReceiver.nextRef st), st1)).
    { unfold VoiceReceiver.createPCMStream. rewrite Hres, Hnone. reflexivity. }
    assert (Hget : VoiceReceiver.users_get (VoiceReceiver.pcmStreams st1) id
                   = Some (VoiceReceiver.nextRef st)).
    { destruct st. apply (get_set_same String.eqb string_eqb_eq). }
    destruct (stoppedSpeaking_state id st1) as (_ & Hp & _ & Hn).
    pose proof (stoppedSpeaking_events id st1) as Hev.
    destruct (VoiceReceiver.stoppedSpeaking id st1) as [st2 ev] eqn:Hstop.
    cbn [fst snd] in *. rewrite Hget in Hev.
    assert (Hgone : VoiceReceiver.users_get (VoiceReceiver.pcmStreams st2) id
                    = None).
    { rewrite Hp. apply users_get_delete_same. }
    eexists st1, st2, ev, _.
    split; [exact H1|]. split; [exact Hstop|].
    split; [rewrite Hev; apply in_or_app; right; simpl; auto|].
    split; [rewrite Hev; apply in_or_app; right; simpl; auto|].
    split; [exact Hgone|]. split.
    + intros id' Hne. rewrite Hp.
      unfold VoiceReceiver.users_get, VoiceReceiver.users_delete.
      rewrite users_get_delete_other by exact Hne.
      destruct st. apply (get_set_other String.eqb string_eqb_eq). exact Hne.
    + unfold VoiceReceiver.createPCMStream. rewrite Hres, Hgone.
      unfold VoiceReceiver.newReadable. rewrite Hn.
      destruct st; reflexivity.
Qed.

Lemma open_stop_open_witness :
  exists st1 st2 ev st3,
    VoiceReceiver.createOpusStream plainPrimitives "alice"%string receiver0
    = (inr (VoiceReceiver.nextRef receiver0), st1)
    /\ VoiceReceiver.stoppedSpeaking "alice"%string st1 = (st2, ev)
    /\ In (VoiceReceiver.StreamPush (VoiceReceiver.nextRef receiver0) None) ev
    /\ In (VoiceReceiver.StreamSetOpen (VoiceReceiver.nextRef receiver0) false) ev
    /\ VoiceReceiver.users_get (VoiceReceiver.opusStreams st2) "alice"%string = None
    /\ (forall id', id' <> "alice"%string ->
          VoiceReceiver.users_get (VoiceReceiver.opusStreams st2) id'
          = VoiceReceiver.users_get (VoiceReceiver.opusStreams receiver0) id')
    /\ VoiceReceiver.createOpusStream plainPrimitives "alice"%string st2
       = (inr (S (VoiceReceiver.nextRef receiver0)), st3).
Proof.
  exact (proj1 (open_stop_open plainPrimitives "alice"%string "alice"%string
                    receiver0 eq_refl)
           eq_refl).
Defined.

(** X12.  [stoppedSpeaking] a second time for the same identity ends no stream and
    leaves the receiver as it is, but calls [destroy] once more on the
    decoder, which is still in the table. *)
Theorem stoppedSpeaking_again (user : VoiceReceiver.UserId)
    (st : VoiceReceiver.state) :
  let st1 := fst (VoiceReceiver.stoppedSpeaking user st) in
  VoiceReceiver.stoppedSpeaking user st1
  = (st1, match VoiceReceiver.users_get (VoiceReceiver.opusEncoders st) user with
          | Some e => [VoiceReceiver.EncoderDestroy e]
          | None => []
          end).
Proof.
  intros st1.
  destruct (stoppedSpeaking_state user st) as (Ho & Hp & He & _).
  fold st1 in Ho, Hp, He.
  assert (Go : VoiceReceiver.users_get (VoiceReceiver.opusStreams st1) user = None)
    by (rewrite Ho; apply users_get_delete_same).
  assert (Gp : VoiceReceiver.users_get (VoiceReceiver.pcmStreams st1) user = None)
    by (rewrite Hp; apply users_get_delete_same).
  unfold VoiceReceiver.stoppedSpeaking at 1.
  rewrite Go, Gp, He. reflexivity.
Qed.

(** * Further properties of the control channel *)

Lemma armed_app (a b : list VoiceWebSocket.event) :
  armed (a ++ b) = armed a ++ armed b.
Proof.
  induction a as [|e a IH]; [reflexivity|].
  destruct e; simpl; rewrite ?IH; reflexivity.
Qed.

Lemma cleared_app (a b : list VoiceWebSocket.event) :
  cleared (a ++ b) = (cleared a + cleared b)%nat.
Proof.
  induction a as [|e a IH]; [reflexivity|].
  destruct e; simpl; rewrite ?IH; reflexivity.
Qed.

Lemma errors_app (a b : list VoiceWebSocket.event) :
  errors (a ++ b) = errors a ++ errors b.
Proof.
  induction a as [|e a IH]; [reflexivity|].
  destruct e as [| | |[]| | | |]; simpl; rewrite ?IH; reflexivity.
Qed.

Lemma sent_app (a b : list VoiceWebSocket.event) :
  VoiceWebSocket.sent (a ++ b) = VoiceWebSocket.sent a ++ VoiceWebSocket.sent b.
Proof.
  induction a as [|e a IH]; [reflexivity|].
  destruct e; simpl; rewrite ?IH; reflexivity.
Qed.

Lemma runInputs_reachable (OP : VoiceWebSocket.VoiceOPCodes)
    (json : VoiceWebSocket.Json) (conn : VoiceWebSocket.VoiceConnection)
    (inputs : list VoiceWebSocket.input) :
  forall st st' ev,
    VoiceWebSocket.reachable OP json conn st ->
    runInputs OP json conn st inputs = Some (st', ev) ->
    VoiceWebSocket.reachable OP json conn st'.
Proof.
  induction inputs as [|i rest IH]; simpl; intros st st' ev Hr H.
  - inversion H. subst. exact Hr.
  - destruct (VoiceWebSocket.step OP json conn st i) as [[st1 ev1]|] eqn:Hs;
      [|discriminate].
    destruct (runInputs OP json conn st1 rest) as [[st2 ev2]|] eqn:Hrest;
      [|discriminate].
    inversion H. subst.
    apply (IH st1 st' ev2); [|exact Hrest].
    exact (VoiceWebSocket.reachable_step OP json conn st i st1 ev1 Hr Hs).
Qed.

(** ** Heartbeat timers are cleared before they are dropped *)

Ltac inStep H :=
  unfold VoiceWebSocket.step, VoiceWebSocket.connect, VoiceWebSocket.shutdown,
    VoiceWebSocket.onOpen, VoiceWebSocket.onMessage, VoiceWebSocket.onClose,
    VoiceWebSocket.onPacket, VoiceWebSocket.setHeartbeat, VoiceWebSocket.onError,
    VoiceWebSocket.sendHeartbeat, VoiceWebSocket.heartbeatRejected,
    VoiceWebSocket.sendPacket, VoiceWebSocket.send, VoiceWebSocket.reset,
    VoiceWebSocket.clearHeartbeat, VoiceWebSocket.identifyRejected,
    VoiceWebSocket.close, VoiceWebSocket.setReadyState,
    VoiceWebSocket.readyStateOf in H;
  cbn [VoiceWebSocket.heartbeatInterval VoiceWebSocket.ws VoiceWebSocket.dead
       VoiceWebSocket.attempts VoiceWebSocket.sockets VoiceWebSocket.apiVersion
       VoiceWebSocket.lastPongPacket
       VoiceWebSocket.with_attempts VoiceWebSocket.with_lastPongPacket
       VoiceWebSocket.with_dead VoiceWebSocket.with_ws
       VoiceWebSocket.with_heartbeatInterval VoiceWebSocket.with_sockets] in H.

Ltac splitStep H :=
  repeat match type of H with
         | context [match ?x with _ => _ end] =>
             lazymatch x with
             | context [match _ with _ => _ end] => fail
             | _ =>
                 let E := fresh "E" in
                 destruct x eqn:E;
                 cbn [VoiceWebSocket.heartbeatInterval VoiceWebSocket.ws
                      VoiceWebSocket.dead VoiceWebSocket.attempts
                      VoiceWebSocket.sockets VoiceWebSocket.apiVersion
                      VoiceWebSocket.lastPongPacket negb
                      VoiceWebSocket.with_attempts
                      VoiceWebSocket.with_lastPongPacket
                      VoiceWebSocket.with_dead VoiceWebSocket.with_ws
                      VoiceWebSocket.with_heartbeatInterval
                      VoiceWebSocket.with_sockets] in H
             end
         end.

Lemma step_timers (OP : VoiceWebSocket.VoiceOPCodes) (json : VoiceWebSocket.Json)
    (conn : VoiceWebSocket.VoiceConnection) (st : VoiceWebSocket.state)
    (i : VoiceWebSocket.input) (st' : VoiceWebSocket.state)
    (ev : list VoiceWebSocket.event) :
  VoiceWebSocket.step OP json conn st i = Some (st', ev) ->
  (List.length (armed ev) + timersHeld st = cleared ev + timersHeld st')%nat.
Proof.
  intros H. destruct st as [a v p dd w h s]. unfold timersHeld.
  destruct i; inStep H; splitStep H; try discriminate;
    inversion H; subst; clear H;
    rewrite ?armed_app, ?cleared_app, ?length_app; simpl; reflexivity.
Qed.

(** X13.  Over any run of the machine, the heartbeat timers created are the
    timers cleared and the one still held: no timer is dropped without
    [clearInterval], and none is cleared twice. *)
Theorem heartbeat_timers_balance (OP : VoiceWebSocket.VoiceOPCodes)
    (json : VoiceWebSocket.Json) (conn : VoiceWebSocket.VoiceConnection)
    (inputs : list VoiceWebSocket.input) :
  forall st st' ev,
    runInputs OP json conn st inputs = Some (st', ev) ->
    (List.length (armed ev) + timersHeld st = cleared ev + timersHeld st')%nat.
Proof.
  induction inputs as [|i rest IH]; simpl; intros st st' ev H.
  - inversion H. subst. reflexivity.
  - destruct (VoiceWebSocket.step OP json conn st i) as [[st1 ev1]|] eqn:Hs;
      [|discriminate].
    destruct (runInputs OP json conn st1 rest) as [[st2 ev2]|] eqn:Hrest;
      [|discriminate].
    inversion H. subst.
    pose proof (step_timers OP json conn st i st1 ev1 Hs) as H1.
    pose proof (IH st1 st' ev2 Hrest) as H2.
    rewrite armed_app, cleared_app, length_app. lia.
Qed.

Lemma heartbeat_timers_balance_witness :
  exists st' ev,
    runInputs opCodes exampleJson exampleSession VoiceWebSocket.fresh
      [VoiceWebSocket.Connect; VoiceWebSocket.Opened 0%nat;
       VoiceWebSocket.Message 0%nat "info"; VoiceWebSocket.Message 0%nat "info";
       VoiceWebSocket.Shutdown] = Some (st', ev)
    /\ (List.length (armed ev) + timersHeld VoiceWebSocket.fresh
        = cleared ev + timersHeld st')%nat.
Proof.
  eexists _, _. split; [vm_compute; reflexivity|].
  apply (heartbeat_timers_balance opCodes exampleJson exampleSession
           [VoiceWebSocket.Connect; VoiceWebSocket.Opened 0%nat;
            VoiceWebSocket.Message 0%nat "info"; VoiceWebSocket.Message 0%nat "info";
            VoiceWebSocket.Shutdown]).
  vm_compute. reflexivity.
Defined.

(** ** After [shutdown] *)

(** A dead machine that holds no socket stays so at every step: it opens,
    closes and sends nothing, and asks for no reconnect. *)
Lemma step_dead (OP : VoiceWebSocket.VoiceOPCodes) (json : VoiceWebSocket.Json)
    (conn : VoiceWebSocket.VoiceConnection) (st : VoiceWebSocket.state)
    (i : VoiceWebSocket.input) (st' : VoiceWebSocket.state)
    (ev : list VoiceWebSocket.event) :
  VoiceWebSocket.dead st = true ->
  VoiceWebSocket.ws st = None ->
  VoiceWebSocket.step OP json conn st i = Some (st', ev) ->
  VoiceWebSocket.dead st' = true
  /\ VoiceWebSocket.ws st' = None
  /\ VoiceWebSocket.attempts st' = VoiceWebSocket.attempts st
  /\ VoiceWebSocket.opened ev = []
  /\ VoiceWebSocket.closedByUs ev = []
  /\ VoiceWebSocket.sent ev = []
  /\ ~ In "reconnect_required"%string (errors ev).
Proof.
  destruct st as [a v p dd w h s]. simpl. intros Hd Hw H. subst dd w.
  destruct i; inStep H; splitStep H; try discriminate;
    inversion H; subst; clear H;
    rewrite ?opened_app, ?closedByUs_app, ?sent_app, ?errors_app; simpl;
    repeat split; try reflexivity; try tauto;
    intros [F|[]]; discriminate F.
Qed.

Lemma runInputs_dead (OP : VoiceWebSocket.VoiceOPCodes) (json : VoiceWebSocket.Json)
    (conn : VoiceWebSocket.VoiceConnection) (inputs : list VoiceWebSocket.input) :
  forall st st' ev,
    VoiceWebSocket.dead st = true ->
    VoiceWebSocket.ws st = None ->
    runInputs OP json conn st inputs = Some (st', ev) ->
    VoiceWebSocket.dead st' = true
    /\ VoiceWebSocket.ws st' = None
    /\ VoiceWebSocket.attempts st' = VoiceWebSocket.attempts st
    /\ VoiceWebSocket.opened ev = []
    /\ VoiceWebSocket.closedByUs ev = []
    /\ VoiceWebSocket.sent ev = []
    /\ ~ In "reconnect_required"%string (errors ev).
Proof.
  induction inputs as [|i rest IH]; simpl; intros st st' ev Hd Hw H.
  - inversion H. subst. repeat split; auto.
  - destruct (VoiceWebSocket.step OP json conn st i) as [[st1 ev1]|] eqn:Hs;
      [|discriminate].
    destruct (runInputs OP json conn st1 rest) as [[st2 ev2]|] eqn:Hrest;
      [|discriminate].
    inversion H. subst.
    destruct (step_dead OP json conn st i st1 ev1 Hd Hw Hs)
      as (Hd1 & Hw1 & Ha1 & Ho1 & Hc1 & Hs1 & He1).
    destruct (IH st1 st' ev2 Hd1 Hw1 Hrest)
      as (Hd2 & Hw2 & Ha2 & Ho2 & Hc2 & Hs2 & He2).
    rewrite opened_app, closedByUs_app, sent_app, errors_app, Ho1, Ho2, Hc1, Hc2,
      Hs1, Hs2.
    repeat split; auto; [congruence|].
    intros Hin. apply in_app_or in Hin. tauto.
Qed.

(** X14.  Once [shutdown] has run, whatever happens afterwards (calls of
    [connect], sockets opening, messages, closures, errors, heartbeat ticks,
    failed sends), the machine stays dead and holds no socket; it creates no
    socket, closes none, sends nothing and never asks for a reconnect. *)
Theorem shutdown_is_final (OP : VoiceWebSocket.VoiceOPCodes)
    (json : VoiceWebSocket.Json) (conn : VoiceWebSocket.VoiceConnection)
    (st : VoiceWebSocket.state) (inputs : list VoiceWebSocket.input)
    (st' : VoiceWebSocket.state) (ev : list VoiceWebSocket.event) :
  runInputs OP json conn (fst (VoiceWebSocket.shutdown st)) inputs
  = Some (st', ev) ->
  VoiceWebSocket.dead st' = true
  /\ VoiceWebSocket.ws st' = None
  /\ VoiceWebSocket.attempts st' = VoiceWebSocket.attempts st
  /\ VoiceWebSocket.opened ev = []
  /\ VoiceWebSocket.closedByUs ev = []
  /\ VoiceWebSocket.sent ev = []
  /\ ~ In "reconnect_required"%string (errors ev).
Proof.
  intros H.
  unfold VoiceWebSocket.shutdown in H.
  destruct (reset_facts (VoiceWebSocket.with_dead true st))
    as (st0 & ev0 & Hreset & Ha & _ & Hd & Hw & _).
  rewrite Hreset in H. cbn [fst] in H.
  destruct (runInputs_dead OP json conn inputs st0 st' ev Hd Hw H)
    as (H1 & H2 & H3 & H4 & H5 & H6 & H7).
  split; [exact H1|]. split; [exact H2|]. split; [rewrite H3; exact Ha|].
  split; [exact H4|]. split; [exact H5|]. split; [exact H6|exact H7].
Qed.

Lemma shutdown_is_final_witness :
  exists st' ev,
    runInputs opCodes exampleJson exampleSession
      (fst (VoiceWebSocket.shutdown beatingMachine))
      [VoiceWebSocket.Connect; VoiceWebSocket.Closed 0%nat;
       VoiceWebSocket.HeartbeatSendFailed; VoiceWebSocket.Connect]
    = Some (st', ev)
    /\ VoiceWebSocket.dead st' = true
    /\ VoiceWebSocket.ws st' = None
    /\ VoiceWebSocket.attempts st' = VoiceWebSocket.attempts beatingMachine
    /\ VoiceWebSocket.opened ev = []
    /\ VoiceWebSocket.closedByUs ev = []
    /\ VoiceWebSocket.sent ev = []
    /\ ~ In "reconnect_required"%string (errors ev).
Proof.
  eexists _, _. split; [vm_compute; reflexivity|].
  apply (shutdown_is_final opCodes exampleJson exampleSession beatingMachine
           [VoiceWebSocket.Connect; VoiceWebSocket.Closed 0%nat;
            VoiceWebSocket.HeartbeatSendFailed; VoiceWebSocket.Connect]).
  vm_compute. reflexivity.
Defined.

(** ** Transports are created by [connect] only *)

Lemma step_frame (OP : VoiceWebSocket.VoiceOPCodes) (json : VoiceWebSocket.Json)
    (conn : VoiceWebSocket.VoiceConnection) (st : VoiceWebSocket.state)
    (i : VoiceWebSocket.input) (st' : VoiceWebSocket.state)
    (ev : list VoiceWebSocket.event) :
  i <> VoiceWebSocket.Connect ->
  VoiceWebSocket.step OP json conn st i = Some (st', ev) ->
  VoiceWebSocket.opened ev = []
  /\ VoiceWebSocket.attempts st' = VoiceWebSocket.attempts st
  /\ List.length (VoiceWebSocket.sockets st')
     = List.length (VoiceWebSocket.sockets st).
Proof.
  destruct st as [a v p dd w h s]. intros Hi H.
  destruct i; [congruence| | | | | | | | |];
    inStep H; splitStep H; try discriminate;
    inversion H; subst; clear H;
    rewrite ?opened_app; simpl; rewrite ?length_setNth; repeat split.
Qed.

Lemma connect_frame (conn : VoiceWebSocket.VoiceConnection)
    (st : VoiceWebSocket.state) :
  let st' := fst (VoiceWebSocket.connect conn st) in
  let ev := snd (VoiceWebSocket.connect conn st) in
  VoiceWebSocket.attempts st' - VoiceWebSocket.attempts st
  = Z.of_nat (List.length (VoiceWebSocket.opened ev))
  /\ List.length (VoiceWebSocket.sockets st')
     = (List.length (VoiceWebSocket.sockets st)
        + List.length (VoiceWebSocket.opened ev))%nat
  /\ (VoiceWebSocket.attempts st <= 5 -> VoiceWebSocket.attempts st' <= 5).
Proof.
  destruct (VoiceWebSocket.dead st) eqn:Hd.
  - unfold VoiceWebSocket.connect. rewrite Hd. simpl.
    repeat split; [lia|lia|auto].
  - destruct (Z_lt_le_dec (VoiceWebSocket.attempts st) 5) as [Hlt|Hge].
    + destruct (connect_opens conn st Hd Hlt)
        as (st' & ev & Hc & Ha & _ & _ & _ & Hl & Ho & _).
      rewrite Hc. cbn [fst snd]. rewrite Ho, Ha, Hl. simpl.
      repeat split; lia.
    + destruct (connect_gives_up conn st Hd Hge)
        as (st' & ev & Hc & Ha & _ & Hl & Ho & _).
      rewrite Hc. cbn [fst snd]. rewrite Ho, Ha, Hl. simpl.
      repeat split; lia.
Qed.

Lemma step_counts (OP : VoiceWebSocket.VoiceOPCodes) (json : VoiceWebSocket.Json)
    (conn : VoiceWebSocket.VoiceConnection) (st : VoiceWebSocket.state)
    (i : VoiceWebSocket.input) (st' : VoiceWebSocket.state)
    (ev : list VoiceWebSocket.event) :
  VoiceWebSocket.step OP json conn st i = Some (st', ev) ->
  VoiceWebSocket.attempts st' - VoiceWebSocket.attempts st
  = Z.of_nat (List.length (VoiceWebSocket.opened ev))
  /\ List.length (VoiceWebSocket.sockets st')
     = (List.length (VoiceWebSocket.sockets st)
        + List.length (VoiceWebSocket.opened ev))%nat
  /\ (VoiceWebSocket.attempts st <= 5 -> VoiceWebSocket.attempts st' <= 5).
Proof.
  intros Hstep.
  destruct i;
    try (match type of Hstep with
         | VoiceWebSocket.step _ _ _ _ ?j = _ =>
             assert (Hj : j <> VoiceWebSocket.Connect) by discriminate;
             destruct (step_frame OP json conn st j st' ev Hj Hstep)
               as (Ho & Ha & Hl)
         end; rewrite Ho, Ha, Hl; simpl; repeat split; lia).
  simpl in Hstep. inversion Hstep as [Hc].
  pose proof (connect_frame conn st) as H. rewrite Hc in H. exact H.
Qed.

(** X15.  Over the whole life of a machine, from its construction on, at most
    five sockets are created, and the attempt counter is their number: the
    counter is never lowered, whether a transport opened or not. *)
Theorem at_most_five_sockets (OP : VoiceWebSocket.VoiceOPCodes)
    (json : VoiceWebSocket.Json) (conn : VoiceWebSocket.VoiceConnection)
    (inputs : list VoiceWebSocket.input) (st' : VoiceWebSocket.state)
    (ev : list VoiceWebSocket.event) :
  runInputs OP json conn VoiceWebSocket.fresh inputs = Some (st', ev) ->
  VoiceWebSocket.attempts st' = Z.of_nat (List.length (VoiceWebSocket.opened ev))
  /\ (List.length (VoiceWebSocket.opened ev) <= 5)%nat
  /\ List.length (VoiceWebSocket.sockets st')
     = List.length (VoiceWebSocket.opened ev).
Proof.
  assert (G : forall inputs st st' ev,
             runInputs OP json conn st inputs = Some (st', ev) ->
             VoiceWebSocket.attempts st' - VoiceWebSocket.attempts st
             = Z.of_nat (List.length (VoiceWebSocket.opened ev))
             /\ List.length (VoiceWebSocket.sockets st')
                = (List.length (VoiceWebSocket.sockets st)
                   + List.length (VoiceWebSocket.opened ev))%nat
             /\ (VoiceWebSocket.attempts st <= 5 ->
                 VoiceWebSocket.attempts st' <= 5)).
  { clear. induction inputs as [|i rest IH]; simpl; intros st st' ev H.
    - inversion H. subst. simpl. repeat split; lia.
    - destruct (VoiceWebSocket.step OP json conn st i) as [[st1 ev1]|] eqn:Hs;
        [|discriminate].
      destruct (runInputs OP json conn st1 rest) as [[st2 ev2]|] eqn:Hrest;
        [|discriminate].
      inversion H. subst.
      destruct (step_counts OP json conn st i st1 ev1 Hs) as (A1 & L1 & B1).
      destruct (IH st1 st' ev2 Hrest) as (A2 & L2 & B2).
      rewrite opened_app, length_app. repeat split; lia. }
  intros H. destruct (G inputs VoiceWebSocket.fresh st' ev H) as (A & L & B).
  simpl in A, L, B. repeat split; lia.
Qed.

Lemma at_most_five_sockets_witness :
  exists st' ev,
    runInputs opCodes exampleJson exampleSession VoiceWebSocket.fresh
      (repeat VoiceWebSocket.Connect 7) = Some (st', ev)
    /\ VoiceWebSocket.attempts st' = Z.of_nat (List.length (VoiceWebSocket.opened ev))
    /\ (List.length (VoiceWebSocket.opened ev) <= 5)%nat
    /\ List.length (VoiceWebSocket.sockets st')
       = List.length (VoiceWebSocket.opened ev).
Proof.
  eexists _, _. split; [vm_compute; reflexivity|].
  apply (at_most_five_sockets opCodes exampleJson exampleSession
           (repeat VoiceWebSocket.Connect 7)).
  vm_compute. reflexivity.
Defined.

(** X16.  A run without a call of [connect] creates no socket and leaves the
    attempt counter: the machine never reconnects by itself, a closure or a
    connection error only surfaces as an ['error'] event. *)
Theorem no_reconnect_without_connect (OP : VoiceWebSocket.VoiceOPCodes)
    (json : VoiceWebSocket.Json) (conn : VoiceWebSocket.VoiceConnection)
    (inputs : list VoiceWebSocket.input) :
  forall st st' ev,
    ~ In VoiceWebSocket.Connect inputs ->
    runInputs OP json conn st inputs = Some (st', ev) ->
    VoiceWebSocket.opened ev = []
    /\ VoiceWebSocket.attempts st' = VoiceWebSocket.attempts st
    /\ List.length (VoiceWebSocket.sockets st')
       = List.length (VoiceWebSocket.sockets st).
Proof.
  induction inputs as [|i rest IH]; simpl; intros st st' ev Hno H.
  - inversion H. subst. repeat split.
  - destruct (VoiceWebSocket.step OP json conn st i) as [[st1 ev1]|] eqn:Hs;
      [|discriminate].
    destruct (runInputs OP json conn st1 rest) as [[st2 ev2]|] eqn:Hrest;
      [|discriminate].
    inversion H. subst.
    assert (Hi : i <> VoiceWebSocket.Connect) by (intros E; apply Hno; auto).
    destruct (step_frame OP json conn st i st1 ev1 Hi Hs) as (Ho1 & Ha1 & Hl1).
    destruct (IH st1 st' ev2 (fun F => Hno (or_intror F)) Hrest)
      as (Ho2 & Ha2 & Hl2).
    rewrite opened_app, Ho1, Ho2. repeat split; congruence.
Qed.

Lemma no_reconnect_without_connect_witness :
  exists st' ev,
    runInputs opCodes exampleJson exampleSession beatingMachine
      [VoiceWebSocket.Errored 0%nat "uWs client connection error";
       VoiceWebSocket.Closed 0%nat] = Some (st', ev)
    /\ errors ev = ["reconnect_required"; "reconnect_required"]%string
    /\ VoiceWebSocket.opened ev = []
    /\ VoiceWebSocket.attempts st' = VoiceWebSocket.attempts beatingMachine
    /\ List.length (VoiceWebSocket.sockets st')
       = List.length (VoiceWebSocket.sockets beatingMachine).
Proof.
  eexists _, _. split; [vm_compute; reflexivity|]. split; [vm_compute; reflexivity|].
  apply (no_reconnect_without_connect opCodes exampleJson exampleSession
           [VoiceWebSocket.Errored 0%nat "uWs client connection error";
            VoiceWebSocket.Closed 0%nat]).
  - intros [F|[F|[]]]; discriminate F.
  - vm_compute. reflexivity.
Defined.

(** ** Where heartbeat timers come from *)

(** X17.  A step creates a heartbeat timer only when it is a message, from
    whichever socket delivers it and whatever the state of the machine,
    that parses to an info packet whose payload carries a heartbeat
    interval that the test of [setHeartbeat] accepts; the timer has that
    interval and is the one the machine holds afterwards.  No other input,
    and no other packet, starts the heartbeat. *)
Theorem heartbeat_armed_by_info (OP : VoiceWebSocket.VoiceOPCodes)
    (json : VoiceWebSocket.Json) (conn : VoiceWebSocket.VoiceConnection)
    (st : VoiceWebSocket.state) (i : VoiceWebSocket.input)
    (st' : VoiceWebSocket.state) (ev : list VoiceWebSocket.event) (ms : Z) :
  VoiceWebSocket.step OP json conn st i = Some (st', ev) ->
  In ms (armed ev) ->
  exists w data packet o,
    i = VoiceWebSocket.Message w data
    /\ VoiceWebSocket.JSON_parse json data = inl packet
    /\ VoiceWebSocket.op packet = VoiceWebSocket.INFO OP
    /\ VoiceWebSocket.d packet = VoiceWebSocket.Object o
    /\ VoiceWebSocket.heartbeat_interval o = Some ms
    /\ VoiceWebSocket.invalidInterval (Some ms) = false
    /\ armed ev = [ms]
    /\ VoiceWebSocket.heartbeatInterval st' = Some ms.
Proof.
  intros H Hin. destruct st as [a v p dd w h s].
  destruct i; inStep H; splitStep H; try discriminate;
    inversion H; subst; clear H;
    rewrite ?armed_app in *; simpl in Hin; try contradiction;
    destruct Hin as [Hin|[]]; subst;
    eexists _, _, _, _; (split; [reflexivity|]);
    repeat match goal with
           | E : (_ =? _) = true |- _ => apply Z.eqb_eq in E
           end;
    repeat split; eauto.
Qed.

Lemma heartbeat_armed_by_info_witness :
  exists w data packet o,
    VoiceWebSocket.Message 0%nat "info" = VoiceWebSocket.Message w data
    /\ VoiceWebSocket.JSON_parse exampleJson data = inl packet
    /\ VoiceWebSocket.op packet = VoiceWebSocket.INFO opCodes
    /\ VoiceWebSocket.d packet = VoiceWebSocket.Object o
    /\ VoiceWebSocket.heartbeat_interval o = Some 41250
    /\ VoiceWebSocket.invalidInterval (Some 41250) = false
    /\ armed [VoiceWebSocket.SetInterval 41250] = [41250]
    /\ VoiceWebSocket.heartbeatInterval lateMessageMachine = Some 41250.
Proof.
  apply (heartbeat_armed_by_info opCodes exampleJson exampleSession
           (fst (VoiceWebSocket.shutdown openedMachine))
           (VoiceWebSocket.Message 0%nat "info") lateMessageMachine
           [VoiceWebSocket.SetInterval 41250] 41250).
  - reflexivity.
  - simpl. auto.
Defined.

(** ** The socket the machine holds *)

(** X18.  In every state the machine can reach, a socket that is connecting or
    open is the socket the machine holds, and the machine is not dead: a
    socket is closed before the machine lets go of it. *)
Theorem no_stray_transport (OP : VoiceWebSocket.VoiceOPCodes)
    (json : VoiceWebSocket.Json) (conn : VoiceWebSocket.VoiceConnection)
    (st : VoiceWebSocket.state) (w : VoiceWebSocket.WsRef) :
  VoiceWebSocket.reachable OP json conn st ->
  live st w ->
  VoiceWebSocket.ws st = Some w /\ VoiceWebSocket.dead st = false.
Proof.
  intros Hr Hl.
  destruct (reachable_tidy OP json conn st Hr) as (H1 & H2).
  specialize (H1 w Hl). split; [exact H1|].
  destruct (VoiceWebSocket.dead st); [|reflexivity].
  rewrite (H2 eq_refl) in H1. discriminate.
Qed.

Lemma no_stray_transport_witness :
  VoiceWebSocket.ws openedMachine = Some 0%nat
  /\ VoiceWebSocket.dead openedMachine = false.
Proof.
  apply (no_stray_transport opCodes exampleJson exampleSession openedMachine 0%nat).
  - exact openedMachine_reachable.
  - right. reflexivity.
Defined.

(** X19.  When a socket reports that it opened, in a state the machine can
    reach, it is the socket the machine holds, and the identify packet goes
    out on it, once; when the packet cannot be serialized nothing is sent
    and the join error is emitted. *)
Theorem identify_on_open (OP : VoiceWebSocket.VoiceOPCodes)
    (json : VoiceWebSocket.Json) (conn : VoiceWebSocket.VoiceConnection)
    (st : VoiceWebSocket.state) (w : VoiceWebSocket.WsRef)
    (st' : VoiceWebSocket.state) (ev : list VoiceWebSocket.event) :
  VoiceWebSocket.reachable OP json conn st ->
  VoiceWebSocket.step OP json conn st (VoiceWebSocket.Opened w) = Some (st', ev) ->
  VoiceWebSocket.ws st' = Some w
  /\ VoiceWebSocket.readyStateOf st' w = Some VoiceWebSocket.OPEN
  /\ ev = match VoiceWebSocket.JSON_stringify json
                  (VoiceWebSocket.identifyPacket OP conn) with
          | inl text => [VoiceWebSocket.WsSend w text]
          | inr _ =>
              [VoiceWebSocket.Emit
                 (VoiceWebSocket.Error
                    "Tried to send join packet, but the WebSocket is not open.")]
          end.
Proof.
  intros Hr Hstep. simpl in Hstep.
  destruct (VoiceWebSocket.readyStateOf st w) as [[| | |]|] eqn:Hw;
    try discriminate.
  destruct (reachable_tidy OP json conn st Hr) as (H1 & _).
  pose proof (H1 w (or_introl Hw)) as Hheld.
  assert (Hlt : (w < List.length (VoiceWebSocket.sockets st))%nat).
  { apply nth_error_Some. unfold VoiceWebSocket.readyStateOf in Hw. congruence. }
  assert (Hopen : VoiceWebSocket.readyStateOf
                    (VoiceWebSocket.setReadyState w VoiceWebSocket.OPEN st) w
                  = Some VoiceWebSocket.OPEN).
  { unfold VoiceWebSocket.readyStateOf, VoiceWebSocket.setReadyState. simpl.
    apply nth_error_setNth_same. exact Hlt. }
  inversion Hstep as [Hopened]. clear Hstep.
  unfold VoiceWebSocket.onOpen, VoiceWebSocket.sendPacket, VoiceWebSocket.send
    in Hopened.
  change (VoiceWebSocket.ws (VoiceWebSocket.setReadyState w VoiceWebSocket.OPEN st))
    with (VoiceWebSocket.ws st) in Hopened.
  rewrite Hheld, Hopen in Hopened.
  destruct (VoiceWebSocket.JSON_stringify json (VoiceWebSocket.identifyPacket OP conn));
    inversion Hopened; subst; (split; [exact Hheld|]); (split; [exact Hopen|]);
    reflexivity.
Qed.

Lemma identify_on_open_witness :
  VoiceWebSocket.ws openedMachine = Some 0%nat
  /\ VoiceWebSocket.readyStateOf openedMachine 0%nat = Some VoiceWebSocket.OPEN
  /\ [VoiceWebSocket.WsSend 0%nat "{}"]
     = match VoiceWebSocket.JSON_stringify exampleJson
               (VoiceWebSocket.identifyPacket opCodes exampleSession) with
       | inl text => [VoiceWebSocket.WsSend 0%nat text]
       | inr _ =>
           [VoiceWebSocket.Emit
              (VoiceWebSocket.Error
                 "Tried to send join packet, but the WebSocket is not open.")]
       end.
Proof.
  apply (identify_on_open opCodes exampleJson exampleSession
           (fst (VoiceWebSocket.connect exampleSession VoiceWebSocket.fresh))
           0%nat openedMachine [VoiceWebSocket.WsSend 0%nat "{}"]).
  - apply (VoiceWebSocket.reachable_step opCodes exampleJson exampleSession
             VoiceWebSocket.fresh VoiceWebSocket.Connect _
             [VoiceWebSocket.WsNew 0%nat "voice.example" 4]).
    + apply VoiceWebSocket.reachable_fresh.
    + reflexivity.
  - reflexivity.
Defined.

(** ** A heartbeat tick *)

(** X20.  [sendHeartbeat] either sends one heartbeat packet on the socket held,
    which is open, and leaves the machine as it is; or, when the packet
    cannot be serialized or no open socket is held, it sends nothing, emits
    the warning and clears the timer, so that no further heartbeat is sent
    until another timer is created. *)
Theorem heartbeat_tick (OP : VoiceWebSocket.VoiceOPCodes) (json : VoiceWebSocket.Json)
    (now : Z) (st : VoiceWebSocket.state) :
  let st' := fst (VoiceWebSocket.sendHeartbeat OP json now st) in
  let ev := snd (VoiceWebSocket.sendHeartbeat OP json now st) in
  match VoiceWebSocket.JSON_stringify json
          {| VoiceWebSocket.op := VoiceWebSocket.HEARTBEAT OP;
             VoiceWebSocket.d := VoiceWebSocket.Number now |},
        VoiceWebSocket.transportOpen st with
  | inl text, true =>
      st' = st
      /\ exists w, VoiceWebSocket.ws st = Some w
                   /\ ev = [VoiceWebSocket.WsSend w text]
  | _, _ =>
      VoiceWebSocket.sent ev = []
      /\ VoiceWebSocket.heartbeatInterval st' = None
      /\ cleared ev = timersHeld st
      /\ In (VoiceWebSocket.Emit
               (VoiceWebSocket.Warn
                  "Tried to send heartbeat, but connection is not open")) ev
      /\ VoiceWebSocket.ws st' = VoiceWebSocket.ws st
      /\ VoiceWebSocket.sockets st' = VoiceWebSocket.sockets st
  end.
Proof.
  destruct st as [a v p dd w h s].
  unfold VoiceWebSocket.sendHeartbeat, VoiceWebSocket.sendPacket,
    VoiceWebSocket.send, VoiceWebSocket.transportOpen,
    VoiceWebSocket.heartbeatRejected, VoiceWebSocket.clearHeartbeat, timersHeld,
    VoiceWebSocket.readyStateOf.
  cbn [VoiceWebSocket.ws VoiceWebSocket.sockets VoiceWebSocket.heartbeatInterval
       VoiceWebSocket.dead].
  destruct (VoiceWebSocket.JSON_stringify json _) as [text|error];
    destruct w as [w|]; try destruct (nth_error s w) as [[| | |]|];
    destruct h, dd; simpl; repeat split; eauto 10.
Qed.

(** ** Losing the connection *)

Lemma reset_errors (st : VoiceWebSocket.state) :
  errors (snd (VoiceWebSocket.reset st)) = []
  /\ VoiceWebSocket.sent (snd (VoiceWebSocket.reset st)) = [].
Proof.
  destruct st as [a v p dd w h s].
  unfold VoiceWebSocket.reset, VoiceWebSocket.clearHeartbeat,
    VoiceWebSocket.close, VoiceWebSocket.setReadyState,
    VoiceWebSocket.readyStateOf.
  cbn [VoiceWebSocket.ws VoiceWebSocket.sockets VoiceWebSocket.heartbeatInterval].
  destruct w as [w|]; try destruct (nth_error s w) as [[| | |]|];
    destruct h; simpl; split; reflexivity.
Qed.

(** X21.  [onClose] and the connection error of the socket library tear the
    machine down the same way: the socket held is closed unless it is closed
    already, no socket and no heartbeat timer are held afterwards, and
    ['error'] is emitted once, with the message [reconnect_required]; nothing
    is sent and no socket is created.  A dead machine is torn down by
    [onClose] without the event, and is left as it is by [onError], whatever
    the error; any other error is passed on as it is, without a
    teardown. *)
Theorem connection_loss (st : VoiceWebSocket.state) (message : string) :
  let closed := VoiceWebSocket.onClose st in
  let failed := VoiceWebSocket.onError message st in
  (VoiceWebSocket.ws (fst closed) = None
   /\ VoiceWebSocket.heartbeatInterval (fst closed) = None
   /\ VoiceWebSocket.dead (fst closed) = VoiceWebSocket.dead st
   /\ VoiceWebSocket.attempts (fst closed) = VoiceWebSocket.attempts st
   /\ VoiceWebSocket.closedByUs (snd closed) = tornDown st
   /\ VoiceWebSocket.opened (snd closed) = []
   /\ VoiceWebSocket.sent (snd closed) = []
   /\ errors (snd closed)
      = if VoiceWebSocket.dead st then [] else ["reconnect_required"%string])
  /\ (if VoiceWebSocket.dead st
      then fst failed = st /\ errors (snd failed) = []
           /\ VoiceWebSocket.closedByUs (snd failed) = []
      else if String.eqb message "uWs client connection error"
      then VoiceWebSocket.ws (fst failed) = None
           /\ VoiceWebSocket.heartbeatInterval (fst failed) = None
           /\ VoiceWebSocket.closedByUs (snd failed) = tornDown st
           /\ VoiceWebSocket.opened (snd failed) = []
           /\ VoiceWebSocket.sent (snd failed) = []
           /\ errors (snd failed) = ["reconnect_required"%string]
      else fst failed = st /\ errors (snd failed) = [message]
           /\ VoiceWebSocket.closedByUs (snd failed) = []).
Proof.
  intros closed failed. unfold closed, failed. clear closed failed.
  unfold VoiceWebSocket.onClose, VoiceWebSocket.onError.
  destruct (reset_facts st)
    as (st1 & ev1 & Hreset & Ha & _ & Hd & Hw & Hh & _ & Ho & _ & Hc).
  pose proof (reset_errors st) as [He Hs]. rewrite Hreset in *.
  cbn [fst snd] in He, Hs. rewrite Hd.
  destruct (VoiceWebSocket.dead st); cbn [negb fst snd].
  - repeat split; auto.
  - rewrite opened_app, closedByUs_app, sent_app, errors_app, Ho, Hc, He, Hs,
      app_nil_r.
    split; [repeat split; auto|].
    destruct (String.eqb message "uWs client connection error"); cbn [fst snd].
    + change (VoiceWebSocket.ConsoleError "[discord.js] TCP Voice Socket error:"
              :: ev1 ++ [VoiceWebSocket.Emit (VoiceWebSocket.Error "reconnect_required")])
        with ([VoiceWebSocket.ConsoleError "[discord.js] TCP Voice Socket error:"]
              ++ ev1 ++ [VoiceWebSocket.Emit (VoiceWebSocket.Error "reconnect_required")]).
      rewrite ?opened_app, ?closedByUs_app, ?sent_app, ?errors_app, Ho, Hc, He, Hs.
      simpl. rewrite ?app_nil_r. repeat split; auto.
    + repeat split.
Qed.
